(** * bmaptools.TransRead: transparent, forward-only reading

    A shallow embedding of [bmaptools/TransRead.py] and the proofs of its
    specification.  Python integers are [Z], Python 2 byte strings are
    [list byte], and every statement that may raise is a computation in the
    [outcome] monad below. *)

From Stdlib Require Import Strings.String Strings.Ascii Strings.Byte.
From Stdlib Require Import ZArith List Lia Bool Arith.
Import ListNotations.
Local Open Scope Z_scope.

Set Implicit Arguments.

(** ** Python values *)

Definition bytes := list byte.

(** [len(s)] as a Python integer. *)
Definition len (s : bytes) : Z := Z.of_nat (length s).

(** Truth value of a string: [not buf] holds for the empty string only. *)
Definition is_empty (s : bytes) : bool :=
  match s with [] => true | _ :: _ => false end.

(** The slice [s[lo:hi]], with Python's treatment of negative and
    out-of-range bounds. *)
Definition slice_index (n i : Z) : Z :=
  if i <? 0 then Z.max 0 (i + n) else Z.min i n.

Definition slice (s : bytes) (lo hi : Z) : bytes :=
  let lo' := slice_index (len s) lo in
  let hi' := slice_index (len s) hi in
  firstn (Z.to_nat (hi' - lo')) (skipn (Z.to_nat lo') s).

(** The slice [s[lo:]]. *)
Definition slice_from (s : bytes) (lo : Z) : bytes :=
  skipn (Z.to_nat (slice_index (len s) lo)) s.

(** [s.endswith(suffix)]: some tail of [s], possibly [s] itself, is
    [suffix]; characters are compared exactly. *)
Fixpoint endswith (s suffix : string) : bool :=
  if String.eqb s suffix then true
  else match s with
       | EmptyString => false
       | String _ s' => endswith s' suffix
       end.

Definition SEEK_SET : Z := 0.
Definition SEEK_CUR : Z := 1.
Definition SEEK_END : Z := 2.

(** ** Exceptions

    The module has one exception class, [Error], which carries a
    human-readable message.  The messages are kept as a datatype that records
    which [raise] produced them together with the values interpolated into the
    format string. *)

Inductive message :=
| BadWhence (whence : Z)
    (* "'seek()' method requires the 'whence' argument to be 0 or 1, but
        %d was passed" *)
| BackwardSeek (cur_pos new_pos : Z)
    (* "''seek()' method supports only seeking forward, seeking from %d to
        %d is not allowed" *)
| SeekedTooFar (reached wanted : Z)
    (* "seeked too far: %d instead of %d" *)
| CannotOpenFile (name : string) (cause : string).
    (* "cannot open file '%s': %s" *)

Inductive exn :=
| Error (m : message)                 (* the module's own exception class *)
| IOError (cause : string)            (* Python's built-in IOError *)
| AssertionError                      (* a failed [assert] *)
| OtherException (cls cause : string) (* any other class, e.g. one of a library *).

(** The result of running a statement: it returns, it raises, or the bound
    on loop iterations given to the model was too small. *)
Inductive outcome (A : Type) :=
| Return (a : A)
| Raise (e : exn)
| OutOfFuel.
Arguments Return {A} a.
Arguments Raise {A} e.
Arguments OutOfFuel {A}.

Definition bind {A B} (m : outcome A) (k : A -> outcome B) : outcome B :=
  match m with
  | Return a => k a
  | Raise e => Raise e
  | OutOfFuel => OutOfFuel
  end.

Notation "x <- m ;; k" := (bind m (fun x => k))
  (at level 61, m at next level, right associativity).
Notation "' p <- m ;; k" := (bind m (fun x => let p := x in k))
  (at level 61, p pattern, m at next level, right associativity).

Definition assert (b : bool) : outcome unit :=
  if b then Return tt else Raise AssertionError.

(** ** File-like objects

    Everything the module reads from is duck-typed: it only has to offer
    [read(size)].  A read returns the data and the object after the read. *)

Class FileObj (F : Type) := read : F -> Z -> outcome (bytes * F).

(** The method of the class, under a name that the [read] of a particular
    class of objects does not hide. *)
Abbreviation obj_read := read.

(** A Python 2 file object over a fixed content, for the three kinds of raw
    source the module opens: a local file, the pipe of a child process and a
    URL response.  For all of them [read(n)] blocks until it has [n] bytes or
    the data ends: it hands out the next [n] bytes, fewer only at the end,
    and all that is left when [n] is negative.  The sizes are those the
    object takes: a built-in file refuses a size that does not fit a C long
    with [OverflowError], and nothing below is stated about such a call on a
    file. *)
Record pyfile := mk_pyfile {
  f_data : bytes;      (* the whole content *)
  f_off : nat;         (* the file offset *)
  f_has_seek : bool }. (* a built-in file or pipe has [seek] and [tell];
                          a urllib2 response has neither *)

Definition remaining (f : pyfile) : bytes := skipn (f_off f) (f_data f).

Definition file_read (f : pyfile) (n : Z) : outcome (bytes * pyfile) :=
  let rest := remaining f in
  let got := if n <? 0 then rest else firstn (Z.to_nat n) rest in
  Return (got, {| f_data := f_data f; f_off := f_off f + length got;
                  f_has_seek := f_has_seek f |}).

#[global] Instance pyfile_FileObj : FileObj pyfile := file_read.

(** The [seek] and [tell] of a built-in file object on a regular file: any
    offset from zero on is accepted, before or after the current one. *)
Definition file_seek (f : pyfile) (offset whence : Z) : outcome pyfile :=
  base <- (if whence =? SEEK_SET then Return 0
           else if whence =? SEEK_CUR then Return (Z.of_nat (f_off f))
           else if whence =? SEEK_END then Return (len (f_data f))
           else Raise (IOError "Invalid argument")) ;;
  if base + offset <? 0 then Raise (IOError "Invalid argument")
  else Return {| f_data := f_data f; f_off := Z.to_nat (base + offset);
                 f_has_seek := f_has_seek f |}.

Definition file_tell (f : pyfile) : Z := Z.of_nat (f_off f).

(** ** [_fake_seek_forward]

    The function works on any file-like object, and so does its model. *)

Section OverFileObjects.
Context {F : Type} `{FileObj F}.

(** The [while to_read > 0] loop.  Every iteration that does not leave the
    loop takes at least one byte off [to_read], so [to_read] iterations are
    always enough; [fuel] is that bound. *)
Fixpoint seek_loop (fuel : nat) (file_obj : F) (to_read : Z)
  : outcome (Z * F) :=
  if to_read >? 0 then
    match fuel with
    | O => OutOfFuel
    | S fuel' =>
        let chunk_size := Z.min to_read (1024 * 1024) in
        '(buf, file_obj) <- read file_obj chunk_size ;;
        if is_empty buf then Return (to_read, file_obj)
        else seek_loop fuel' file_obj (to_read - len buf)
    end
  else Return (to_read, file_obj).

Definition _fake_seek_forward (file_obj : F) (cur_pos offset whence : Z)
  : outcome (Z * F) :=
  new_pos <- (if whence =? SEEK_SET then Return offset
              else if whence =? SEEK_CUR then Return (cur_pos + offset)
              else Raise (Error (BadWhence whence))) ;;
  if new_pos <? cur_pos then Raise (Error (BackwardSeek cur_pos new_pos))
  else
    let length := new_pos - cur_pos in
    let to_read := length in
    '(to_read, file_obj) <- seek_loop (Z.to_nat to_read) file_obj to_read ;;
    if to_read <? 0
    then Raise (Error (SeekedTooFar (new_pos - to_read) new_pos))
    else Return (new_pos - to_read, file_obj).

(** The buffers handed out by the reads of the loop, in order (the last one
    is empty when the loop was left by [break]).  The loop drops them; they
    are kept here to speak about what a seek discarded. *)
Fixpoint seek_trace (fuel : nat) (file_obj : F) (to_read : Z)
  : list bytes :=
  if to_read >? 0 then
    match fuel with
    | O => []
    | S fuel' =>
        match read file_obj (Z.min to_read (1024 * 1024)) with
        | Return (buf, file_obj) =>
            buf :: (if is_empty buf then []
                    else seek_trace fuel' file_obj (to_read - len buf))
        | _ => []
        end
    end
  else [].

(** The loop of [_create_local_copy], for any read size:
    [while True: chunk = self.read(size); if not chunk: break;
    tmp_file_obj.write(chunk)].  The result is what was written. *)
Fixpoint read_until_empty (fuel : nat) (file_obj : F) (size : Z)
  : outcome (bytes * F) :=
  match fuel with
  | O => OutOfFuel
  | S fuel' =>
      '(chunk, file_obj) <- read file_obj size ;;
      if is_empty chunk then Return ([], file_obj)
      else
        '(written, file_obj) <- read_until_empty fuel' file_obj size ;;
        Return (chunk ++ written, file_obj)
  end.

End OverFileObjects.

Definition total_len (l : list bytes) : Z :=
  fold_right (fun b acc => len b + acc) 0 l.

(** ** [_CompressedFile] *)

Module CompressedFile.
Section WithDecompressor.

(** The state a decompressor object keeps between two calls. *)
Variable D : Type.

(** A bound method such as [zlib.decompressobj(...).decompress]: the
    decompressor object together with its chunk-to-chunk function. *)
Record decompress_func := mk_decompress_func {
  d_self : D;
  d_decompress : D -> bytes -> bytes * D }.

Definition call (f : decompress_func) (buf : bytes)
  : bytes * decompress_func :=
  let '(out, d) := d_decompress f (d_self f) buf in
  (out, {| d_self := d; d_decompress := d_decompress f |}).

Record t := mk {
  _file_obj : pyfile;
  _decompress_func : option decompress_func;
  _chunk_size : Z;
  _pos : Z;
  _buffer : bytes;
  _buffer_pos : Z;
  _eof : bool }.

Definition set_file_obj (self : t) (v : pyfile) : t :=
  mk v (_decompress_func self) (_chunk_size self) (_pos self)
     (_buffer self) (_buffer_pos self) (_eof self).
Definition set_decompress_func (self : t) (v : option decompress_func) : t :=
  mk (_file_obj self) v (_chunk_size self) (_pos self)
     (_buffer self) (_buffer_pos self) (_eof self).
Definition set_pos (self : t) (v : Z) : t :=
  mk (_file_obj self) (_decompress_func self) (_chunk_size self) v
     (_buffer self) (_buffer_pos self) (_eof self).
Definition set_buffer (self : t) (v : bytes) : t :=
  mk (_file_obj self) (_decompress_func self) (_chunk_size self) (_pos self)
     v (_buffer_pos self) (_eof self).
Definition set_buffer_pos (self : t) (v : Z) : t :=
  mk (_file_obj self) (_decompress_func self) (_chunk_size self) (_pos self)
     (_buffer self) v (_eof self).
Definition set_eof (self : t) (v : bool) : t :=
  mk (_file_obj self) (_decompress_func self) (_chunk_size self) (_pos self)
     (_buffer self) (_buffer_pos self) v.

(** [chunk_size] is used when it is true as a Python value, that is when
    it is neither [None] nor zero. *)
Definition __init__ (file_obj : pyfile)
    (decompress_func : option decompress_func) (chunk_size : option Z) : t :=
  {| _file_obj := file_obj;
     _decompress_func := decompress_func;
     _chunk_size := match chunk_size with
                    | Some c => if c =? 0 then 128 * 1024 else c
                    | None => 128 * 1024
                    end;
     _pos := 0;
     _buffer := [];
     _buffer_pos := 0;
     _eof := false |}.

Definition tell (self : t) : Z := _pos self.

Definition _read_from_buffer (self : t) (length : Z) : bytes * t :=
  let buffer_len := len (_buffer self) in
  if buffer_len - _buffer_pos self >? length then
    let data :=
      slice (_buffer self) (_buffer_pos self) (_buffer_pos self + length) in
    (data, set_buffer_pos self (_buffer_pos self + length))
  else
    let data := slice_from (_buffer self) (_buffer_pos self) in
    (data, set_buffer_pos (set_buffer self []) 0).

(** The [while size > 0] loop of [read].  An iteration either leaves the
    loop or has taken at least one byte from the raw file, so one more
    iteration than there are raw bytes left is always enough; [fuel] is that
    bound. *)
Fixpoint read_loop (fuel : nat) (self : t) (data : bytes) (size : Z)
  : outcome (bytes * t) :=
  if size >? 0 then
    match fuel with
    | O => OutOfFuel
    | S fuel' =>
        '(buf, file_obj) <- read (_file_obj self) (_chunk_size self) ;;
        let self := set_file_obj self file_obj in
        if is_empty buf then Return (data, set_eof self true)
        else
          let rest (self : t) (buf : bytes) :=
            _ <- assert (len (_buffer self) =? 0) ;;
            _ <- assert (_buffer_pos self =? 0) ;;
            if len buf >=? size then
              let self := set_buffer self buf in
              let '(d, self) := _read_from_buffer self size in
              read_loop fuel' self (data ++ d) (size - len buf)
            else
              read_loop fuel' self (data ++ buf) (size - len buf) in
          match _decompress_func self with
          | Some f =>
              let '(buf, f) := call f buf in
              let self := set_decompress_func self (Some f) in
              if is_empty buf then read_loop fuel' self data size
              else rest self buf
          | None => rest self buf
          end
    end
  else Return (data, self).

Definition read (self : t) (size : Z) : outcome (bytes * t) :=
  _ <- assert (_pos self >=? 0) ;;
  _ <- assert (_buffer_pos self >=? 0) ;;
  _ <- assert (_buffer_pos self <=? len (_buffer self)) ;;
  if _eof self then Return ([], self)
  else
    let '(data, self) := _read_from_buffer self size in
    let size := size - len data in
    '(data, self) <-
      read_loop (S (length (remaining (_file_obj self)))) self data size ;;
    Return (data, set_pos self (_pos self + len data)).

#[global] Instance CompressedFile_FileObj : FileObj t := read.

Definition seek (self : t) (offset whence : Z) : outcome t :=
  '(new_pos, self) <- _fake_seek_forward self (_pos self) offset whence ;;
  Return (set_pos self new_pos).

End WithDecompressor.
End CompressedFile.

(** ** The one-shot reference

    What decompressing a whole raw content at once means: cut the content
    into its successive chunks and run the decompress function over them,
    concatenating what it gives. *)

Definition ztake (n : Z) (l : bytes) : bytes := firstn (Z.to_nat n) l.
Definition zdrop (n : Z) (l : bytes) : bytes := skipn (Z.to_nat n) l.

(** The next chunk of at most [cs] bytes (everything when [cs] is negative,
    as [read] does). *)
Definition next_chunk (cs : Z) (l : bytes) : bytes :=
  if cs <? 0 then l else ztake cs l.

Fixpoint chunks_of (fuel : nat) (cs : Z) (l : bytes) : list bytes :=
  match fuel with
  | O => []
  | S fuel' =>
      let c := next_chunk cs l in
      if is_empty c then [] else c :: chunks_of fuel' cs (skipn (length c) l)
  end.

Definition raw_chunks (cs : Z) (l : bytes) : list bytes :=
  chunks_of (length l) cs l.

Fixpoint decompress_chunks {D} (f : option (CompressedFile.decompress_func D))
    (chunks : list bytes) : bytes :=
  match chunks with
  | [] => []
  | c :: chunks' =>
      match f with
      | Some g =>
          let '(out, g') := CompressedFile.call g c in
          out ++ decompress_chunks (Some g') chunks'
      | None => c ++ decompress_chunks f chunks'
      end
  end.

Definition one_shot {D} (f : option (CompressedFile.decompress_func D))
    (cs : Z) (raw : bytes) : bytes :=
  decompress_chunks f (raw_chunks cs raw).


(** ** [TransRead] *)

Module TransRead.
Section WithLibraries.

(** The state of a decompressor object of [zlib] or [bz2]. *)
Variable D : Type.

(** The file-like object [tarfile] hands out for an archive member, with
    the [read], [seek] and [tell] the library gives it. *)
Variable T : Type.
Context {T_FileObj : FileObj T}.
Variable tar_seek : T -> Z -> Z -> outcome T.
Variable tar_tell : T -> Z.

(** [tarfile.open(fileobj = file_obj, mode = 'r|*')], then [tar.next()] and
    [tar.extractfile(member)]: the stream of the first member and
    [member.size], or the exception the library raises. *)
Variable tarfile_first_member : pyfile -> outcome (T * Z).

(** [zlib.decompressobj(wbits).decompress] and
    [bz2.BZ2Decompressor().decompress]. *)
Variable zlib_decompressobj : Z -> CompressedFile.decompress_func D.
Variable bz2_BZ2Decompressor : CompressedFile.decompress_func D.

Definition MAX_WBITS : Z := 15.

(** What [_transfile_obj] can be. *)
Inductive stream :=
| Plain (f : pyfile)
| Compressed (c : CompressedFile.t D)
| TarMember (m : T).

Definition stream_read (s : stream) (size : Z) : outcome (bytes * stream) :=
  match s with
  | Plain f => '(buf, f) <- read f size ;; Return (buf, Plain f)
  | Compressed c => '(buf, c) <- read c size ;; Return (buf, Compressed c)
  | TarMember m => '(buf, m) <- read m size ;; Return (buf, TarMember m)
  end.

#[global] Instance stream_FileObj : FileObj stream := stream_read.

(** [hasattr(obj, "seek")]; the objects that have [seek] have [tell] too. *)
Definition hasattr_seek (s : stream) : bool :=
  match s with
  | Plain f => f_has_seek f
  | Compressed _ => true
  | TarMember _ => true
  end.

Definition hasattr_tell (s : stream) : bool := hasattr_seek s.

(** [obj.seek(offset, whence)] and [obj.tell()], the object's own methods. *)
Definition stream_seek (s : stream) (offset whence : Z) : outcome stream :=
  match s with
  | Plain f => f <- file_seek f offset whence ;; Return (Plain f)
  | Compressed c =>
      c <- CompressedFile.seek c offset whence ;; Return (Compressed c)
  | TarMember m => m <- tar_seek m offset whence ;; Return (TarMember m)
  end.

Definition stream_tell (s : stream) : Z :=
  match s with
  | Plain f => file_tell f
  | Compressed c => CompressedFile.tell c
  | TarMember m => tar_tell m
  end.

(** The attributes of a reader.  [_file_obj] and [_child_process] are only
    kept to be closed and are left out. *)
Record t := mk {
  name : string;
  size : option Z;
  is_compressed : bool;
  is_url : bool;
  _transfile_obj : stream;
  _force_fake_seek : bool;
  _pos : Z }.

Definition set_transfile_obj (self : t) (v : stream) : t :=
  mk (name self) (size self) (is_compressed self) (is_url self) v
     (_force_fake_seek self) (_pos self).
Definition set_pos (self : t) (v : Z) : t :=
  mk (name self) (size self) (is_compressed self) (is_url self)
     (_transfile_obj self) (_force_fake_seek self) v.

(** [try: ... except IOError as err: ...] *)
Definition except_IOError {A} (body : outcome A)
    (handler : string -> outcome A) : outcome A :=
  match body with
  | Raise (IOError err) => handler err
  | _ => body
  end.

(** [os.fstat(file_obj.fileno()).st_size] *)
Definition st_size (file_obj : pyfile) : Z := len (f_data file_obj).

(** [_open_compressed_file], as a function of the attributes the
    constructor has set by the time it calls the method: [name], [is_url],
    [_force_fake_seek] and the opened [_file_obj].  [size] is [None],
    [is_compressed] is [True] and [_pos] is [0] until the method changes
    them. *)
Definition _open_compressed_file (name : string) (is_url : bool)
    (_force_fake_seek : bool) (_file_obj : pyfile) : outcome t :=
  except_IOError
    (if endswith name ".tar.gz" || endswith name ".tar.bz2"
        || endswith name ".tgz" then
       '(member_stream, member_size) <- tarfile_first_member _file_obj ;;
       Return (mk name (Some member_size) true is_url
                  (TarMember member_stream) _force_fake_seek 0)
     else if endswith name ".gz" then
       let decompressor := zlib_decompressobj (16 + MAX_WBITS) in
       Return (mk name None true is_url
                  (Compressed
                     (CompressedFile.__init__ _file_obj (Some decompressor)
                        None))
                  _force_fake_seek 0)
     else if endswith name ".bz2" then
       Return (mk name None true is_url
                  (Compressed
                     (CompressedFile.__init__ _file_obj
                        (Some bz2_BZ2Decompressor) (Some 128)))
                  _force_fake_seek 0)
     else
       Return (mk name (if negb is_url then Some (st_size _file_obj) else None)
                  false is_url (Plain _file_obj) _force_fake_seek 0))
    (fun err => Raise (Error (CannotOpenFile name err))).

(** [read(size = -1)] *)
Definition read (self : t) (size : Z) : outcome (bytes * t) :=
  let size := if size <? 0 then 0xFFFFFFFFFFFFFFFF else size in
  '(buf, obj) <- read (_transfile_obj self) size ;;
  let self := set_transfile_obj self obj in
  Return (buf, set_pos self (_pos self + len buf)).

Definition seek (self : t) (offset whence : Z) : outcome t :=
  if _force_fake_seek self || negb (hasattr_seek (_transfile_obj self)) then
    '(pos, obj) <-
      _fake_seek_forward (_transfile_obj self) (_pos self) offset whence ;;
    Return (set_pos (set_transfile_obj self obj) pos)
  else
    obj <- stream_seek (_transfile_obj self) offset whence ;;
    Return (set_transfile_obj self obj).

Definition tell (self : t) : Z :=
  if _force_fake_seek self || negb (hasattr_tell (_transfile_obj self)) then
    _pos self
  else stream_tell (_transfile_obj self).

End WithLibraries.

Arguments Plain {D T} f.
Arguments Compressed {D T} c.
Arguments TarMember {D T} m.

End TransRead.

(** ** Views and invariants of the proofs *)

Section CompressedFileViews.
Import CompressedFile.
Context {D : Type}.

(** What a [_CompressedFile] has not read from its raw file yet, decompressed
    in one shot. *)
Definition cf_rest (c : t D) : bytes :=
  one_shot (_decompress_func c) (_chunk_size c) (remaining (_file_obj c)).

(** The logical stream that is left: the unread part of the buffer, then
    the rest. *)
Definition cf_logical (c : t D) : bytes :=
  zdrop (_buffer_pos c) (_buffer c) ++ cf_rest c.

(** The states a [_CompressedFile] is in between two calls: the three
    assertions [read] starts with hold, and once the end-of-stream flag is up
    the buffer is empty and the raw file has no chunk left. *)
Definition cf_wf (c : t D) : Prop :=
  0 <= _pos c /\
  0 <= _buffer_pos c <= len (_buffer c) /\
  (_eof c = true ->
   _buffer c = [] /\ next_chunk (_chunk_size c) (remaining (_file_obj c)) = []).

End CompressedFileViews.

(** ** Sequences of calls

    A caller's use of an object is a list of calls.  Running it gives, with
    the final object, what each call did: the bytes a [read] returned, or
    the number of bytes a [seek] made [_fake_seek_forward] discard. *)

Inductive op :=
| Read (size : Z)
| Seek (offset whence : Z).

Inductive event :=
| Got (buf : bytes)
| Discarded (count : Z).

Definition bytes_returned (log : list event) : Z :=
  fold_right (fun e acc => match e with Got buf => len buf + acc | _ => acc end)
    0 log.

Definition bytes_discarded (log : list event) : Z :=
  fold_right (fun e acc => match e with Discarded n => n + acc | _ => acc end)
    0 log.

Section Runs.
Variable O : Type.
Variable o_read : O -> Z -> outcome (bytes * O).
Variable o_seek : O -> Z -> Z -> outcome O.
Variable o_discards : O -> Z -> Z -> Z.

Fixpoint run (ops : list op) (o : O) : outcome (list event * O) :=
  match ops with
  | [] => Return ([], o)
  | Read size :: ops' =>
      '(buf, o1) <- o_read o size ;;
      '(log, o2) <- run ops' o1 ;;
      Return (Got buf :: log, o2)
  | Seek offset whence :: ops' =>
      o1 <- o_seek o offset whence ;;
      '(log, o2) <- run ops' o1 ;;
      Return (Discarded (o_discards o offset whence) :: log, o2)
  end.

End Runs.

(** The bytes a call [_fake_seek_forward(file_obj, cur_pos, offset, whence)]
    reads and drops. *)
Definition fake_seek_discards {F : Type} `{FileObj F} (file_obj : F)
    (cur_pos offset whence : Z) : Z :=
  let new_pos := if whence =? SEEK_SET then offset else cur_pos + offset in
  total_len (seek_trace (Z.to_nat (new_pos - cur_pos)) file_obj
               (new_pos - cur_pos)).

(** Calls on a [_CompressedFile]: its [seek] always emulates. *)
Definition cf_discards {D : Type} (c : CompressedFile.t D)
    (offset whence : Z) : Z :=
  fake_seek_discards c (CompressedFile._pos c) offset whence.

Definition cf_run {D : Type} :=
  run (@CompressedFile.read D) (@CompressedFile.seek D) (@cf_discards D).

Section TransReadViews.
Import TransRead.
Context {D T : Type}.

(** The streams the proofs speak about: files and [_CompressedFile]s.  What
    a member stream of [tarfile] does is the library's business. *)
Definition stream_wf (s : stream D T) : Prop :=
  match s with
  | Plain _ => True
  | Compressed c => cf_wf c
  | TarMember _ => False
  end.

Definition stream_content (s : stream D T) : bytes :=
  match s with
  | Plain f => remaining f
  | Compressed c => cf_logical c
  | TarMember _ => []
  end.

(** A reader nobody has read from or moved yet. *)
Definition at_start (r : t D T) : Prop :=
  _pos r = 0 /\
  match _transfile_obj r with
  | Plain f => f_off f = O
  | Compressed c => cf_wf c /\ CompressedFile._pos c = 0
  | TarMember _ => False
  end.

(** The seeks of a reader that go through [_fake_seek_forward]: its own
    emulation, or the [seek] of a [_CompressedFile]. *)
Definition seek_is_emulated (r : t D T) : Prop :=
  _force_fake_seek r || negb (hasattr_seek (_transfile_obj r)) = true \/
  exists c, _transfile_obj r = Compressed c.

Context {T_FileObj : FileObj T}.
Variable tar_seek : T -> Z -> Z -> outcome T.

(** The bytes discarded by the emulation that [TransRead.seek] runs
    itself. *)
Definition own_discards (r : t D T) (offset whence : Z) : Z :=
  if _force_fake_seek r || negb (hasattr_seek (_transfile_obj r)) then
    fake_seek_discards (_transfile_obj r) (_pos r) offset whence
  else 0.

(** The bytes discarded by any emulation a [TransRead.seek] sets off: its
    own, or that of the [_CompressedFile] it hands the seek to. *)
Definition all_discards (r : t D T) (offset whence : Z) : Z :=
  if _force_fake_seek r || negb (hasattr_seek (_transfile_obj r)) then
    fake_seek_discards (_transfile_obj r) (_pos r) offset whence
  else
    match _transfile_obj r with
    | Compressed c => cf_discards c offset whence
    | _ => 0
    end.

Definition tr_run := run (@read D T T_FileObj) (seek tar_seek).

End TransReadViews.

(** ** Sample objects *)

(** A toy decompressor with a state: a run-length decoder.  The input is
    pairs of a count (an ASCII digit) and a byte; a pair may be cut by a chunk
    boundary, so the decoder remembers a count it has not used yet. *)
Definition rle_byte (pending : option nat) (b : byte)
  : bytes * option nat :=
  match pending with
  | None => ([], Some (Byte.to_nat b - 48)%nat)
  | Some count => (repeat b count, None)
  end.

Fixpoint rle_decompress (pending : option nat) (buf : bytes)
  : bytes * option nat :=
  match buf with
  | [] => ([], pending)
  | b :: buf' =>
      let '(out1, pending) := rle_byte pending b in
      let '(out2, pending) := rle_decompress pending buf' in
      (out1 ++ out2, pending)
  end.

Definition rle : CompressedFile.decompress_func (option nat) :=
  {| CompressedFile.d_self := None;
     CompressedFile.d_decompress := rle_decompress |}.

(** A file-like object that breaks the usual contract of [read]: it gives
    all it has at once, whatever size was asked for. *)
Record greedy := Build_greedy { g_data : bytes }.

#[global] Instance greedy_FileObj : FileObj greedy :=
  fun g _ => Return (g_data g, Build_greedy []).

(** "aaaccd", run-length encoded. *)
Definition encoded : pyfile :=
  mk_pyfile (list_byte_of_string "3a0b2c1d") 0 true.

(** No tar archive around: the type of member streams is empty. *)
Definition no_member_read : FileObj Empty_set :=
  fun m _ => match m with end.
Definition no_member_seek (m : Empty_set) (offset whence : Z)
  : outcome Empty_set := match m with end.
Definition no_member_tell (m : Empty_set) : Z := match m with end.

(** A ten-byte file, as a local file opened at its start. *)
Definition digits : pyfile :=
  mk_pyfile (list_byte_of_string "0123456789") 0 true.

Definition sample_open (name : string) (is_url force : bool)
    (file_obj : pyfile) : outcome (TransRead.t (option nat) Empty_set) :=
  TransRead._open_compressed_file
    (fun _ => Raise (OtherException "tarfile.ReadError"
                       "file could not be opened successfully"))
    (fun _ => rle) rle name is_url force file_obj.

Definition sample_read := @TransRead.read (option nat) Empty_set no_member_read.
Definition sample_seek :=
  @TransRead.seek (option nat) Empty_set no_member_read no_member_seek.
Definition sample_tell := @TransRead.tell (option nat) Empty_set no_member_tell.

(** The readers [_open_compressed_file] makes for a local file
    ["image.raw"] holding the ten digits and for a local file ["image.gz"]
    holding the run-length encoded sample. *)
Definition raw_reader : TransRead.t (option nat) Empty_set :=
  TransRead.mk "image.raw" (Some 10) false false (TransRead.Plain digits)
    false 0.

Definition gz_reader : TransRead.t (option nat) Empty_set :=
  TransRead.mk "image.gz" None true false
    (TransRead.Compressed
       (CompressedFile.__init__ encoded (Some rle) None))
    false 0.

(** [gz_reader] after [seek(3)]. *)
Definition gz_reader_at_3 : TransRead.t (option nat) Empty_set :=
  match sample_seek gz_reader 3 SEEK_SET with
  | Return r => r
  | _ => gz_reader
  end.

(** The reader for the same compressed file behind [ssh://]: a pipe, with
    seeking always emulated by the reader. *)
Definition ssh_gz_reader : TransRead.t (option nat) Empty_set :=
  TransRead.mk "ssh://host/image.gz" None true true
    (TransRead.Compressed
       (CompressedFile.__init__ encoded (Some rle) None))
    true 0.


(** ** The rest of the module *)

(** *** [_decode_sshpass_exit_code] *)

Definition _decode_sshpass_exit_code (code : Z) : string :=
  if code =? 1 then "invalid command line argument"
  else if code =? 2 then "conflicting arguments given"
  else if code =? 3 then "general run-time error"
  else if code =? 4 then "unrecognized response from ssh (parse error)"
  else if code =? 5 then "invalid/incorrect password"
  else if code =? 6 then
    "host public key is unknown. sshpass exits without confirming the new key"
  else if code =? 255 then "ssh error"
  else "unknown".

(** *** The constructor of [TransRead], [_create_local_copy] and
    [__getattr__]

    What the operating system and the network answer is given from outside:
    whether [open] finds the local file, what [_open_url] comes back with, and
    whether the temporary file can be created and opened again. *)

Module TransReadLocal.
Section WithEnvironment.
Import TransRead.

Variable D T : Type.
Context {T_FileObj : FileObj T}.
Variable tarfile_first_member : pyfile -> outcome (T * Z).
Variable zlib_decompressobj : Z -> CompressedFile.decompress_func D.
Variable bz2_BZ2Decompressor : CompressedFile.decompress_func D.

(** [open(self.name, "rb")]: the file, or an [IOError] whose [errno] is
    [ENOENT], or another [IOError]. *)
Inductive local_open :=
| OpenedFile (file_obj : pyfile)
| NoSuchFile
| OpenFailed (err : string).

(** [_open_url(filepath)]: it sets [_file_obj] and [is_url], and
    [_force_fake_seek] for [ssh://], or raises the module's [Error] with a
    text of its own. *)
Inductive url_open :=
| UrlOpened (file_obj : pyfile) (force_fake_seek : bool)
| UrlFailed (text : string).

Variable open_rb : string -> local_open.
Variable _open_url : string -> url_open.

(** [tempfile.NamedTemporaryFile("w+")] and [open(tmp_file_obj.name, "rb")]:
    [None] when they succeed, the [IOError] otherwise. *)
Variable tmp_name : string.
Variable tmp_create_error : option string.
Variable tmp_open_error : option string.

(** The messages of the module's [Error] that these functions add. *)
Inductive local_message :=
| CannotCreateTemporaryFile (err : string)
    (* "cannot create a temporary file: %s" *)
| CannotOpenOwnTemporaryFile (name err : string)
    (* "cannot open own temporary file '%s': %s" *)
| UrlError (text : string).
    (* whatever [_open_url] raised *)

Inductive result :=
| Done (self : t D T)
| Raised (e : exn)
| RaisedError (m : local_message)
| NoResult.   (* the bound on the reads of the copy loop was too small *)

(** [fuel] bounds the iterations of [while True]. *)
Definition _create_local_copy (fuel : nat) (self : t D T) : result :=
  match tmp_create_error with
  | Some err => RaisedError (CannotCreateTemporaryFile err)
  | None =>
      match @read_until_empty (t D T) (@read D T T_FileObj) fuel self
              (1024 * 1024) with
      | Return (written, self) =>
          (* [tmp_file_obj.flush()], [self.close()] *)
          let self := mk (name self) (size self) false false
                        (_transfile_obj self) (_force_fake_seek self)
                        (_pos self) in
          match tmp_open_error with
          | Some err => RaisedError (CannotOpenOwnTemporaryFile tmp_name err)
          | None =>
              Done (set_transfile_obj self (Plain (mk_pyfile written 0 true)))
          end
      | Raise e => Raised e
      | OutOfFuel => NoResult
      end
  end.

Definition __init__ (fuel : nat) (filepath : string) (local : bool)
  : result :=
  match
    match open_rb filepath with
    | OpenedFile file_obj => inr (file_obj, false, false)
    | NoSuchFile =>
        (* This is probably an URL *)
        match _open_url filepath with
        | UrlOpened file_obj force => inr (file_obj, true, force)
        | UrlFailed text => inl (RaisedError (UrlError text))
        end
    | OpenFailed err => inl (Raised (Error (CannotOpenFile filepath err)))
    end
  with
  | inl failure => failure
  | inr (file_obj, is_url, force) =>
      match _open_compressed_file tarfile_first_member zlib_decompressobj
              bz2_BZ2Decompressor filepath is_url force file_obj with
      | Return self =>
          if local then _create_local_copy fuel self else Done self
      | Raise e => Raised e
      | OutOfFuel => NoResult
      end
  end.

(** [getattr(obj, name)] on the active stream, with values in [A]. *)
Variable A : Type.
Variable getattr : stream D T -> string -> outcome A.

Definition __getattr__ (self : t D T) (name : string) : outcome A :=
  if negb (is_compressed self) && negb (is_url self) then
    getattr (_transfile_obj self) name
  else Raise (OtherException "AttributeError" "").

End WithEnvironment.

Arguments Done {D T} self.
Arguments Raised {D T} e.
Arguments RaisedError {D T} m.
Arguments NoResult {D T}.

End TransReadLocal.

(** What the [read] calls of a log returned, in order. *)
Definition received (log : list event) : bytes :=
  fold_right (fun e acc => match e with Got buf => buf ++ acc | _ => acc end)
    [] log.

(** A bound [B] on what the decompress function gives for a chunk of at
    most [cs] bytes (without a function the chunk comes out as it is). *)
Definition output_bound {D : Type}
    (f : option (CompressedFile.decompress_func D)) (cs B : Z) : Prop :=
  match f with
  | Some g =>
      forall (d : D) (chunk : bytes),
        len chunk <= cs ->
        len (fst (CompressedFile.d_decompress g d chunk)) <= B
  | None => cs <= B
  end.

(** The buffer of a [_CompressedFile] is within [B], and so will be what its
    decompress function gives for a chunk. *)
Definition buffer_within {D : Type} (B : Z) (self : CompressedFile.t D)
  : Prop :=
  len (CompressedFile._buffer self) <= B /\
  0 < CompressedFile._chunk_size self /\
  output_bound (CompressedFile._decompress_func self)
    (CompressedFile._chunk_size self) B.

Section TellView.
Import TransRead.
Context {D T : Type}.

(** A stream of the kind [h] (it has [seek] or not) which, when it is a
    file, holds [whole]. *)
Definition same_kind (h : bool) (whole : bytes) (s : stream D T) : Prop :=
  stream_wf s /\ hasattr_seek s = h /\
  match s with Plain f => f_data f = whole | _ => True end.

Variable tar_tell : T -> Z.

(** The reader is at the offset [tell()] reports in the content [whole]:
    what its stream still holds is [whole] from that offset on. *)
Definition tell_in (whole : bytes) (r : t D T) : Prop :=
  stream_wf (_transfile_obj r) /\
  0 <= tell tar_tell r /\
  stream_content (_transfile_obj r) = zdrop (tell tar_tell r) whole /\
  match _transfile_obj r with
  | Plain f => f_data f = whole
  | _ => True
  end.

End TellView.

(** ** Sample environment for the constructor

    Two local files, no network, and a temporary file that can always be
    created. *)

Definition sample_open_rb (path : string) : TransReadLocal.local_open :=
  if String.eqb path "image.gz" then TransReadLocal.OpenedFile encoded
  else if String.eqb path "image.raw" then TransReadLocal.OpenedFile digits
  else TransReadLocal.NoSuchFile.

Definition sample_open_url (url : string) : TransReadLocal.url_open :=
  TransReadLocal.UrlFailed "cannot open URL".

Definition sample_copy :=
  @TransReadLocal._create_local_copy (option nat) Empty_set no_member_read
    "/tmp/tmpimage".

Definition sample_init :=
  @TransReadLocal.__init__ (option nat) Empty_set no_member_read
    (fun _ : pyfile =>
       Raise
         (OtherException "tarfile.ReadError"
            "file could not be opened successfully"))
    (fun _ : Z => rle) rle sample_open_rb sample_open_url "/tmp/tmpimage"
    None None.

(** The one attribute the sample objects answer to. *)
Definition sample_getattr (s : TransRead.stream (option nat) Empty_set)
    (attr : string) : outcome bool :=
  if String.eqb attr "seekable" then Return (TransRead.hasattr_seek s)
  else Raise (OtherException "AttributeError" attr).

(** The local copies of [gz_reader] and [ssh_gz_reader]. *)
Definition gz_local_copy : TransRead.t (option nat) Empty_set :=
  TransRead.mk "image.gz" None false false
    (TransRead.Plain (mk_pyfile (list_byte_of_string "aaaccd") 0 true))
    false 6.

Definition ssh_gz_local_copy : TransRead.t (option nat) Empty_set :=
  TransRead.mk "ssh://host/image.gz" None false false
    (TransRead.Plain (mk_pyfile (list_byte_of_string "aaaccd") 0 true))
    true 6.

(** A remote source: the standard output of [ssh ... cat], which has no
    [seek]. *)
Definition ssh_pipe : pyfile := mk_pyfile (f_data encoded) 0 false.

Definition sample_open_ssh (url : string) : TransReadLocal.url_open :=
  if String.eqb url "ssh://host/image.gz" then
    TransReadLocal.UrlOpened ssh_pipe true
  else TransReadLocal.UrlFailed "cannot open URL".

Definition sample_init_remote :=
  @TransReadLocal.__init__ (option nat) Empty_set no_member_read
    (fun _ : pyfile =>
       Raise
         (OtherException "tarfile.ReadError"
            "file could not be opened successfully"))
    (fun _ : Z => rle) rle sample_open_rb sample_open_ssh "/tmp/tmpimage"
    None None.

(** ** [_CompressedFile] with a decompress function that can raise

    [zlib]'s and [bz2]'s [decompress] raise on data they cannot decode, and
    the exception leaves [read].  [CompressedFile] above is the class with a
    function that always returns; here the call can raise, and the rest of
    the class is the same code. *)

Module RaisingCompressedFile.
Section WithDecompressor.

Variable D : Type.

(** A bound method [decompressor.decompress]: for a state and a chunk it
    raises, or returns the output and the next state. *)
Record decompress_func := mk_decompress_func {
  d_self : D;
  d_decompress : D -> bytes -> exn + bytes * D }.

Definition call (f : decompress_func) (buf : bytes)
  : outcome (bytes * decompress_func) :=
  match d_decompress f (d_self f) buf with
  | inl e => Raise e
  | inr (out, d) =>
      Return (out, {| d_self := d; d_decompress := d_decompress f |})
  end.

Record t := mk {
  _file_obj : pyfile;
  _decompress_func : option decompress_func;
  _chunk_size : Z;
  _pos : Z;
  _buffer : bytes;
  _buffer_pos : Z;
  _eof : bool }.

Definition set_file_obj (self : t) (v : pyfile) : t :=
  mk v (_decompress_func self) (_chunk_size self) (_pos self)
     (_buffer self) (_buffer_pos self) (_eof self).
Definition set_decompress_func (self : t) (v : option decompress_func) : t :=
  mk (_file_obj self) v (_chunk_size self) (_pos self)
     (_buffer self) (_buffer_pos self) (_eof self).
Definition set_pos (self : t) (v : Z) : t :=
  mk (_file_obj self) (_decompress_func self) (_chunk_size self) v
     (_buffer self) (_buffer_pos self) (_eof self).
Definition set_buffer (self : t) (v : bytes) : t :=
  mk (_file_obj self) (_decompress_func self) (_chunk_size self) (_pos self)
     v (_buffer_pos self) (_eof self).
Definition set_buffer_pos (self : t) (v : Z) : t :=
  mk (_file_obj self) (_decompress_func self) (_chunk_size self) (_pos self)
     (_buffer self) v (_eof self).
Definition set_eof (self : t) (v : bool) : t :=
  mk (_file_obj self) (_decompress_func self) (_chunk_size self) (_pos self)
     (_buffer self) (_buffer_pos self) v.

Definition __init__ (file_obj : pyfile)
    (decompress_func : option decompress_func) (chunk_size : option Z) : t :=
  {| _file_obj := file_obj;
     _decompress_func := decompress_func;
     _chunk_size := match chunk_size with
                    | Some c => if c =? 0 then 128 * 1024 else c
                    | None => 128 * 1024
                    end;
     _pos := 0;
     _buffer := [];
     _buffer_pos := 0;
     _eof := false |}.

Definition _read_from_buffer (self : t) (length : Z) : bytes * t :=
  let buffer_len := len (_buffer self) in
  if buffer_len - _buffer_pos self >? length then
    let data :=
      slice (_buffer self) (_buffer_pos self) (_buffer_pos self + length) in
    (data, set_buffer_pos self (_buffer_pos self + length))
  else
    let data := slice_from (_buffer self) (_buffer_pos self) in
    (data, set_buffer_pos (set_buffer self []) 0).

(** The [while size > 0] loop of [read]; [fuel] bounds its iterations as
    in [CompressedFile.read_loop]. *)
Fixpoint read_loop (fuel : nat) (self : t) (data : bytes) (size : Z)
  : outcome (bytes * t) :=
  if size >? 0 then
    match fuel with
    | O => OutOfFuel
    | S fuel' =>
        '(buf, file_obj) <- read (_file_obj self) (_chunk_size self) ;;
        let self := set_file_obj self file_obj in
        if is_empty buf then Return (data, set_eof self true)
        else
          let rest (self : t) (buf : bytes) :=
            _ <- assert (len (_buffer self) =? 0) ;;
            _ <- assert (_buffer_pos self =? 0) ;;
            if len buf >=? size then
              let self := set_buffer self buf in
              let '(d, self) := _read_from_buffer self size in
              read_loop fuel' self (data ++ d) (size - len buf)
            else
              read_loop fuel' self (data ++ buf) (size - len buf) in
          match _decompress_func self with
          | Some f =>
              '(buf, f) <- call f buf ;;
              let self := set_decompress_func self (Some f) in
              if is_empty buf then read_loop fuel' self data size
              else rest self buf
          | None => rest self buf
          end
    end
  else Return (data, self).

Definition read (self : t) (size : Z) : outcome (bytes * t) :=
  _ <- assert (_pos self >=? 0) ;;
  _ <- assert (_buffer_pos self >=? 0) ;;
  _ <- assert (_buffer_pos self <=? len (_buffer self)) ;;
  if _eof self then Return ([], self)
  else
    let '(data, self) := _read_from_buffer self size in
    let size := size - len data in
    '(data, self) <-
      read_loop (S (length (remaining (_file_obj self)))) self data size ;;
    Return (data, set_pos self (_pos self + len data)).

End WithDecompressor.
End RaisingCompressedFile.

(** [read] only moves the raw file forward: [f'] is [f] at the same or a
    later offset. *)
Definition raw_moved_on (f f' : pyfile) : Prop :=
  f_data f' = f_data f /\ f_has_seek f' = f_has_seek f /\
  (f_off f <= f_off f')%nat.

(** *** The two classes side by side *)

Section Returning.
Context {D : Type}.

(** The function that returns what [f] returns, and nothing, with the state
    as it was, for a chunk on which [f] raises. *)
Definition returning (f : RaisingCompressedFile.decompress_func D)
  : CompressedFile.decompress_func D :=
  {| CompressedFile.d_self := RaisingCompressedFile.d_self f;
     CompressedFile.d_decompress :=
       fun d buf =>
         match RaisingCompressedFile.d_decompress f d buf with
         | inr r => r
         | inl _ => ([], d)
         end |}.

(** The same object with [returning] for its decompress function. *)
Definition as_returning (self : RaisingCompressedFile.t D)
  : CompressedFile.t D :=
  CompressedFile.mk
    (RaisingCompressedFile._file_obj self)
    (option_map returning (RaisingCompressedFile._decompress_func self))
    (RaisingCompressedFile._chunk_size self)
    (RaisingCompressedFile._pos self)
    (RaisingCompressedFile._buffer self)
    (RaisingCompressedFile._buffer_pos self)
    (RaisingCompressedFile._eof self).

(** The states between two calls, as [cf_wf]; the constructor replaces a
    chunk size of zero. *)
Definition rcf_wf (self : RaisingCompressedFile.t D) : Prop :=
  0 <= RaisingCompressedFile._pos self /\
  0 <= RaisingCompressedFile._buffer_pos self
    <= len (RaisingCompressedFile._buffer self) /\
  (RaisingCompressedFile._eof self = true ->
   RaisingCompressedFile._buffer self = [] /\
   next_chunk (RaisingCompressedFile._chunk_size self)
     (remaining (RaisingCompressedFile._file_obj self)) = []) /\
  RaisingCompressedFile._chunk_size self <> 0.

(** The decompress function run over successive chunks from the state
    [st]: the first exception it raises, if it raises on a chunk, and what it
    has given before that chunk. *)
Fixpoint first_error (dec : D -> bytes -> exn + bytes * D) (st : D)
    (chunks : list bytes) : option exn :=
  match chunks with
  | [] => None
  | c :: chunks' =>
      match dec st c with
      | inl e => Some e
      | inr (_, st') => first_error dec st' chunks'
      end
  end.

Fixpoint output_before_error (dec : D -> bytes -> exn + bytes * D) (st : D)
    (chunks : list bytes) : bytes :=
  match chunks with
  | [] => []
  | c :: chunks' =>
      match dec st c with
      | inl _ => []
      | inr (out, st') => out ++ output_before_error dec st' chunks'
      end
  end.

(** The exception that waits in what the raw file still holds: the first
    one the decompress function of the object raises on the raw chunks
    left, taken in order. *)
Definition raw_error (self : RaisingCompressedFile.t D) : option exn :=
  match RaisingCompressedFile._decompress_func self with
  | Some f =>
      first_error (RaisingCompressedFile.d_decompress f)
        (RaisingCompressedFile.d_self f)
        (raw_chunks (RaisingCompressedFile._chunk_size self)
           (remaining (RaisingCompressedFile._file_obj self)))
  | None => None
  end.

(** What the raw file still holds, decompressed chunk by chunk as far as
    the decompress function takes it. *)
Definition rcf_rest (self : RaisingCompressedFile.t D) : bytes :=
  match RaisingCompressedFile._decompress_func self with
  | Some f =>
      output_before_error (RaisingCompressedFile.d_decompress f)
        (RaisingCompressedFile.d_self f)
        (raw_chunks (RaisingCompressedFile._chunk_size self)
           (remaining (RaisingCompressedFile._file_obj self)))
  | None =>
      one_shot (@None (CompressedFile.decompress_func D))
        (RaisingCompressedFile._chunk_size self)
        (remaining (RaisingCompressedFile._file_obj self))
  end.

(** The logical stream that can still be read: the unread part of the
    buffer, then [rcf_rest]. *)
Definition rcf_logical (self : RaisingCompressedFile.t D) : bytes :=
  zdrop (RaisingCompressedFile._buffer_pos self)
    (RaisingCompressedFile._buffer self) ++ rcf_rest self.

(** How a result [r] of [RaisingCompressedFile.read_loop] or [read] for
    [size] bytes stands to the result [c] of the same call on
    [as_returning], when [err] is the exception that waits in the raw file
    and [avail] bytes can be had before it.  A call that returns is the same
    call, and had no need to go as far as the exception; a call that raises
    raises that exception, for want of bytes before it. *)
Definition read_agrees (err : option exn) (avail size : Z)
    (r : outcome (bytes * RaisingCompressedFile.t D))
    (c : outcome (bytes * CompressedFile.t D)) : Prop :=
  match r with
  | Return (d, s) =>
      c = Return (d, as_returning s) /\ (err = None \/ size <= avail)
  | Raise e => (err = Some e /\ avail < size) \/ c = Raise e
  | OutOfFuel => c = OutOfFuel
  end.

End Returning.

(** A run-length decoder that checks its input, as a real decompressor
    does: a count that is not an ASCII digit is an error. *)
Definition rle_checked_byte (pending : option nat) (b : byte)
  : exn + bytes * option nat :=
  match pending with
  | None =>
      if ((48 <=? Byte.to_nat b) && (Byte.to_nat b <=? 57))%nat then
        inr ([], Some (Byte.to_nat b - 48)%nat)
      else inl (OtherException "zlib.error" "Error -3 while decompressing")
  | Some count => inr (repeat b count, None)
  end.

Fixpoint rle_checked_decompress (pending : option nat) (buf : bytes)
  : exn + bytes * option nat :=
  match buf with
  | [] => inr ([], pending)
  | b :: buf' =>
      match rle_checked_byte pending b with
      | inl e => inl e
      | inr (out1, pending) =>
          match rle_checked_decompress pending buf' with
          | inl e => inl e
          | inr (out2, pending) => inr (out1 ++ out2, pending)
          end
      end
  end.

Definition rle_checked : RaisingCompressedFile.decompress_func (option nat) :=
  {| RaisingCompressedFile.d_self := None;
     RaisingCompressedFile.d_decompress := rle_checked_decompress |}.

(** A file that starts as the encoded sample and goes on with bytes that
    are no run-length code. *)
Definition damaged : pyfile :=
  mk_pyfile (list_byte_of_string "3a0b??2c") 0 true.

(** ** The streams of a reader at the end of their data *)


Section EndOfData.
Import TransRead.
Context {D T : Type} {T_FileObj : FileObj T}.



End EndOfData.


(** * Proofs *)

Unset Implicit Arguments.

(** ** Lists, slices and chunks *)

Lemma len_nonneg (s : bytes) : 0 <= len s.
Proof. unfold len. lia. Qed.

Lemma len_app (a b : bytes) : len (a ++ b) = len a + len b.
Proof. unfold len. rewrite length_app. lia. Qed.

Lemma len_nil : len [] = 0.
Proof. reflexivity. Qed.

Lemma is_empty_true (s : bytes) : is_empty s = true <-> s = [].
Proof. destruct s; simpl; split; congruence. Qed.

Lemma is_empty_false (s : bytes) : is_empty s = false <-> 0 < len s.
Proof.
  destruct s; unfold len; simpl; split; intros; try congruence; lia.
Qed.

Lemma is_empty_len (s : bytes) : is_empty s = (len s =? 0).
Proof. destruct s; reflexivity. Qed.

Lemma len_ztake (n : Z) (l : bytes) : len (ztake n l) = Z.min (Z.max 0 n) (len l).
Proof. unfold len, ztake. rewrite length_firstn. lia. Qed.

Lemma len_zdrop (n : Z) (l : bytes) : len (zdrop n l) = len l - Z.min (Z.max 0 n) (len l).
Proof. unfold len, zdrop. rewrite length_skipn. lia. Qed.

Lemma ztake_nonpos (n : Z) (l : bytes) : n <= 0 -> ztake n l = [].
Proof. intros. unfold ztake. replace (Z.to_nat n) with O by lia. reflexivity. Qed.

Lemma zdrop_nonpos (n : Z) (l : bytes) : n <= 0 -> zdrop n l = l.
Proof. intros. unfold zdrop. replace (Z.to_nat n) with O by lia. reflexivity. Qed.

Lemma ztake_nil (n : Z) : ztake n [] = [].
Proof. apply firstn_nil. Qed.

Lemma zdrop_nil (n : Z) : zdrop n [] = [].
Proof. apply skipn_nil. Qed.

Lemma ztake_all (n : Z) (l : bytes) : len l <= n -> ztake n l = l.
Proof. unfold len, ztake. intros. apply firstn_all2. lia. Qed.

Lemma zdrop_all (n : Z) (l : bytes) : len l <= n -> zdrop n l = [].
Proof. unfold len, zdrop. intros. apply skipn_all2. lia. Qed.

Lemma ztake_app_le (n : Z) (a b : bytes) :
  n <= len a -> ztake n (a ++ b) = ztake n a.
Proof.
  unfold len, ztake. intros. rewrite firstn_app.
  replace (Z.to_nat n - length a)%nat with O by lia.
  simpl. apply app_nil_r.
Qed.

Lemma ztake_app_ge (n : Z) (a b : bytes) :
  len a <= n -> ztake n (a ++ b) = a ++ ztake (n - len a) b.
Proof.
  unfold len, ztake. intros. rewrite firstn_app.
  rewrite firstn_all2 by lia. f_equal. f_equal. lia.
Qed.

Lemma zdrop_app_le (n : Z) (a b : bytes) :
  n <= len a -> zdrop n (a ++ b) = zdrop n a ++ b.
Proof.
  unfold len, zdrop. intros. rewrite skipn_app.
  replace (Z.to_nat n - length a)%nat with O by lia. reflexivity.
Qed.

Lemma zdrop_app_ge (n : Z) (a b : bytes) :
  len a <= n -> zdrop n (a ++ b) = zdrop (n - len a) b.
Proof.
  unfold len, zdrop. intros. rewrite skipn_app.
  rewrite skipn_all2 by lia. simpl. f_equal. lia.
Qed.

Lemma zdrop_zdrop (n m : Z) (l : bytes) :
  0 <= n -> 0 <= m -> zdrop n (zdrop m l) = zdrop (m + n) l.
Proof.
  unfold zdrop. intros. rewrite skipn_skipn. f_equal. lia.
Qed.

Lemma ztake_zdrop_split (n m : Z) (l : bytes) :
  0 <= n -> 0 <= m ->
  ztake (n + m) l = ztake n l ++ ztake m (zdrop n l).
Proof.
  unfold ztake, zdrop. intros.
  replace (Z.to_nat (n + m)) with (Z.to_nat n + Z.to_nat m)%nat by lia.
  revert l. induction (Z.to_nat n) as [|k IH]; intros l; simpl.
  - reflexivity.
  - destruct l as [|x l]; simpl.
    + now rewrite firstn_nil.
    + now rewrite IH.
Qed.

Lemma ztake_zdrop_id (n : Z) (l : bytes) : ztake n l ++ zdrop n l = l.
Proof. apply firstn_skipn. Qed.

Lemma slice_from_zdrop (s : bytes) (lo : Z) :
  0 <= lo <= len s -> slice_from s lo = zdrop lo s.
Proof.
  intros. unfold slice_from, slice_index, zdrop.
  destruct (Z.ltb_spec lo 0); [lia|]. f_equal. lia.
Qed.

Lemma slice_ztake (s : bytes) (lo n : Z) :
  0 <= lo -> 0 <= n -> lo + n <= len s ->
  slice s lo (lo + n) = ztake n (zdrop lo s).
Proof.
  intros. unfold slice, slice_index, ztake, zdrop.
  destruct (Z.ltb_spec lo 0); [lia|].
  destruct (Z.ltb_spec (lo + n) 0); [lia|].
  f_equal; f_equal; lia.
Qed.

(** ** Chunks of a raw content *)

Lemma next_chunk_nil (cs : Z) : next_chunk cs [] = [].
Proof. unfold next_chunk, ztake. destruct (cs <? 0); [reflexivity|apply firstn_nil]. Qed.

Lemma next_chunk_length (cs : Z) (l : bytes) :
  (length (next_chunk cs l) <= length l)%nat.
Proof.
  unfold next_chunk, ztake. destruct (cs <? 0); [lia|].
  rewrite length_firstn. lia.
Qed.

Lemma next_chunk_pos (cs : Z) (l : bytes) :
  0 < cs -> next_chunk cs l = ztake cs l.
Proof. intros. unfold next_chunk. destruct (Z.ltb_spec cs 0); [lia|reflexivity]. Qed.

Lemma chunks_of_fuel (cs : Z) (fuel1 fuel2 : nat) (l : bytes) :
  (length l <= fuel1)%nat -> (length l <= fuel2)%nat ->
  chunks_of fuel1 cs l = chunks_of fuel2 cs l.
Proof.
  revert fuel2 l. induction fuel1 as [|fuel1 IH]; intros fuel2 l H1 H2.
  - destruct l; [|simpl in H1; lia].
    destruct fuel2; simpl; [reflexivity|]. now rewrite next_chunk_nil.
  - destruct fuel2 as [|fuel2].
    + destruct l; [|simpl in H2; lia]. simpl. now rewrite next_chunk_nil.
    + simpl. destruct (is_empty (next_chunk cs l)) eqn:E; [reflexivity|].
      f_equal. apply is_empty_false in E. unfold len in E.
      pose proof (next_chunk_length cs l).
      apply IH; rewrite length_skipn; lia.
Qed.

Lemma raw_chunks_unfold (cs : Z) (l : bytes) :
  raw_chunks cs l =
  if is_empty (next_chunk cs l) then []
  else next_chunk cs l :: raw_chunks cs (skipn (length (next_chunk cs l)) l).
Proof.
  unfold raw_chunks. destruct l as [|x l].
  - simpl. now rewrite next_chunk_nil.
  - cbn [length chunks_of].
    destruct (is_empty (next_chunk cs (x :: l))) eqn:E; [reflexivity|].
    f_equal. apply is_empty_false in E. unfold len in E.
    pose proof (next_chunk_length cs (x :: l)) as Hl. cbn [length] in Hl.
    apply chunks_of_fuel; rewrite length_skipn; cbn [length]; lia.
Qed.

Lemma raw_chunks_nonempty (cs : Z) (l : bytes) :
  Forall (fun c => 0 < len c) (raw_chunks cs l).
Proof.
  unfold raw_chunks. generalize (length l) at 1. intros fuel. revert l.
  induction fuel as [|fuel IH]; intros l; simpl; [constructor|].
  destruct (is_empty (next_chunk cs l)) eqn:E; constructor.
  - now apply is_empty_false.
  - apply IH.
Qed.

(** ** Reading the raw file *)

Lemma file_read_chunk (f : pyfile) (n : Z) :
  exists f',
    read f n = Return (next_chunk n (remaining f), f') /\
    remaining f' = skipn (length (next_chunk n (remaining f))) (remaining f) /\
    f_data f' = f_data f /\ f_has_seek f' = f_has_seek f /\
    f_off f' = (f_off f + length (next_chunk n (remaining f)))%nat.
Proof.
  eexists. split; [reflexivity|]. cbn [f_data f_off f_has_seek].
  repeat split. unfold remaining at 1. cbn [f_data f_off].
  fold (next_chunk n (remaining f)).
  unfold remaining. rewrite skipn_skipn. f_equal. apply Nat.add_comm.
Qed.

(** ** [_CompressedFile.read] *)

Section CompressedFileRead.
Import CompressedFile.
Context {D : Type}.
Implicit Types (self : t D) (data : bytes) (size : Z).

Lemma cf_rest_unfold self :
  cf_rest self =
  let c := next_chunk (_chunk_size self) (remaining (_file_obj self)) in
  if is_empty c then []
  else
    let l' := skipn (length c) (remaining (_file_obj self)) in
    match _decompress_func self with
    | Some g =>
        let '(out, g') := call g c in
        out ++ one_shot (Some g') (_chunk_size self) l'
    | None => c ++ one_shot (@None (decompress_func D)) (_chunk_size self) l'
    end.
Proof.
  unfold cf_rest, one_shot. rewrite raw_chunks_unfold at 1. cbv zeta.
  destruct (is_empty _); [reflexivity|]. cbn [decompress_chunks].
  destruct (_decompress_func self); reflexivity.
Qed.

Lemma read_loop_done fuel self data size :
  size <= 0 -> read_loop fuel self data size = Return (data, self).
Proof.
  intros. destruct fuel; cbn [read_loop];
    destruct (Z.gtb_spec size 0); try lia; reflexivity.
Qed.

Lemma read_from_buffer_spec self n :
  0 <= _buffer_pos self <= len (_buffer self) -> 0 <= n ->
  let '(data, self') := _read_from_buffer self n in
  data = ztake n (zdrop (_buffer_pos self) (_buffer self)) /\
  zdrop (_buffer_pos self') (_buffer self') =
    zdrop n (zdrop (_buffer_pos self) (_buffer self)) /\
  0 <= _buffer_pos self' <= len (_buffer self') /\
  (n - len data > 0 -> _buffer self' = [] /\ _buffer_pos self' = 0) /\
  (_buffer self = [] -> _buffer self' = []) /\
  _file_obj self' = _file_obj self /\
  _decompress_func self' = _decompress_func self /\
  _chunk_size self' = _chunk_size self /\
  _pos self' = _pos self /\ _eof self' = _eof self.
Proof.
  intros Hb Hn. unfold _read_from_buffer.
  destruct (Z.gtb_spec (len (_buffer self) - _buffer_pos self) n) as [Hgt|Hle].
  - cbn [_buffer _buffer_pos set_buffer_pos _file_obj _decompress_func
           _chunk_size _pos _eof].
    rewrite slice_ztake by lia.
    repeat split; intros; auto; try lia.
    + rewrite zdrop_zdrop by lia. reflexivity.
    + exfalso. rewrite len_ztake, len_zdrop in *. lia.
    + exfalso. rewrite len_ztake, len_zdrop in *. lia.
  - cbn [_buffer _buffer_pos set_buffer_pos set_buffer _file_obj
           _decompress_func _chunk_size _pos _eof].
    rewrite slice_from_zdrop by lia.
    repeat split; intros; auto; try (rewrite len_nil; lia).
    + symmetry. apply ztake_all. rewrite len_zdrop. lia.
    + rewrite (zdrop_all n) by (rewrite len_zdrop; lia).
      unfold zdrop. now rewrite skipn_nil.
    + lia.
Qed.

Lemma read_loop_spec fuel : forall self data size,
  _buffer self = [] -> _buffer_pos self = 0 -> _eof self = false ->
  (length (remaining (_file_obj self)) < fuel)%nat ->
  exists self',
    read_loop fuel self data size =
      Return (data ++ ztake size (cf_rest self), self') /\
    cf_logical self' = zdrop size (cf_rest self) /\
    0 <= _buffer_pos self' <= len (_buffer self') /\
    (_eof self' = true ->
     _buffer self' = [] /\
     next_chunk (_chunk_size self') (remaining (_file_obj self')) = []) /\
    (len (cf_rest self) < size -> _eof self' = true) /\
    _pos self' = _pos self /\ _chunk_size self' = _chunk_size self.
Proof.
  induction fuel as [|fuel IH]; intros self data size Hbuf Hbp Heof Hfuel;
    [lia|].
  destruct (Z.gtb_spec size 0) as [Hsz|Hsz].
  2:{ rewrite read_loop_done by lia. exists self.
      rewrite ztake_nonpos, zdrop_nonpos, app_nil_r by lia.
      unfold cf_logical. rewrite Hbuf, Hbp.
      repeat split; intros; try reflexivity; try congruence;
        try (rewrite len_nil; lia);
        pose proof (len_nonneg (cf_rest self)); lia. }
  cbn [read_loop]. destruct (Z.gtb_spec size 0) as [_|]; [|lia].
  destruct (file_read_chunk (_file_obj self) (_chunk_size self))
    as (f' & Hr & Hrem & _).
  rewrite Hr. cbn [bind].
  rewrite cf_rest_unfold. cbv zeta.
  set (c := next_chunk (_chunk_size self) (remaining (_file_obj self))) in *.
  destruct (is_empty c) eqn:Ec.
  - (* the raw file is exhausted *)
    apply is_empty_true in Ec.
    rewrite ztake_nil, zdrop_nil, app_nil_r.
    eexists. split; [reflexivity|].
    assert (Hsame : remaining f' = remaining (_file_obj self))
      by (rewrite Hrem, Ec; reflexivity).
    assert (Hnc : next_chunk (_chunk_size self) (remaining f') = [])
      by (rewrite Hsame; exact Ec).
    unfold cf_logical, cf_rest, one_shot.
    cbn [set_eof set_file_obj _buffer _buffer_pos _eof _pos _chunk_size
           _file_obj _decompress_func].
    rewrite raw_chunks_unfold, Hnc, Hbuf, Hbp. cbn [is_empty decompress_chunks].
    repeat split; auto; try (rewrite len_nil; lia); lia.
  - pose proof Ec as Hc. apply is_empty_false in Hc.
    assert (Hlen : (length (remaining f') < fuel)%nat).
    { rewrite Hrem, length_skipn. unfold len in Hc.
      pose proof (next_chunk_length (_chunk_size self)
                    (remaining (_file_obj self))) as Hle.
      fold c in Hle. lia. }
    (* the part after decompression *)
    assert (Hrest : forall self1 out,
      _buffer self1 = [] -> _buffer_pos self1 = 0 -> _eof self1 = false ->
      _file_obj self1 = f' -> _pos self1 = _pos self ->
      _chunk_size self1 = _chunk_size self ->
      0 < len out ->
      exists self',
        (_ <- assert (len (_buffer self1) =? 0) ;;
         _ <- assert (_buffer_pos self1 =? 0) ;;
         if len out >=? size then
           let self2 := set_buffer self1 out in
           let '(d, self3) := _read_from_buffer self2 size in
           read_loop fuel self3 (data ++ d) (size - len out)
         else read_loop fuel self1 (data ++ out) (size - len out)) =
        Return (data ++ ztake size (out ++ cf_rest self1), self') /\
        cf_logical self' = zdrop size (out ++ cf_rest self1) /\
        0 <= _buffer_pos self' <= len (_buffer self') /\
        (_eof self' = true ->
         _buffer self' = [] /\
         next_chunk (_chunk_size self') (remaining (_file_obj self')) = []) /\
        (len (out ++ cf_rest self1) < size -> _eof self' = true) /\
        _pos self' = _pos self /\ _chunk_size self' = _chunk_size self).
    { intros self1 out B1 B2 B3 B4 B5 B6 Hout.
      rewrite B1, B2. cbn [len length Z.of_nat Z.eqb assert bind].
      destruct (Z.geb_spec (len out) size) as [Hge|Hlt].
      - cbv zeta.
        pose proof (read_from_buffer_spec (set_buffer self1 out) size) as Hb.
        cbn [set_buffer _buffer _buffer_pos] in Hb. rewrite B2 in Hb.
        specialize (Hb ltac:(pose proof (len_nonneg out); lia) ltac:(lia)).
        destruct (_read_from_buffer (set_buffer self1 out) size) as [d self3].
        cbn [_file_obj _decompress_func _chunk_size _pos _eof set_buffer] in Hb.
        destruct Hb as (Hd & Hz & Hbnd & _ & _ & Hf & Hdf & Hcs & Hp & He).
        rewrite (zdrop_nonpos 0 out) in Hd, Hz by lia.
        rewrite read_loop_done by lia. exists self3.
        rewrite ztake_app_le by lia. rewrite zdrop_app_le by lia.
        split; [now rewrite Hd|].
        split.
        { unfold cf_logical. rewrite Hz. f_equal.
          unfold cf_rest. now rewrite Hf, Hdf, Hcs. }
        split; [exact Hbnd|].
        split; [intros X; congruence|].
        split; [rewrite len_app; pose proof (len_nonneg (cf_rest self1)); lia|].
        split; congruence.
      - assert (Hf1 : (length (remaining (_file_obj self1)) < fuel)%nat)
          by now rewrite B4.
        destruct (IH self1 (data ++ out) (size - len out) B1 B2 B3 Hf1)
          as (self' & Hl & Hlog & Hbnd & He & Hshort & Hp & Hcs).
        exists self'. rewrite Hl.
        rewrite ztake_app_ge, zdrop_app_ge by lia.
        rewrite <- app_assoc.
        split; [reflexivity|].
        split; [exact Hlog|].
        split; [exact Hbnd|].
        split; [exact He|].
        split; [rewrite len_app; intros; apply Hshort; lia|].
        split; congruence. }
    cbn [set_file_obj _decompress_func].
    destruct (_decompress_func self) as [g|] eqn:Eg.
    + destruct (call g c) as [out g'] eqn:Ecall.
      match goal with |- context [set_decompress_func ?s ?v] =>
        set (self1 := set_decompress_func s v) end.
      assert (Hcr : cf_rest self1 =
                    one_shot (Some g') (_chunk_size self)
                      (skipn (length c) (remaining (_file_obj self)))).
      { unfold cf_rest. subst self1.
        cbn [_decompress_func _chunk_size _file_obj set_decompress_func
               set_file_obj].
        now rewrite Hrem. }
      rewrite <- Hcr.
      destruct (is_empty out) eqn:Eout.
      * (* nothing for this chunk: next iteration *)
        apply is_empty_true in Eout. subst out. cbn [app].
        exact (IH self1 data size Hbuf Hbp Heof Hlen).
      * apply is_empty_false in Eout.
        exact (Hrest self1 out Hbuf Hbp Heof eq_refl eq_refl eq_refl Eout).
    + set (self1 := set_file_obj self f').
      assert (Hcr : cf_rest self1 =
                    one_shot (@None (decompress_func D)) (_chunk_size self)
                      (skipn (length c) (remaining (_file_obj self)))).
      { unfold cf_rest. subst self1.
        cbn [_decompress_func _chunk_size _file_obj set_file_obj].
        now rewrite Hrem, Eg. }
      rewrite <- Hcr.
      exact (Hrest self1 c Hbuf Hbp Heof eq_refl eq_refl eq_refl Hc).
Qed.

Lemma cf_wf_eof_logical self :
  cf_wf self -> _eof self = true -> cf_logical self = [].
Proof.
  intros (_ & _ & He) Heof. destruct (He Heof) as [Hb Hn].
  unfold cf_logical, cf_rest, one_shot.
  rewrite Hb, raw_chunks_unfold, Hn, zdrop_nil. reflexivity.
Qed.

(** What one call of [read] does, in terms of the logical stream. *)
Lemma cf_read_spec self n :
  cf_wf self -> 0 <= n ->
  exists self',
    read self n = Return (ztake n (cf_logical self), self') /\
    cf_wf self' /\
    cf_logical self' = zdrop n (cf_logical self) /\
    _pos self' = _pos self + len (ztake n (cf_logical self)) /\
    _chunk_size self' = _chunk_size self /\
    (len (cf_logical self) < n -> _eof self' = true) /\
    (_eof self = true -> _eof self' = true).
Proof.
  intros Hwf Hn. pose proof Hwf as (Hpos & Hbp & He).
  unfold read.
  destruct (Z.geb_spec (_pos self) 0); [|lia].
  destruct (Z.geb_spec (_buffer_pos self) 0); [|lia].
  destruct (Z.leb_spec (_buffer_pos self) (len (_buffer self))); [|lia].
  cbn [assert bind].
  destruct (_eof self) eqn:Heof.
  - rewrite (cf_wf_eof_logical self Hwf Heof), ztake_nil, zdrop_nil.
    exists self. rewrite len_nil.
    split; [reflexivity|]. split; [exact Hwf|].
    split; [exact (cf_wf_eof_logical self Hwf Heof)|].
    split; [lia|]. split; [reflexivity|]. split; auto.
  - pose proof (read_from_buffer_spec self n Hbp Hn) as Hb.
    destruct (_read_from_buffer self n) as [data self1].
    destruct Hb as (Hd & Hz & Hbnd & Hempty & _ & Hf & Hdf & Hcs & Hp & He1).
    set (tail := zdrop (_buffer_pos self) (_buffer self)) in *.
    assert (Hrest1 : cf_rest self1 = cf_rest self)
      by (unfold cf_rest; now rewrite Hf, Hdf, Hcs).
    assert (Hlen : len data = Z.min n (len tail))
      by (rewrite Hd, len_ztake; lia).
    unfold cf_logical at 1 2 3 4. fold tail.
    destruct (Z.le_gt_cases (n - len data) 0) as [Hdone|Hmore].
    + rewrite read_loop_done by lia. cbn [bind].
      eexists. split; [rewrite ztake_app_le by lia; rewrite <- Hd; reflexivity|].
      unfold cf_wf, cf_logical.
      cbn [set_pos _pos _buffer _buffer_pos _eof _chunk_size _file_obj
             _decompress_func].
      change (cf_rest (set_pos self1 (_pos self1 + len data)))
        with (cf_rest self1).
      rewrite Hz, Hrest1, zdrop_app_le, ztake_app_le, <- Hd, Hp, He1, Heof by lia.
      pose proof (len_nonneg data). pose proof (len_nonneg (cf_rest self)).
      split; [split; [lia|split; [exact Hbnd|discriminate]]|].
      split; [reflexivity|]. split; [reflexivity|]. split; [exact Hcs|].
      split; [|discriminate].
      fold tail. rewrite len_app. lia.
    + destruct (Hempty ltac:(lia)) as [Hb1 Hb2].
      assert (Hfuel : (length (remaining (_file_obj self1)) <
                       S (length (remaining (_file_obj self1))))%nat) by lia.
      destruct (read_loop_spec _ self1 data (n - len data) Hb1 Hb2
                  ltac:(congruence) Hfuel)
        as (self2 & Hl & Hlog & Hbnd2 & He2 & Hshort & Hp2 & Hcs2).
      rewrite Hl. cbn [bind].
      assert (Hdt : data = tail) by (rewrite Hd; apply ztake_all; lia).
      assert (Hres : data ++ ztake (n - len data) (cf_rest self1) =
                     ztake n (tail ++ cf_rest self)).
      { rewrite ztake_app_ge by lia. now rewrite Hdt, Hrest1. }
      rewrite Hres.
      eexists. split; [reflexivity|].
      unfold cf_wf.
      cbn [set_pos _pos _buffer _buffer_pos _eof _chunk_size _file_obj
             _decompress_func].
      pose proof (len_nonneg (ztake n (tail ++ cf_rest self))).
      split; [split; [lia|split; [exact Hbnd2|exact He2]]|].
      split.
      { change (cf_logical self2 = zdrop n (tail ++ cf_rest self)).
        rewrite Hlog, Hrest1, zdrop_app_ge by lia. now rewrite Hdt. }
      split; [lia|].
      split; [congruence|].
      split; [|discriminate].
      intros Hlt. apply Hshort. unfold cf_logical in Hlt. fold tail in Hlt.
      rewrite len_app in Hlt. rewrite Hrest1. lia.
Qed.

Lemma cf_wf_init (file_obj : pyfile) (f : option (decompress_func D))
    (chunk_size : option Z) :
  cf_wf (__init__ file_obj f chunk_size).
Proof.
  unfold cf_wf, __init__. cbn [_pos _buffer _buffer_pos _eof].
  rewrite len_nil. repeat split; try lia; discriminate.
Qed.

End CompressedFileRead.

(** ** [_fake_seek_forward] over any file-like object *)

Lemma total_len_app (l1 l2 : list bytes) :
  total_len (l1 ++ l2) = total_len l1 + total_len l2.
Proof. induction l1 as [|b l1 IH]; simpl; [reflexivity|]. rewrite IH. lia. Qed.

Lemma total_len_nonneg (l : list bytes) : 0 <= total_len l.
Proof.
  induction l as [|b l IH]; simpl; [lia|]. pose proof (len_nonneg b). lia.
Qed.

Section FakeSeekAny.
Context {F : Type} `{FileObj F}.

Lemma seek_loop_done (fuel : nat) (f : F) (k : Z) :
  k <= 0 -> seek_loop fuel f k = Return (k, f).
Proof.
  intros. destruct fuel; cbn [seek_loop];
    destruct (Z.gtb_spec k 0); try lia; reflexivity.
Qed.

Lemma seek_trace_done (fuel : nat) (f : F) (k : Z) :
  k <= 0 -> seek_trace fuel f k = [].
Proof.
  intros. destruct fuel; cbn [seek_trace];
    destruct (Z.gtb_spec k 0); try lia; reflexivity.
Qed.

(** The residual of the loop is what was asked for less what the reads
    gave, whatever the object does. *)
Lemma seek_loop_residual (fuel : nat) : forall (f : F) (k k' : Z) (f' : F),
  seek_loop fuel f k = Return (k', f') ->
  k' = k - total_len (seek_trace fuel f k).
Proof.
  induction fuel as [|fuel IH]; intros f k k' f' Hl; cbn [seek_loop seek_trace] in *;
    destruct (Z.gtb_spec k 0); try discriminate;
    try (injection Hl as <- <-; simpl; lia).
  destruct (read f (Z.min k (1024 * 1024))) as [[buf f1]| |] eqn:Hr;
    cbn [bind] in Hl; try discriminate.
  destruct (is_empty buf) eqn:Eb.
  - injection Hl as <- <-. apply is_empty_true in Eb. subst buf. simpl. lia.
  - apply IH in Hl. cbn [total_len fold_right].
    fold (total_len (seek_trace fuel f1 (k - len buf))). lia.
Qed.

(** Exceptions and exhausted bounds of the loop are those of a read. *)
Lemma seek_loop_raise (fuel : nat) : forall (f : F) (k : Z) (e : exn),
  seek_loop fuel f k = Raise e -> exists f1 n, read f1 n = Raise e.
Proof.
  induction fuel as [|fuel IH]; intros f k e Hl; cbn [seek_loop] in Hl;
    destruct (Z.gtb_spec k 0); try discriminate.
  destruct (read f (Z.min k (1024 * 1024))) as [[buf f1]| |] eqn:Hr;
    cbn [bind] in Hl; try discriminate.
  - destruct (is_empty buf); [discriminate|]. eauto.
  - injection Hl as <-. eauto.
Qed.

(** A seek that returns has moved the position by what its reads gave. *)
Lemma fake_seek_returns (f : F) (cur_pos offset whence p : Z) (f' : F) :
  _fake_seek_forward f cur_pos offset whence = Return (p, f') ->
  let new_pos := if whence =? SEEK_SET then offset else cur_pos + offset in
  (whence = SEEK_SET \/ whence = SEEK_CUR) /\ cur_pos <= new_pos /\
  p = cur_pos + total_len (seek_trace (Z.to_nat (new_pos - cur_pos)) f
                             (new_pos - cur_pos)) /\
  p <= new_pos.
Proof.
  unfold _fake_seek_forward. intros Hs.
  destruct (Z.eqb_spec whence SEEK_SET) as [->|Hw0].
  - cbn [bind] in Hs. cbv zeta.
    destruct (Z.ltb_spec offset cur_pos); [discriminate|].
    destruct (seek_loop _ f (offset - cur_pos)) as [[k' f1]| |] eqn:Hl;
      cbn [bind] in Hs; try discriminate.
    destruct (Z.ltb_spec k' 0); [discriminate|].
    injection Hs as <- <-. apply seek_loop_residual in Hl.
    repeat split; auto; lia.
  - destruct (Z.eqb_spec whence SEEK_CUR) as [->|Hw1];
      cbn [bind] in Hs; [|discriminate]. cbv zeta.
    destruct (Z.ltb_spec (cur_pos + offset) cur_pos); [discriminate|].
    destruct (seek_loop _ f (cur_pos + offset - cur_pos)) as [[k' f1]| |] eqn:Hl;
      cbn [bind] in Hs; try discriminate.
    destruct (Z.ltb_spec k' 0); [discriminate|].
    injection Hs as <- <-. apply seek_loop_residual in Hl.
    repeat split; auto; lia.
Qed.

(** Seeking backwards is refused before anything is read. *)
Lemma fake_seek_backward (f : F) (cur_pos offset whence : Z) :
  whence = SEEK_SET \/ whence = SEEK_CUR ->
  let new_pos := if whence =? SEEK_SET then offset else cur_pos + offset in
  new_pos < cur_pos ->
  _fake_seek_forward f cur_pos offset whence =
    Raise (Error (BackwardSeek cur_pos new_pos)).
Proof.
  intros [-> | ->]; cbn; intros Hlt; unfold _fake_seek_forward; cbn [bind Z.eqb SEEK_SET SEEK_CUR].
  - destruct (Z.ltb_spec offset cur_pos); [reflexivity|lia].
  - destruct (Z.ltb_spec (cur_pos + offset) cur_pos); [reflexivity|lia].
Qed.

End FakeSeekAny.

Section FakeSeekTrace.
Context {F : Type} `{FileObj F}.




End FakeSeekTrace.

(** *** Objects whose reads give no more than was asked for *)

Section FakeSeekBounded.
Context {F : Type} `{FileObj F}.
Variable Inv : F -> Prop.
Hypothesis read_bounded : forall (f : F) (n : Z) (b : bytes) (f' : F),
  Inv f -> 0 < n -> read f n = Return (b, f') -> len b <= n /\ Inv f'.

Lemma seek_loop_bounded (fuel : nat) : forall (f : F) (k : Z),
  Inv f -> 0 <= k <= Z.of_nat fuel ->
  (forall k' f', seek_loop fuel f k = Return (k', f') ->
                 0 <= k' <= k /\ Inv f') /\
  (seek_loop fuel f k = OutOfFuel -> exists f1 n, read f1 n = OutOfFuel).
Proof.
  induction fuel as [|fuel IH]; intros f k Hinv Hk.
  - rewrite seek_loop_done by lia. split; [|discriminate].
    intros k' f' E. injection E as <- <-. split; [lia|exact Hinv].
  - cbn [seek_loop]. destruct (Z.gtb_spec k 0) as [Hpos|Hnp].
    2:{ split; [|discriminate].
        intros k' f' E. injection E as <- <-. split; [lia|exact Hinv]. }
    destruct (read f (Z.min k (1024 * 1024))) as [[buf f1]| |] eqn:Hr;
      cbn [bind].
    + destruct (read_bounded f (Z.min k (1024 * 1024)) buf f1 Hinv
                  ltac:(lia) Hr) as [Hb Hinv1].
      destruct (is_empty buf) eqn:Eb.
      * split; [|discriminate].
        intros k' f' E. injection E as <- <-. split; [lia|exact Hinv1].
      * apply is_empty_false in Eb.
        destruct (IH f1 (k - len buf) Hinv1 ltac:(lia)) as [IH1 IH2].
        split; [|exact IH2].
        intros k' f' E. destruct (IH1 k' f' E). split; [lia|assumption].
    + split; discriminate.
    + split; [discriminate|]. eauto.
Qed.

End FakeSeekBounded.

(** *** Objects whose reads always return, and give no more than was asked
    for *)

Section FakeSeekTotal.
Context {F : Type} `{FileObj F}.
Variable Inv : F -> Prop.
Hypothesis read_returns : forall (f : F) (n : Z),
  Inv f -> 0 < n ->
  exists b f', read f n = Return (b, f') /\ len b <= n /\ Inv f'.

Lemma read_returns_bounded : forall (f : F) (n : Z) (b : bytes) (f' : F),
  Inv f -> 0 < n -> read f n = Return (b, f') -> len b <= n /\ Inv f'.
Proof.
  intros f n b f' Hinv Hn Hr.
  destruct (read_returns f n Hinv Hn) as (b1 & f1 & Hr1 & Hb & Hi).
  rewrite Hr in Hr1. injection Hr1 as -> ->. auto.
Qed.


End FakeSeekTotal.

(** [read] of a file object: it returns, and never more than was asked. *)
Lemma file_read_returns (f : pyfile) (n : Z) :
  True -> 0 < n ->
  exists b f', read f n = Return (b, f') /\ len b <= n /\ True.
Proof.
  intros _ Hn. destruct (file_read_chunk f n) as (f' & Hr & _).
  exists (next_chunk n (remaining f)), f'. split; [exact Hr|].
  rewrite next_chunk_pos by lia. rewrite len_ztake. split; [lia|exact I].
Qed.

Lemma file_read_bounded (f : pyfile) (n : Z) (b : bytes) (f' : pyfile) :
  True -> 0 < n -> read f n = Return (b, f') -> len b <= n /\ True.
Proof.
  intros Hi Hn Hr.
  destruct (file_read_returns f n Hi Hn) as (b1 & f1 & Hr1 & Hb).
  rewrite Hr in Hr1. injection Hr1 as -> ->. exact Hb.
Qed.

(** C10.  The forward-seek emulator never overshoots.  Over any file-like
    object whose reads give at most the number of bytes asked for, and for
    any valid forward seek: the loop leaves between zero and the whole
    distance to discard, so the test [to_read < 0] that guards the
    "seeked too far" error is false; a position the function returns lies
    between the starting position and the target; and an exception that
    leaves the function is one that a read of the object raised. *)
Theorem fake_seek_never_overshoots {F : Type} `{FileObj F} (Inv : F -> Prop) :
  (forall (f : F) (n : Z) (b : bytes) (f' : F),
     Inv f -> 0 < n -> read f n = Return (b, f') -> len b <= n /\ Inv f') ->
  forall (f : F) (cur_pos offset whence : Z),
  Inv f -> whence = SEEK_SET \/ whence = SEEK_CUR ->
  let new_pos := if whence =? SEEK_SET then offset else cur_pos + offset in
  cur_pos <= new_pos ->
  (forall to_read f',
     seek_loop (Z.to_nat (new_pos - cur_pos)) f (new_pos - cur_pos) =
       Return (to_read, f') ->
     0 <= to_read <= new_pos - cur_pos /\ (to_read <? 0) = false) /\
  (forall p f',
     _fake_seek_forward f cur_pos offset whence = Return (p, f') ->
     cur_pos <= p <= new_pos) /\
  (forall e,
     _fake_seek_forward f cur_pos offset whence = Raise e ->
     exists f1 n, read f1 n = Raise e).
Proof.
  intros Hbounded f cur_pos offset whence Hinv Hw new_pos Hfwd.
  assert (Hres : forall to_read f',
     seek_loop (Z.to_nat (new_pos - cur_pos)) f (new_pos - cur_pos) =
       Return (to_read, f') ->
     0 <= to_read <= new_pos - cur_pos /\ (to_read <? 0) = false).
  { intros k' f' Hl.
    destruct (seek_loop_bounded Inv Hbounded (Z.to_nat (new_pos - cur_pos))
                f (new_pos - cur_pos) Hinv ltac:(lia)) as [Hb _].
    destruct (Hb k' f' Hl) as [Hk _]. split; [exact Hk|].
    apply Z.ltb_ge. lia. }
  split; [exact Hres|]. split.
  - intros p f' Hs. apply fake_seek_returns in Hs.
    destruct Hs as (_ & _ & Hp & Hle).
    pose proof (total_len_nonneg
                  (seek_trace (Z.to_nat (new_pos - cur_pos)) f
                     (new_pos - cur_pos))).
    subst new_pos. lia.
  - intros e Hs. unfold _fake_seek_forward in Hs.
    assert (Hnew : (if whence =? SEEK_SET then Return offset
                    else if whence =? SEEK_CUR then Return (cur_pos + offset)
                    else Raise (Error (BadWhence whence))) = Return new_pos).
    { subst new_pos. destruct Hw as [-> | ->]; reflexivity. }
    rewrite Hnew in Hs. cbn [bind] in Hs.
    destruct (Z.ltb_spec new_pos cur_pos); [lia|].
    destruct (seek_loop (Z.to_nat (new_pos - cur_pos)) f (new_pos - cur_pos))
      as [[k' f1]| |] eqn:Hl; cbn [bind] in Hs; try discriminate.
    + destruct (Hres k' f1 eq_refl) as [_ Hk]. rewrite Hk in Hs. discriminate.
    + injection Hs as <-. eapply seek_loop_raise; eassumption.
Qed.

Lemma fake_seek_never_overshoots_witness :
  (forall p f', _fake_seek_forward digits 2 4 SEEK_CUR = Return (p, f') ->
                2 <= p <= 6) /\
  _fake_seek_forward digits 2 4 SEEK_CUR =
    Return (6, mk_pyfile (f_data digits) 4 true).
Proof.
  split; [|reflexivity].
  apply (fake_seek_never_overshoots (fun _ : pyfile => True)
           file_read_bounded digits 2 4 SEEK_CUR I (or_intror eq_refl)).
  vm_compute. discriminate.
Defined.



Example short_seek_on_digits :
  _fake_seek_forward digits 0 15 SEEK_SET =
    Return (10, mk_pyfile (f_data digits) 10 true) /\
  seek_trace 15 digits 15 = [f_data digits; []].
Proof. split; reflexivity. Qed.

(** Without the proviso of C10 the error branch can be reached: an object
    that gives all it has whatever was asked takes the loop past its
    target. *)
Example greedy_object_seeks_too_far :
  _fake_seek_forward (Build_greedy (f_data digits)) 0 3 SEEK_SET =
    Raise (Error (SeekedTooFar 10 3)).
Proof. reflexivity. Qed.

(** ** Objects that hand out a fixed content in order

    The raw file and the [_CompressedFile] both behave as a sequence of bytes
    of which [read(n)] takes the next [n].  What seeking and draining do to
    such an object is proved once. *)

Lemma ztake_empty (n : Z) (l : bytes) :
  0 < n -> is_empty (ztake n l) = true -> l = [].
Proof.
  intros Hn He. apply is_empty_true in He. destruct l as [|x l]; [reflexivity|].
  unfold ztake in He. destruct (Z.to_nat n) eqn:E; [lia|discriminate].
Qed.

Section Sequential.
Context {F : Type} `{FileObj F}.
Variable Inv : F -> Prop.
Variable content : F -> bytes.
Hypothesis read_content : forall (f : F) (n : Z),
  Inv f -> 0 <= n ->
  exists f', read f n = Return (ztake n (content f), f') /\
             Inv f' /\ content f' = zdrop n (content f).

Lemma seq_read_returns (f : F) (n : Z) :
  Inv f -> 0 < n ->
  exists b f', read f n = Return (b, f') /\ len b <= n /\ Inv f'.
Proof.
  intros Hinv Hn.
  destruct (read_content f n Hinv ltac:(lia)) as (f' & Hr & Hinv' & _).
  exists (ztake n (content f)), f'. rewrite len_ztake.
  repeat split; auto. lia.
Qed.

Lemma seq_seek_loop (fuel : nat) : forall (f : F) (k : Z),
  Inv f -> 0 <= k <= Z.of_nat fuel ->
  exists f', seek_loop fuel f k = Return (Z.max 0 (k - len (content f)), f') /\
             Inv f' /\ content f' = zdrop k (content f).
Proof.
  induction fuel as [|fuel IH]; intros f k Hinv Hk;
    pose proof (len_nonneg (content f)) as Hlen.
  - rewrite seek_loop_done by lia. exists f.
    rewrite zdrop_nonpos by lia. repeat split; auto. do 2 f_equal. lia.
  - cbn [seek_loop]. destruct (Z.gtb_spec k 0) as [Hpos|Hnp].
    2:{ exists f. rewrite zdrop_nonpos by lia. repeat split; auto.
        do 2 f_equal. lia. }
    set (c := Z.min k (1024 * 1024)).
    destruct (read_content f c Hinv ltac:(lia)) as (f1 & Hr & Hinv1 & Hc1).
    rewrite Hr. cbn [bind].
    destruct (is_empty (ztake c (content f))) eqn:Eb.
    + apply ztake_empty in Eb; [|lia]. exists f1.
      rewrite Hc1, Eb, !zdrop_nil, len_nil. repeat split; auto.
      do 2 f_equal. lia.
    + apply is_empty_false in Eb. rewrite len_ztake in *.
      destruct (IH f1 (k - Z.min (Z.max 0 c) (len (content f))) Hinv1
                  ltac:(lia)) as (f' & Hl & Hinv' & Hc').
      exists f'. rewrite Hl, Hc', Hc1, len_zdrop.
      split; [do 2 f_equal; lia|]. split; [exact Hinv'|].
      rewrite zdrop_zdrop by lia.
      destruct (Z.le_gt_cases c (len (content f))).
      * f_equal. lia.
      * rewrite !zdrop_all by lia. reflexivity.
Qed.

(** A forward seek lands on its target, or at the end of the content. *)
Lemma seq_fake_seek (f : F) (cur_pos offset whence : Z) :
  Inv f -> whence = SEEK_SET \/ whence = SEEK_CUR ->
  let new_pos := if whence =? SEEK_SET then offset else cur_pos + offset in
  cur_pos <= new_pos ->
  exists f',
    _fake_seek_forward f cur_pos offset whence =
      Return (Z.min new_pos (cur_pos + len (content f)), f') /\
    Inv f' /\ content f' = zdrop (new_pos - cur_pos) (content f).
Proof.
  intros Hinv Hw new_pos Hfwd.
  destruct (seq_seek_loop (Z.to_nat (new_pos - cur_pos)) f (new_pos - cur_pos)
              Hinv ltac:(lia)) as (f' & Hl & Hinv' & Hc').
  exists f'. split; [|auto].
  unfold _fake_seek_forward.
  assert (Hnew : (if whence =? SEEK_SET then Return offset
                  else if whence =? SEEK_CUR then Return (cur_pos + offset)
                  else Raise (Error (BadWhence whence))) = Return new_pos).
  { subst new_pos. destruct Hw as [-> | ->]; reflexivity. }
  rewrite Hnew. cbn [bind].
  destruct (Z.ltb_spec new_pos cur_pos); [lia|].
  rewrite Hl. cbn [bind].
  destruct (Z.ltb_spec (Z.max 0 (new_pos - cur_pos - len (content f))) 0);
    [lia|].
  do 2 f_equal. lia.
Qed.

(** Reading until a read gives nothing collects the whole content. *)
Lemma seq_read_until_empty (fuel : nat) : forall (f : F) (size : Z),
  Inv f -> 0 < size -> (length (content f) < fuel)%nat ->
  exists f', read_until_empty fuel f size = Return (content f, f') /\
             Inv f' /\ content f' = [].
Proof.
  induction fuel as [|fuel IH]; intros f size Hinv Hsz Hfuel; [lia|].
  cbn [read_until_empty].
  destruct (read_content f size Hinv ltac:(lia)) as (f1 & Hr & Hinv1 & Hc1).
  rewrite Hr. cbn [bind].
  destruct (is_empty (ztake size (content f))) eqn:Eb.
  - apply ztake_empty in Eb; [|lia]. exists f1.
    rewrite Hc1, Eb, zdrop_nil. auto.
  - apply is_empty_false in Eb. rewrite len_ztake in Eb.
    assert (Hshorter : (length (content f1) < fuel)%nat).
    { rewrite Hc1. unfold zdrop. rewrite length_skipn. unfold len in Eb. lia. }
    destruct (IH f1 size Hinv1 Hsz Hshorter) as (f' & Hl & Hinv' & Hc').
    exists f'. rewrite Hl. cbn [bind]. rewrite Hc1, ztake_zdrop_id. auto.
Qed.

End Sequential.

(** ** The raw file and the [_CompressedFile] as sequential objects *)

Lemma skipn_length_firstn (k : nat) (l : bytes) :
  skipn (length (firstn k l)) l = skipn k l.
Proof.
  rewrite length_firstn. destruct (Nat.le_gt_cases k (length l)).
  - now rewrite Nat.min_l.
  - rewrite Nat.min_r by lia. now rewrite !skipn_all2 by lia.
Qed.

Lemma file_read_content (f : pyfile) (n : Z) :
  True -> 0 <= n ->
  exists f', read f n = Return (ztake n (remaining f), f') /\
             True /\ remaining f' = zdrop n (remaining f).
Proof.
  intros _ Hn. destruct (file_read_chunk f n) as (f' & Hr & Hrem & _).
  unfold next_chunk in *. destruct (Z.ltb_spec n 0); [lia|].
  exists f'. split; [exact Hr|]. split; [exact I|].
  rewrite Hrem. apply skipn_length_firstn.
Qed.

Lemma file_read_exact (f : pyfile) (n : Z) :
  0 <= n ->
  read f n =
    Return (ztake n (remaining f),
            mk_pyfile (f_data f) (f_off f + length (ztake n (remaining f)))
              (f_has_seek f)).
Proof.
  intros Hn. unfold read, pyfile_FileObj, file_read.
  destruct (Z.ltb_spec n 0); [lia|]. reflexivity.
Qed.

Section CompressedFileClaims.
Import CompressedFile.
Context {D : Type}.
Implicit Types (self : t D).

Lemma cf_read_content self (n : Z) :
  cf_wf self -> 0 <= n ->
  exists self', read self n = Return (ztake n (cf_logical self), self') /\
                cf_wf self' /\ cf_logical self' = zdrop n (cf_logical self).
Proof.
  intros Hwf Hn.
  destruct (cf_read_spec self n Hwf Hn) as (self' & Hr & Hwf' & Hl & _).
  exists self'. auto.
Qed.

Lemma next_chunk_empty (cs : Z) (l : bytes) :
  cs <> 0 -> next_chunk cs l = [] -> l = [].
Proof.
  unfold next_chunk, ztake. intros Hcs He.
  destruct (Z.ltb_spec cs 0); [exact He|].
  destruct l as [|x l]; [reflexivity|].
  destruct (Z.to_nat cs) eqn:E; [lia|discriminate].
Qed.

Lemma cf_logical_init (raw : pyfile) (f : option (decompress_func D))
    (chunk_size : Z) :
  chunk_size <> 0 ->
  cf_logical (__init__ raw f (Some chunk_size)) =
  one_shot f chunk_size (remaining raw).
Proof.
  intros Hcs. unfold cf_logical, cf_rest, __init__.
  cbn [_buffer _buffer_pos _decompress_func _chunk_size _file_obj].
  destruct (Z.eqb_spec chunk_size 0); [contradiction|].
  rewrite zdrop_nil. reflexivity.
Qed.

End CompressedFileClaims.

(** C1.  Streaming decompression equals one-shot decompression.  For every
    raw file, every decompress function (or none), every chunk size of at
    least one byte and every read size of at least one byte, calling [read]
    on a new [_CompressedFile] until a call gives nothing returns, all
    together, exactly what the decompress function gives for the successive
    raw chunks, concatenated in order.  The loop ends: any bound on its
    iterations above the length of that output is enough. *)
Theorem streaming_equals_one_shot {D : Type} (raw : pyfile)
    (f : option (CompressedFile.decompress_func D))
    (chunk_size size : Z) (fuel : nat) :
  1 <= chunk_size -> 1 <= size ->
  (length (one_shot f chunk_size (remaining raw)) < fuel)%nat ->
  exists self',
    read_until_empty fuel
      (CompressedFile.__init__ raw f (Some chunk_size)) size =
    Return (decompress_chunks f (raw_chunks chunk_size (remaining raw)),
            self').
Proof.
  intros Hcs Hsz Hfuel.
  pose proof (cf_logical_init raw f chunk_size ltac:(lia)) as Hlog.
  destruct (seq_read_until_empty cf_wf cf_logical cf_read_content fuel
              (CompressedFile.__init__ raw f (Some chunk_size)) size
              (cf_wf_init raw f (Some chunk_size)) ltac:(lia)
              ltac:(rewrite Hlog; exact Hfuel))
    as (self' & Hr & _).
  exists self'. rewrite Hlog in Hr. exact Hr.
Qed.

Lemma streaming_equals_one_shot_witness :
  exists self',
    read_until_empty 7 (CompressedFile.__init__ encoded (Some rle) (Some 3)) 4
    = Return (decompress_chunks (Some rle)
                (raw_chunks 3 (remaining encoded)), self').
Proof.
  apply (streaming_equals_one_shot encoded (Some rle) 3 4 7);
    vm_compute; try discriminate. lia.
Defined.

Example streaming_rle_output :
  decompress_chunks (Some rle) (raw_chunks 3 (remaining encoded)) =
  list_byte_of_string "aaaccd".
Proof. reflexivity. Qed.

(** ** [read] with a decompress function that can raise *)

Section RawFileOfRead.
Import CompressedFile.
Context {D : Type}.
Implicit Types (self : t D) (data : bytes) (size : Z).

Lemma raw_moved_on_refl (f : pyfile) : raw_moved_on f f.
Proof. unfold raw_moved_on. auto. Qed.

Lemma raw_moved_on_trans (f g h : pyfile) :
  raw_moved_on f g -> raw_moved_on g h -> raw_moved_on f h.
Proof.
  unfold raw_moved_on. intros (A1 & A2 & A3) (B1 & B2 & B3).
  repeat split; try congruence. lia.
Qed.

Lemma read_from_buffer_raw self n :
  _file_obj (snd (_read_from_buffer self n)) = _file_obj self.
Proof.
  unfold _read_from_buffer.
  destruct (len (_buffer self) - _buffer_pos self >? n); reflexivity.
Qed.

Lemma read_loop_raw fuel : forall self data size d self',
  read_loop fuel self data size = Return (d, self') ->
  raw_moved_on (_file_obj self) (_file_obj self').
Proof.
  induction fuel as [|fuel IH]; intros self data size d self' Hr;
    cbn [read_loop] in Hr; destruct (size >? 0); try discriminate;
    try (injection Hr as <- <-; apply raw_moved_on_refl).
  destruct (file_read_chunk (_file_obj self) (_chunk_size self))
    as (f' & Hf & _ & Hd & Hs & Ho).
  rewrite Hf in Hr. cbn [bind] in Hr.
  assert (Hm : raw_moved_on (_file_obj self) f')
    by (unfold raw_moved_on; repeat split; auto; lia).
  destruct (is_empty _).
  { injection Hr as <- <-. exact Hm. }
  assert (Hrest : forall self1 out,
    _file_obj self1 = f' ->
    (_ <- assert (len (_buffer self1) =? 0) ;;
     _ <- assert (_buffer_pos self1 =? 0) ;;
     if len out >=? size then
       let self2 := set_buffer self1 out in
       let '(d, self3) := _read_from_buffer self2 size in
       read_loop fuel self3 (data ++ d) (size - len out)
     else read_loop fuel self1 (data ++ out) (size - len out)) =
    Return (d, self') ->
    raw_moved_on (_file_obj self) (_file_obj self')).
  { intros self1 out Hf1 H.
    destruct (len (_buffer self1) =? 0); cbn [assert bind] in H;
      [|discriminate].
    destruct (_buffer_pos self1 =? 0); cbn [assert bind] in H;
      [|discriminate].
    destruct (len out >=? size).
    - cbv zeta in H.
      pose proof (read_from_buffer_raw (set_buffer self1 out) size) as Hb.
      destruct (_read_from_buffer (set_buffer self1 out) size) as [d3 self3].
      cbn [snd set_buffer _file_obj] in Hb.
      apply (raw_moved_on_trans _ _ _ Hm). rewrite <- Hf1, <- Hb.
      exact (IH _ _ _ _ _ H).
    - apply (raw_moved_on_trans _ _ _ Hm). rewrite <- Hf1.
      exact (IH _ _ _ _ _ H). }
  cbn [set_file_obj _decompress_func] in Hr.
  destruct (_decompress_func self) as [g|].
  - destruct (call g _) as [out g'].
    destruct (is_empty out).
    + apply (raw_moved_on_trans _ _ _ Hm).
      exact (IH _ _ _ _ _ Hr).
    + exact (Hrest (set_decompress_func (set_file_obj self f') (Some g'))
               out eq_refl Hr).
  - exact (Hrest (set_file_obj self f') _ eq_refl Hr).
Qed.

Lemma cf_read_raw self n d self' :
  read self n = Return (d, self') ->
  raw_moved_on (_file_obj self) (_file_obj self').
Proof.
  unfold read. intros Hr.
  destruct (_pos self >=? 0); cbn [assert bind] in Hr; [|discriminate].
  destruct (_buffer_pos self >=? 0); cbn [assert bind] in Hr; [|discriminate].
  destruct (_buffer_pos self <=? len (_buffer self)); cbn [assert bind] in Hr;
    [|discriminate].
  destruct (_eof self).
  { injection Hr as <- <-. apply raw_moved_on_refl. }
  pose proof (read_from_buffer_raw self n) as Hb.
  destruct (_read_from_buffer self n) as [data self1]. cbn [snd] in Hb.
  destruct (read_loop _ self1 data (n - len data)) as [[d2 self2]| |] eqn:Hl;
    cbn [bind] in Hr; try discriminate.
  injection Hr as <- <-. cbn [set_pos _file_obj]. rewrite <- Hb.
  exact (read_loop_raw _ _ _ _ _ _ Hl).
Qed.

End RawFileOfRead.

Section RaisingRead.
Context {D : Type}.
Implicit Types (self : RaisingCompressedFile.t D) (data : bytes) (size : Z).

Lemma read_agrees_step err err' (avail k size : Z) r c :
  read_agrees (D := D) err' avail (size - k) r c -> err' = err ->
  read_agrees err (k + avail) size r c.
Proof.
  intros H <-. destruct r as [[d s]|e|]; cbn [read_agrees] in *.
  - destruct H as [H [H1|H1]]; split; auto. right. lia.
  - destruct H as [[H1 H2]|H]; [left; split; [exact H1|lia]|right; exact H].
  - exact H.
Qed.

Lemma read_agrees_eq err err' (avail avail' size : Z) r c :
  read_agrees (D := D) err' avail' size r c -> err' = err -> avail' = avail ->
  read_agrees err avail size r c.
Proof. intros H <- <-. exact H. Qed.

Lemma rcf_wf_as_returning self : rcf_wf self -> cf_wf (as_returning self).
Proof. intros (A & B & C & _). unfold cf_wf. cbn. auto. Qed.

Lemma read_from_buffer_agrees self n :
  CompressedFile._read_from_buffer (as_returning self) n =
  (fst (RaisingCompressedFile._read_from_buffer self n),
   as_returning (snd (RaisingCompressedFile._read_from_buffer self n))) /\
  raw_error (snd (RaisingCompressedFile._read_from_buffer self n)) =
    raw_error self /\
  rcf_rest (snd (RaisingCompressedFile._read_from_buffer self n)) =
    rcf_rest self.
Proof.
  unfold CompressedFile._read_from_buffer,
    RaisingCompressedFile._read_from_buffer.
  cbn [as_returning CompressedFile._buffer CompressedFile._buffer_pos].
  destruct (len (RaisingCompressedFile._buffer self) -
            RaisingCompressedFile._buffer_pos self >? n);
    repeat split; reflexivity.
Qed.

(** The loop with a function that can raise goes the way of the loop with
    [returning] as long as no chunk raises, and it raises on the first chunk
    that does, which it reaches when the chunks before have not given the
    bytes asked for. *)
Lemma read_loop_agrees fuel : forall self data size,
  read_agrees (raw_error self) (len (rcf_rest self)) size
    (RaisingCompressedFile.read_loop fuel self data size)
    (CompressedFile.read_loop fuel (as_returning self) data size).
Proof.
  induction fuel as [|fuel IH]; intros self data size;
    cbn [RaisingCompressedFile.read_loop CompressedFile.read_loop];
    destruct (Z.gtb_spec size 0) as [Hsz|Hsz];
    try reflexivity;
    try (cbn [read_agrees]; split; [reflexivity|right];
         pose proof (len_nonneg (rcf_rest self)); lia).
  cbn [as_returning CompressedFile._file_obj CompressedFile._chunk_size].
  destruct (file_read_chunk (RaisingCompressedFile._file_obj self)
              (RaisingCompressedFile._chunk_size self))
    as (f' & Hf & Hrem & _).
  rewrite Hf. cbn [bind].
  set (chunk := next_chunk (RaisingCompressedFile._chunk_size self)
                  (remaining (RaisingCompressedFile._file_obj self))) in *.
  pose proof (raw_chunks_unfold (RaisingCompressedFile._chunk_size self)
                (remaining (RaisingCompressedFile._file_obj self))) as Hchunks.
  fold chunk in Hchunks. rewrite <- Hrem in Hchunks.
  destruct (is_empty chunk) eqn:Echunk.
  { cbn [read_agrees]. split; [reflexivity|left].
    unfold raw_error. rewrite Hchunks.
    destruct (RaisingCompressedFile._decompress_func self); reflexivity. }
  assert (Hrest : forall self1 out,
    raw_error self1 = raw_error self ->
    rcf_rest self = out ++ rcf_rest self1 ->
    read_agrees (raw_error self) (len (rcf_rest self)) size
      (_ <- assert (len (RaisingCompressedFile._buffer self1) =? 0) ;;
       _ <- assert (RaisingCompressedFile._buffer_pos self1 =? 0) ;;
       if len out >=? size then
         let self2 := RaisingCompressedFile.set_buffer self1 out in
         let '(d, self3) :=
           RaisingCompressedFile._read_from_buffer self2 size in
         RaisingCompressedFile.read_loop fuel self3 (data ++ d)
           (size - len out)
       else
         RaisingCompressedFile.read_loop fuel self1 (data ++ out)
           (size - len out))
      (_ <- assert (len (CompressedFile._buffer (as_returning self1)) =? 0) ;;
       _ <- assert (CompressedFile._buffer_pos (as_returning self1) =? 0) ;;
       if len out >=? size then
         let self2 := CompressedFile.set_buffer (as_returning self1) out in
         let '(d, self3) := CompressedFile._read_from_buffer self2 size in
         CompressedFile.read_loop fuel self3 (data ++ d) (size - len out)
       else
         CompressedFile.read_loop fuel (as_returning self1) (data ++ out)
           (size - len out))).
  { intros self1 out Herr Hout. rewrite Hout, len_app.
    cbn [as_returning CompressedFile._buffer CompressedFile._buffer_pos].
    destruct (len (RaisingCompressedFile._buffer self1) =? 0);
      cbn [assert bind]; [|right; reflexivity].
    destruct (RaisingCompressedFile._buffer_pos self1 =? 0);
      cbn [assert bind]; [|right; reflexivity].
    destruct (len out >=? size).
    - cbv zeta.
      destruct (read_from_buffer_agrees
                  (RaisingCompressedFile.set_buffer self1 out) size)
        as (Hb & He & Hr).
      change (CompressedFile.set_buffer (as_returning self1) out)
        with (as_returning (RaisingCompressedFile.set_buffer self1 out)).
      rewrite Hb.
      destruct (RaisingCompressedFile._read_from_buffer
                  (RaisingCompressedFile.set_buffer self1 out) size)
        as [d3 self3].
      cbn [fst snd] in *.
      change (rcf_rest (RaisingCompressedFile.set_buffer self1 out))
        with (rcf_rest self1) in Hr.
      change (raw_error (RaisingCompressedFile.set_buffer self1 out))
        with (raw_error self1) in He.
      rewrite <- Hr.
      apply (read_agrees_step _ _ _ _ _ _ _ (IH self3 (data ++ d3) _)).
      congruence.
    - apply (read_agrees_step _ _ _ _ _ _ _ (IH self1 (data ++ out) _)).
      exact Herr. }
  cbn [RaisingCompressedFile.set_file_obj
         RaisingCompressedFile._decompress_func
         CompressedFile.set_file_obj CompressedFile._decompress_func
         as_returning].
  destruct (RaisingCompressedFile._decompress_func self) as [g|] eqn:Eg;
    cbn [option_map].
  - assert (Herr0 : raw_error self =
                    match RaisingCompressedFile.d_decompress g
                            (RaisingCompressedFile.d_self g) chunk with
                    | inl e => Some e
                    | inr (_, st') =>
                        first_error (RaisingCompressedFile.d_decompress g) st'
                          (raw_chunks (RaisingCompressedFile._chunk_size self)
                             (remaining f'))
                    end).
    { unfold raw_error. rewrite Eg, Hchunks. reflexivity. }
    assert (Hrest0 : rcf_rest self =
                     match RaisingCompressedFile.d_decompress g
                             (RaisingCompressedFile.d_self g) chunk with
                     | inl _ => []
                     | inr (out, st') =>
                         out ++
                         output_before_error
                           (RaisingCompressedFile.d_decompress g) st'
                           (raw_chunks (RaisingCompressedFile._chunk_size self)
                              (remaining f'))
                     end).
    { unfold rcf_rest. rewrite Eg, Hchunks. reflexivity. }
    unfold RaisingCompressedFile.call, CompressedFile.call.
    cbn [returning CompressedFile.d_self CompressedFile.d_decompress].
    destruct (RaisingCompressedFile.d_decompress g
                (RaisingCompressedFile.d_self g) chunk)
      as [e|[out d]] eqn:Ecall; cbn [bind].
    + left. split; [exact Herr0|]. rewrite Hrest0, len_nil. lia.
    + match goal with
      | |- context [RaisingCompressedFile.set_decompress_func ?s ?v] =>
          set (self1 := RaisingCompressedFile.set_decompress_func s v) end.
      assert (Herr : raw_error self1 = raw_error self)
        by (rewrite Herr0; reflexivity).
      assert (Hout : rcf_rest self = out ++ rcf_rest self1)
        by (rewrite Hrest0; reflexivity).
      destruct (is_empty out) eqn:Eout.
      * apply is_empty_true in Eout. subst out. cbn [app] in Hout.
        apply (read_agrees_eq _ _ _ _ _ _ _ (IH self1 data size));
          [exact Herr|now rewrite Hout].
      * exact (Hrest self1 out Herr Hout).
  - match goal with
    | |- read_agrees _ _ _ _ ?c =>
        change c with
          (_ <- assert (len (CompressedFile._buffer
                               (as_returning
                                  (RaisingCompressedFile.set_file_obj self f')))
                        =? 0) ;;
           _ <- assert (CompressedFile._buffer_pos
                          (as_returning
                             (RaisingCompressedFile.set_file_obj self f'))
                        =? 0) ;;
           if len chunk >=? size then
             let self2 :=
               CompressedFile.set_buffer
                 (as_returning (RaisingCompressedFile.set_file_obj self f'))
                 chunk in
             let '(d, self3) := CompressedFile._read_from_buffer self2 size in
             CompressedFile.read_loop fuel self3 (data ++ d)
               (size - len chunk)
           else
             CompressedFile.read_loop fuel
               (as_returning (RaisingCompressedFile.set_file_obj self f'))
               (data ++ chunk) (size - len chunk))
    end.
    apply (Hrest (RaisingCompressedFile.set_file_obj self f') chunk).
    + unfold raw_error.
      cbn [RaisingCompressedFile.set_file_obj
             RaisingCompressedFile._decompress_func].
      now rewrite Eg.
    + unfold rcf_rest, one_shot.
      cbn [RaisingCompressedFile.set_file_obj
             RaisingCompressedFile._decompress_func
             RaisingCompressedFile._chunk_size
             RaisingCompressedFile._file_obj].
      rewrite Eg, Hchunks. reflexivity.
Qed.

Lemma raw_error_at_eof self :
  rcf_wf self -> RaisingCompressedFile._eof self = true ->
  raw_error self = None /\ rcf_logical self = [].
Proof.
  intros (_ & _ & He & _) Heof. destruct (He Heof) as [Hb Hn].
  unfold raw_error, rcf_logical, rcf_rest, one_shot.
  rewrite raw_chunks_unfold, Hn, Hb, zdrop_nil.
  destruct (RaisingCompressedFile._decompress_func self); split; reflexivity.
Qed.

Lemma read_agrees_read self n :
  rcf_wf self -> 0 <= n ->
  read_agrees (raw_error self) (len (rcf_logical self)) n
    (RaisingCompressedFile.read self n)
    (CompressedFile.read (as_returning self) n).
Proof.
  intros Hwf Hn. pose proof Hwf as (_ & Hbp & _).
  unfold RaisingCompressedFile.read, CompressedFile.read.
  cbn [as_returning CompressedFile._pos CompressedFile._buffer
         CompressedFile._buffer_pos CompressedFile._eof].
  destruct (RaisingCompressedFile._pos self >=? 0); cbn [assert bind];
    [|right; reflexivity].
  destruct (RaisingCompressedFile._buffer_pos self >=? 0); cbn [assert bind];
    [|right; reflexivity].
  destruct (RaisingCompressedFile._buffer_pos self <=?
            len (RaisingCompressedFile._buffer self)); cbn [assert bind];
    [|right; reflexivity].
  destruct (RaisingCompressedFile._eof self) eqn:He.
  { cbn [read_agrees]. split; [reflexivity|left].
    now apply raw_error_at_eof. }
  destruct (read_from_buffer_agrees self n) as (Hb & Herr & Hrest).
  pose proof (read_from_buffer_spec (as_returning self) n) as Hspec.
  cbn [as_returning CompressedFile._buffer CompressedFile._buffer_pos]
    in Hspec.
  specialize (Hspec Hbp Hn).
  change (CompressedFile.mk (RaisingCompressedFile._file_obj self)
            (option_map returning
               (RaisingCompressedFile._decompress_func self))
            (RaisingCompressedFile._chunk_size self)
            (RaisingCompressedFile._pos self)
            (RaisingCompressedFile._buffer self)
            (RaisingCompressedFile._buffer_pos self)
            (RaisingCompressedFile._eof self))
    with (as_returning self) in Hspec.
  rewrite Hb in Hspec |- *.
  destruct (RaisingCompressedFile._read_from_buffer self n) as [data self1].
  cbn [fst snd] in *.
  destruct Hspec as (Hd & _).
  set (tail := zdrop (RaisingCompressedFile._buffer_pos self)
                 (RaisingCompressedFile._buffer self)) in *.
  assert (Hlen : len data = Z.min n (len tail))
    by (rewrite Hd, len_ztake; lia).
  pose proof (len_nonneg tail). pose proof (len_nonneg (rcf_rest self)).
  pose proof (read_loop_agrees
                (S (length (remaining (RaisingCompressedFile._file_obj self1))))
                self1 data (n - len data)) as Hl.
  rewrite Herr, Hrest in Hl.
  unfold rcf_logical. fold tail. rewrite len_app.
  cbn [as_returning CompressedFile._file_obj].
  change (CompressedFile.mk (RaisingCompressedFile._file_obj self1)
            (option_map returning
               (RaisingCompressedFile._decompress_func self1))
            (RaisingCompressedFile._chunk_size self1)
            (RaisingCompressedFile._pos self1)
            (RaisingCompressedFile._buffer self1)
            (RaisingCompressedFile._buffer_pos self1)
            (RaisingCompressedFile._eof self1))
    with (as_returning self1).
  destruct (RaisingCompressedFile.read_loop _ self1 data (n - len data))
    as [[d2 self2]| |]; cbn [read_agrees] in Hl; cbn [bind read_agrees].
  - destruct Hl as [Hl Hav]. rewrite Hl. cbn [bind].
    split; [reflexivity|]. destruct Hav as [Hav|Hav]; [left; exact Hav|].
    right. lia.
  - destruct Hl as [[Hl Hav]|Hl].
    + left. split; [exact Hl|lia].
    + right. rewrite Hl. reflexivity.
  - rewrite Hl. reflexivity.
Qed.

(** The stream of [as_returning] starts with the stream that can be read,
    and is that stream when no exception waits. *)
Lemma returning_output (dec : D -> bytes -> exn + bytes * D)
    (chunks : list bytes) : forall st,
  exists tail,
    decompress_chunks
      (Some (returning (RaisingCompressedFile.mk_decompress_func st dec)))
      chunks = output_before_error dec st chunks ++ tail /\
    (first_error dec st chunks = None -> tail = []).
Proof.
  induction chunks as [|c chunks IH]; intros st;
    cbn [decompress_chunks output_before_error first_error].
  - exists []. auto.
  - unfold CompressedFile.call.
    cbn [returning CompressedFile.d_self CompressedFile.d_decompress
           RaisingCompressedFile.d_self RaisingCompressedFile.d_decompress].
    destruct (dec st c) as [e|[out st']].
    + eexists. split; [reflexivity|discriminate].
    + destruct (IH st') as (tail & Ht & Hnone).
      exists tail. split; [|exact Hnone].
      rewrite <- app_assoc. f_equal. exact Ht.
Qed.

Lemma as_returning_logical self :
  exists tail,
    cf_logical (as_returning self) = rcf_logical self ++ tail /\
    (raw_error self = None -> tail = []).
Proof.
  unfold cf_logical, cf_rest, rcf_logical, rcf_rest, raw_error, one_shot.
  cbn [as_returning CompressedFile._buffer CompressedFile._buffer_pos
         CompressedFile._decompress_func CompressedFile._chunk_size
         CompressedFile._file_obj].
  destruct (RaisingCompressedFile._decompress_func self) as [[st dec]|];
    cbn [option_map RaisingCompressedFile.d_self
           RaisingCompressedFile.d_decompress].
  - destruct (returning_output dec
                (raw_chunks (RaisingCompressedFile._chunk_size self)
                   (remaining (RaisingCompressedFile._file_obj self))) st)
      as (tail & Ht & Hnone).
    exists tail. split; [|exact Hnone].
    rewrite Ht. apply app_assoc.
  - exists []. split; [now rewrite app_nil_r|reflexivity].
Qed.

Lemma rcf_wf_init (file_obj : pyfile)
    (f : option (RaisingCompressedFile.decompress_func D))
    (chunk_size : option Z) :
  rcf_wf (RaisingCompressedFile.__init__ file_obj f chunk_size).
Proof.
  unfold rcf_wf, RaisingCompressedFile.__init__.
  cbn [RaisingCompressedFile._pos RaisingCompressedFile._buffer
         RaisingCompressedFile._buffer_pos RaisingCompressedFile._eof
         RaisingCompressedFile._chunk_size].
  rewrite len_nil.
  split; [lia|]. split; [lia|]. split; [discriminate|].
  destruct chunk_size as [c|]; [|lia].
  destruct (Z.eqb_spec c 0); lia.
Qed.

End RaisingRead.

(** C2, as amended.  [read(n)] of a [_CompressedFile] in any state it can
    be in between two calls, for [n >= 0], does one of two things, and which
    one is settled by what the raw file still holds.  When the decompress
    function takes all the raw chunks left, or gives at least [n] bytes
    (with the unread part of the buffer) before the first chunk it raises on,
    [read] returns the first [n] bytes of that stream, so at most [n]; the
    object is again in a state between two calls, its raw file is the same
    file at the same or a later offset, and when fewer than [n] bytes came
    back the end-of-stream flag is up and the raw file has nothing left.
    Otherwise [read] raises, and the exception is the one the decompress
    function raises on that chunk: [read] raises nothing of its own. *)
Theorem compressed_read_at_most {D : Type}
    (self : RaisingCompressedFile.t D) (n : Z) :
  rcf_wf self -> 0 <= n ->
  (exists data self',
     RaisingCompressedFile.read self n = Return (data, self') /\
     (raw_error self = None \/ n <= len (rcf_logical self)) /\
     data = ztake n (rcf_logical self) /\
     len data <= n /\
     rcf_wf self' /\
     raw_moved_on (RaisingCompressedFile._file_obj self)
       (RaisingCompressedFile._file_obj self') /\
     (len data < n ->
      RaisingCompressedFile._eof self' = true /\
      remaining (RaisingCompressedFile._file_obj self') = [])) \/
  (exists e,
     RaisingCompressedFile.read self n = Raise e /\
     raw_error self = Some e /\ len (rcf_logical self) < n).
Proof.
  intros Hwf Hn.
  pose proof (rcf_wf_as_returning self Hwf) as Hcwf.
  destruct (cf_read_spec (as_returning self) n Hcwf Hn)
    as (c' & Hc & Hwf' & Hlog & Hp & Hcs & Hshort & _).
  pose proof (read_agrees_read self n Hwf Hn) as Ha.
  destruct (as_returning_logical self) as (tail & Htail & Hnone).
  destruct (RaisingCompressedFile.read self n) as [[data self']|e|] eqn:Hr;
    cbn [read_agrees] in Ha.
  - left. destruct Ha as [Ha Hav]. rewrite Hc in Ha.
    injection Ha as Hdata Hself. subst c'.
    exists data, self'. split; [reflexivity|]. split; [exact Hav|].
    assert (Hd : data = ztake n (rcf_logical self)).
    { rewrite <- Hdata, Htail. destruct Hav as [Hav|Hav].
      - now rewrite (Hnone Hav), app_nil_r.
      - apply ztake_app_le; lia. }
    split; [exact Hd|].
    assert (Hle : len data <= n) by (rewrite Hd, len_ztake; lia).
    split; [exact Hle|].
    assert (Hcs' : RaisingCompressedFile._chunk_size self' <> 0).
    { cbn [as_returning CompressedFile._chunk_size] in Hcs. rewrite Hcs.
      apply Hwf. }
    split.
    { destruct Hwf' as (A & B & C). unfold rcf_wf. cbn in A, B, C. auto. }
    split; [exact (cf_read_raw _ _ _ _ Hc)|].
    intros Hlt.
    assert (He : CompressedFile._eof (as_returning self') = true).
    { apply Hshort. rewrite <- Hdata, len_ztake in Hlt. lia. }
    split; [exact He|].
    destruct Hwf' as (_ & _ & Heof). destruct (Heof He) as [_ Hnc].
    cbn [as_returning CompressedFile._chunk_size CompressedFile._file_obj]
      in Hnc.
    eapply next_chunk_empty; eassumption.
  - destruct Ha as [[Ha Hav]|Ha].
    + right. exists e. auto.
    + rewrite Hc in Ha. discriminate.
  - rewrite Hc in Ha. discriminate.
Qed.

Lemma compressed_read_at_most_witness :
  let self :=
    RaisingCompressedFile.__init__ damaged (Some rle_checked) (Some 4) in
  (exists data self',
     RaisingCompressedFile.read self 3 = Return (data, self') /\
     (raw_error self = None \/ 3 <= len (rcf_logical self)) /\
     data = ztake 3 (rcf_logical self) /\
     len data <= 3 /\
     rcf_wf self' /\
     raw_moved_on (RaisingCompressedFile._file_obj self)
       (RaisingCompressedFile._file_obj self') /\
     (len data < 3 ->
      RaisingCompressedFile._eof self' = true /\
      remaining (RaisingCompressedFile._file_obj self') = [])) \/
  (exists e,
     RaisingCompressedFile.read self 3 = Raise e /\
     raw_error self = Some e /\ len (rcf_logical self) < 3).
Proof.
  apply (compressed_read_at_most
           (RaisingCompressedFile.__init__ damaged (Some rle_checked)
              (Some 4)) 3).
  - apply rcf_wf_init.
  - lia.
Defined.

(** C2, as stated, fails on data the decompress function refuses: its
    exception leaves [read].  With the default chunk size the whole damaged
    file is one chunk, and a [read] of one byte raises; with chunks of four
    bytes a first [read] returns what the first chunk holds and the next
    one raises. *)
Lemma compressed_read_raises_on_damaged_data :
  RaisingCompressedFile.read
    (RaisingCompressedFile.__init__ damaged (Some rle_checked) None) 1 =
    Raise (OtherException "zlib.error" "Error -3 while decompressing") /\
  (exists c1,
     RaisingCompressedFile.read
       (RaisingCompressedFile.__init__ damaged (Some rle_checked) (Some 4)) 3 =
       Return (list_byte_of_string "aaa", c1) /\
     rcf_wf c1 /\
     RaisingCompressedFile.read c1 1 =
       Raise (OtherException "zlib.error" "Error -3 while decompressing")).
Proof.
  split; [vm_compute; reflexivity|].
  eexists. split; [vm_compute; reflexivity|]. split.
  - unfold rcf_wf. cbn. repeat split; try lia; discriminate.
  - vm_compute. reflexivity.
Qed.

(** ** [_CompressedFile.seek] *)

Section CompressedFileSeek.
Import CompressedFile.
Context {D : Type}.
Implicit Types (self : t D).

Lemma cf_seek_spec self (offset whence : Z) :
  cf_wf self -> whence = SEEK_SET \/ whence = SEEK_CUR ->
  let new_pos := if whence =? SEEK_SET then offset else _pos self + offset in
  _pos self <= new_pos ->
  exists self',
    seek self offset whence = Return self' /\
    cf_wf self' /\
    cf_logical self' = zdrop (new_pos - _pos self) (cf_logical self) /\
    _pos self' = Z.min new_pos (_pos self + len (cf_logical self)) /\
    (_eof self = true -> _eof self' = true).
Proof.
  intros Hwf Hw new_pos Hfwd.
  set (Inv := fun c : t D => cf_wf c /\ (_eof self = true -> _eof c = true)).
  assert (Hrc : forall (c : t D) (n : Z), Inv c -> 0 <= n ->
            exists c', obj_read c n = Return (ztake n (cf_logical c), c')
                       /\ Inv c' /\ cf_logical c' = zdrop n (cf_logical c)).
  { intros c n [Hc He] Hn.
    destruct (cf_read_spec c n Hc Hn) as (c' & Hr & Hc' & Hl & _ & _ & _ & He').
    exists c'. split; [exact Hr|]. split; [|exact Hl].
    split; [exact Hc'|auto]. }
  destruct (seq_fake_seek Inv cf_logical Hrc self (_pos self) offset whence
              (conj Hwf (fun x => x)) Hw Hfwd)
    as (self1 & Hs & [Hwf1 He1] & Hl1).
  unfold seek.
  change (@_fake_seek_forward (t D) (@read D)) with
    (@_fake_seek_forward (t D) (@CompressedFile_FileObj D)).
  rewrite Hs. cbn [bind].
  eexists. split; [reflexivity|].
  pose proof (len_nonneg (cf_logical self)).
  destruct Hwf as (Hp & _). destruct Hwf1 as (Hp1 & Hb1 & Hf1).
  unfold cf_wf. cbn [set_pos _pos _buffer _buffer_pos _eof _chunk_size _file_obj].
  fold new_pos.
  split; [split; [lia|split; [exact Hb1|exact Hf1]]|].
  split; [exact Hl1|]. split; [reflexivity|exact He1].
Qed.

Lemma cf_seek_returns self (offset whence : Z) self' :
  seek self offset whence = Return self' ->
  _pos self' = _pos self + cf_discards self offset whence /\
  _pos self <= _pos self'.
Proof.
  unfold seek. intros Hs.
  destruct (_fake_seek_forward self (_pos self) offset whence)
    as [[p self1]| |] eqn:Hf; cbn [bind] in Hs; try discriminate.
  injection Hs as <-. cbn [set_pos _pos].
  apply fake_seek_returns in Hf. destruct Hf as (_ & _ & Hp & _).
  unfold cf_discards, fake_seek_discards. split; [exact Hp|].
  rewrite Hp.
  match goal with |- _ <= _ + total_len ?l =>
    pose proof (total_len_nonneg l) end. lia.
Qed.

Lemma read_from_buffer_pos self (n : Z) :
  _pos (snd (_read_from_buffer self n)) = _pos self.
Proof.
  unfold _read_from_buffer. now destruct (_ >? _).
Qed.

Lemma read_loop_pos (fuel : nat) : forall self (data : bytes) (size : Z)
    (data' : bytes) self',
  read_loop fuel self data size = Return (data', self') ->
  _pos self' = _pos self.
Proof.
  induction fuel as [|fuel IH]; intros self data size data' self' Hl;
    cbn [read_loop] in Hl; destruct (size >? 0);
    try discriminate; try (injection Hl as <- <-; reflexivity).
  destruct (obj_read (_file_obj self) (_chunk_size self))
    as [[buf f1]| |]; cbn [bind] in Hl; try discriminate.
  destruct (is_empty buf); [injection Hl as <- <-; reflexivity|].
  assert (Hrest : forall self1 out,
    _pos self1 = _pos self ->
    (_ <- assert (len (_buffer self1) =? 0) ;;
     _ <- assert (_buffer_pos self1 =? 0) ;;
     if len out >=? size then
       let self2 := set_buffer self1 out in
       let '(d, self3) := _read_from_buffer self2 size in
       read_loop fuel self3 (data ++ d) (size - len out)
     else read_loop fuel self1 (data ++ out) (size - len out)) =
    Return (data', self') -> _pos self' = _pos self).
  { intros self1 out Hp H1.
    destruct (assert (len (_buffer self1) =? 0)); cbn [bind] in H1;
      try discriminate.
    destruct (assert (_buffer_pos self1 =? 0)); cbn [bind] in H1;
      try discriminate.
    destruct (len out >=? size).
    - cbv zeta in H1.
      pose proof (read_from_buffer_pos (set_buffer self1 out) size) as Hb.
      destruct (_read_from_buffer (set_buffer self1 out) size) as [d self3].
      apply IH in H1. cbn [snd set_buffer _pos] in Hb. congruence.
    - apply IH in H1. congruence. }
  cbn [set_file_obj _decompress_func] in Hl.
  destruct (_decompress_func self) as [g|].
  - destruct (call g buf) as [out g'].
    destruct (is_empty out).
    + apply IH in Hl. exact Hl.
    + eapply Hrest; [|exact Hl]. reflexivity.
  - eapply Hrest; [|exact Hl]. reflexivity.
Qed.

(** [read] moves the position by the length of what it returns. *)
Lemma cf_read_returns self (n : Z) (data : bytes) self' :
  read self n = Return (data, self') ->
  _pos self' = _pos self + len data.
Proof.
  unfold read. intros Hr.
  destruct (assert (_pos self >=? 0)); cbn [bind] in Hr; try discriminate.
  destruct (assert (_buffer_pos self >=? 0)); cbn [bind] in Hr;
    try discriminate.
  destruct (assert (_buffer_pos self <=? len (_buffer self)));
    cbn [bind] in Hr; try discriminate.
  destruct (_eof self).
  - injection Hr as <- <-. rewrite len_nil. lia.
  - pose proof (read_from_buffer_pos self n) as Hb.
    destruct (_read_from_buffer self n) as [d self1]. cbn [snd] in Hb.
    destruct (read_loop _ self1 d (n - len d)) as [[d2 self2]| |] eqn:Hl;
      cbn [bind] in Hr; try discriminate.
    injection Hr as <- <-. cbn [set_pos _pos].
    apply read_loop_pos in Hl. congruence.
Qed.

End CompressedFileSeek.

(** ** [TransRead] *)

Section TransReadProofs.
Import TransRead.
Context {D T : Type} {T_FileObj : FileObj T}.
Variable tar_seek : T -> Z -> Z -> outcome T.
Implicit Types (r : t D T) (s : stream D T).

Lemma stream_read_content s (n : Z) :
  stream_wf s -> 0 <= n ->
  exists s', obj_read s n = Return (ztake n (stream_content s), s') /\
             stream_wf s' /\ stream_content s' = zdrop n (stream_content s).
Proof.
  intros Hwf Hn. destruct s as [f|c|m]; cbn [stream_wf stream_content] in *.
  - destruct (file_read_content f n I Hn) as (f' & Hr & _ & Hc).
    exists (Plain f'). unfold obj_read, stream_FileObj, stream_read.
    rewrite Hr. cbn [bind]. auto.
  - destruct (cf_read_content c n Hwf Hn) as (c' & Hr & Hwf' & Hc).
    exists (Compressed c'). unfold obj_read, stream_FileObj, stream_read.
    change (obj_read c n) with (CompressedFile.read c n).
    rewrite Hr. cbn [bind]. auto.
  - contradiction.
Qed.

Lemma tr_read_content r (n : Z) :
  stream_wf (_transfile_obj r) -> 0 <= n ->
  exists r', read r n = Return (ztake n (stream_content (_transfile_obj r)), r')
             /\ stream_wf (_transfile_obj r') /\
             stream_content (_transfile_obj r') =
               zdrop n (stream_content (_transfile_obj r)) /\
             _pos r' = _pos r +
                       len (ztake n (stream_content (_transfile_obj r))).
Proof.
  intros Hwf Hn. unfold read.
  destruct (Z.ltb_spec n 0); [lia|].
  destruct (stream_read_content _ n Hwf Hn) as (s' & Hr & Hwf' & Hc).
  rewrite Hr. cbn [bind]. eexists. split; [reflexivity|].
  cbn [set_pos set_transfile_obj _transfile_obj _pos]. auto.
Qed.

(** Seeking from the start of a reader to an offset within its content:
    whichever way the seek is carried out, what is left is the content
    without its first [k] bytes. *)
Lemma tr_seek_from_start r (k : Z) :
  at_start r -> 0 <= k <= len (stream_content (_transfile_obj r)) ->
  exists r', seek tar_seek r k SEEK_SET = Return r' /\
             stream_wf (_transfile_obj r') /\
             stream_content (_transfile_obj r') =
               zdrop k (stream_content (_transfile_obj r)).
Proof.
  intros [Hpos Hstart] Hk. unfold seek.
  destruct (_force_fake_seek r || negb (hasattr_seek (_transfile_obj r))).
  - assert (Hwf : stream_wf (_transfile_obj r)).
    { destruct (_transfile_obj r); cbn; tauto. }
    destruct (seq_fake_seek stream_wf stream_content stream_read_content
                (_transfile_obj r) (_pos r) k SEEK_SET Hwf
                (or_introl eq_refl) ltac:(cbn; lia))
      as (s' & Hs & Hwf' & Hc).
    rewrite Hs. cbn [bind]. eexists. split; [reflexivity|].
    cbn [set_pos set_transfile_obj _transfile_obj].
    split; [exact Hwf'|]. rewrite Hc. cbn. rewrite Hpos. f_equal. lia.
  - destruct (_transfile_obj r) as [f|c|m]; cbn [stream_content] in *.
    + unfold stream_seek, file_seek. cbn [SEEK_SET Z.eqb bind Z.add].
      destruct (Z.ltb_spec k 0); [lia|].
      cbn [bind]. eexists. split; [reflexivity|].
      cbn [set_transfile_obj _transfile_obj stream_wf stream_content].
      split; [exact I|]. unfold remaining. cbn [f_data f_off].
      rewrite Hstart. reflexivity.
    + destruct Hstart as [Hwf Hp0].
      destruct (cf_seek_spec c k SEEK_SET Hwf (or_introl eq_refl)
                  ltac:(cbn; lia)) as (c' & Hs & Hwf' & Hc & _).
      unfold stream_seek. rewrite Hs. cbn [bind].
      eexists. split; [reflexivity|].
      cbn [set_transfile_obj _transfile_obj stream_wf stream_content].
      split; [exact Hwf'|]. rewrite Hc. cbn. rewrite Hp0. f_equal. lia.
    + contradiction.
Qed.

(** C3.  Forward-seek correctness.  Take a reader nobody has read from or
    moved yet, over a file or a [_CompressedFile], and let [whole] be its
    logical content, of length [L].  For every [k] with [0 <= k <= L],
    [seek(k, SEEK_SET)] followed by [read(L - k)] returns [whole] without
    its first [k] bytes, where [whole] is what [read(L)] returns when nothing
    was sought.  This holds whether the seek is emulated by the reader or
    handed to the stream. *)
Theorem forward_seek_then_read r (k : Z) :
  at_start r ->
  let whole := stream_content (_transfile_obj r) in
  let L := len whole in
  0 <= k <= L ->
  exists r1 r2 r3,
    seek tar_seek r k SEEK_SET = Return r1 /\
    read r1 (L - k) = Return (zdrop k whole, r2) /\
    read r L = Return (whole, r3).
Proof.
  intros Hstart whole L Hk.
  assert (Hwf : stream_wf (_transfile_obj r)).
  { destruct Hstart as [_ Hs]. destruct (_transfile_obj r); cbn; tauto. }
  destruct (tr_seek_from_start r k Hstart Hk) as (r1 & Hs & Hwf1 & Hc1).
  destruct (tr_read_content r1 (L - k) Hwf1 ltac:(lia)) as (r2 & Hr2 & _).
  destruct (tr_read_content r L Hwf ltac:(lia)) as (r3 & Hr3 & _).
  exists r1, r2, r3. split; [exact Hs|]. split.
  - rewrite Hr2, Hc1. fold whole. do 2 f_equal.
    apply ztake_all. rewrite len_zdrop. fold L. lia.
  - rewrite Hr3. fold whole. do 2 f_equal. apply ztake_all. fold L. lia.
Qed.

Variable tar_tell : T -> Z.

(** C4, as amended.  A seek that goes through [_fake_seek_forward] (the
    reader emulates, or its stream is a [_CompressedFile]) and whose target
    is before the position [tell()] reports is refused with the module's
    [Error] for backward seeks, before anything is read. *)
Theorem backward_seek_rejected r (offset whence : Z) :
  seek_is_emulated r ->
  whence = SEEK_SET \/ whence = SEEK_CUR ->
  let target :=
    if whence =? SEEK_SET then offset else tell tar_tell r + offset in
  target < tell tar_tell r ->
  seek tar_seek r offset whence =
    Raise (Error (BackwardSeek (tell tar_tell r) target)).
Proof.
  intros Hem Hw target Hlt. subst target.
  unfold seek_is_emulated, seek, tell, hasattr_tell in *.
  destruct (_force_fake_seek r || negb (hasattr_seek (_transfile_obj r)))
    eqn:Eown.
  - rewrite fake_seek_backward by assumption. reflexivity.
  - destruct Hem as [Habs|[c Hc]]; [discriminate|].
    rewrite Hc in *. cbn [stream_seek stream_tell] in *.
    unfold CompressedFile.seek, CompressedFile.tell in *.
    rewrite fake_seek_backward by assumption. reflexivity.
Qed.

End TransReadProofs.

Lemma forward_seek_then_read_witness :
  exists r1 r2 r3,
    sample_seek gz_reader 2 SEEK_SET = Return r1 /\
    sample_read r1 (6 - 2) =
      Return (list_byte_of_string "accd", r2) /\
    sample_read gz_reader 6 = Return (list_byte_of_string "aaaccd", r3).
Proof.
  apply (forward_seek_then_read (T_FileObj := no_member_read)
           no_member_seek gz_reader 2).
  - split; [reflexivity|]. split; [apply cf_wf_init|reflexivity].
  - vm_compute. split; discriminate.
Defined.

Lemma backward_seek_rejected_witness :
  sample_seek gz_reader 3 SEEK_SET = Return gz_reader_at_3 /\
  sample_tell gz_reader_at_3 = 3 /\
  sample_seek gz_reader_at_3 1 SEEK_SET =
    Raise (Error (BackwardSeek (sample_tell gz_reader_at_3) 1)).
Proof.
  split; [vm_compute; reflexivity|]. split; [vm_compute; reflexivity|].
  apply (backward_seek_rejected (T_FileObj := no_member_read)
           no_member_seek no_member_tell gz_reader_at_3 1 SEEK_SET).
  - right. eexists. vm_compute. reflexivity.
  - left. reflexivity.
  - vm_compute. reflexivity.
Defined.

(** C4, as stated, fails for a reader over a plain local file, whose seeks
    are the file's own: after [read(5)] the position is 5, and
    [seek(2, SEEK_SET)] returns and moves the position back to 2, from where
    [read(100)] gives the digits from 2 on. *)
Lemma backward_seek_on_local_file :
  exists r1 r2 r3,
    sample_open "image.raw" false false digits = Return raw_reader /\
    sample_read raw_reader 5 = Return (list_byte_of_string "01234", r1) /\
    sample_tell r1 = 5 /\
    sample_seek r1 2 SEEK_SET = Return r2 /\
    sample_tell r2 = 2 /\
    sample_read r2 100 = Return (list_byte_of_string "23456789", r3).
Proof.
  do 3 eexists. repeat split; vm_compute; reflexivity.
Qed.

(** ** Sequences of calls *)

Lemma bytes_returned_nonneg (log : list event) : 0 <= bytes_returned log.
Proof.
  induction log as [|e l IH]; cbn [bytes_returned fold_right]; [lia|].
  fold (bytes_returned l).
  destruct e as [buf|n]; [pose proof (len_nonneg buf)|]; lia.
Qed.

Section RunPositions.
Variable O : Type.
Variable o_read : O -> Z -> outcome (bytes * O).
Variable o_seek : O -> Z -> Z -> outcome O.
Variable o_discards : O -> Z -> Z -> Z.
Variable pos : O -> Z.
Hypothesis read_pos : forall o n buf o',
  o_read o n = Return (buf, o') -> pos o' = pos o + len buf.
Hypothesis seek_pos : forall o offset whence o',
  o_seek o offset whence = Return o' ->
  pos o' = pos o + o_discards o offset whence /\
  0 <= o_discards o offset whence.

(** Along any sequence of calls the position grows by what the reads
    returned and what the seeks discarded. *)
Lemma run_position (ops : list op) : forall (o : O) log o',
  run o_read o_seek o_discards ops o = Return (log, o') ->
  pos o' = pos o + bytes_returned log + bytes_discarded log /\
  0 <= bytes_discarded log.
Proof.
  induction ops as [|[n|offset whence] ops IH]; intros o log o' Hrun;
    cbn [run] in Hrun.
  - injection Hrun as <- <-. cbn. lia.
  - destruct (o_read o n) as [[buf o1]| |] eqn:Hr; cbn [bind] in Hrun;
      try discriminate.
    destruct (run o_read o_seek o_discards ops o1) as [[log1 o2]| |] eqn:Hl;
      cbn [bind] in Hrun; try discriminate.
    injection Hrun as <- <-. apply read_pos in Hr. apply IH in Hl.
    cbn [bytes_returned bytes_discarded fold_right].
    fold (bytes_returned log1). fold (bytes_discarded log1). lia.
  - destruct (o_seek o offset whence) as [o1| |] eqn:Hs; cbn [bind] in Hrun;
      try discriminate.
    destruct (run o_read o_seek o_discards ops o1) as [[log1 o2]| |] eqn:Hl;
      cbn [bind] in Hrun; try discriminate.
    injection Hrun as <- <-. apply seek_pos in Hs. apply IH in Hl.
    cbn [bytes_returned bytes_discarded fold_right].
    fold (bytes_returned log1). fold (bytes_discarded log1). lia.
Qed.

End RunPositions.

Lemma fake_seek_discards_nonneg {F : Type} `{FileObj F} (f : F)
    (cur_pos offset whence : Z) :
  0 <= fake_seek_discards f cur_pos offset whence.
Proof. apply total_len_nonneg. Qed.

Section TransReadRuns.
Import TransRead.
Context {D T : Type} {T_FileObj : FileObj T}.
Variable tar_seek : T -> Z -> Z -> outcome T.
Implicit Types (r : t D T) (c : CompressedFile.t D).

Lemma tr_read_pos r (n : Z) (buf : bytes) r' :
  read r n = Return (buf, r') -> _pos r' = _pos r + len buf.
Proof.
  unfold read. intros Hr.
  destruct (obj_read (_transfile_obj r) _) as [[b s]| |];
    cbn [bind] in Hr; try discriminate.
  injection Hr as <- <-. reflexivity.
Qed.

Lemma tr_seek_pos r (offset whence : Z) r' :
  seek tar_seek r offset whence = Return r' ->
  _pos r' = _pos r + own_discards r offset whence /\
  0 <= own_discards r offset whence.
Proof.
  unfold seek, own_discards. intros Hs.
  destruct (_force_fake_seek r || negb (hasattr_seek (_transfile_obj r))).
  - destruct (_fake_seek_forward (_transfile_obj r) (_pos r) offset whence)
      as [[p s]| |] eqn:Hf; cbn [bind] in Hs; try discriminate.
    injection Hs as <-. cbn [set_pos _pos].
    apply fake_seek_returns in Hf. destruct Hf as (_ & _ & Hp & _).
    split; [exact Hp|apply fake_seek_discards_nonneg].
  - destruct (stream_seek tar_seek (_transfile_obj r) offset whence)
      as [s| |]; cbn [bind] in Hs; try discriminate.
    injection Hs as <-. cbn [set_transfile_obj _pos]. lia.
Qed.

Lemma cf_seek_pos c (offset whence : Z) c' :
  CompressedFile.seek c offset whence = Return c' ->
  CompressedFile._pos c' = CompressedFile._pos c + cf_discards c offset whence
  /\ 0 <= cf_discards c offset whence.
Proof.
  intros Hs. apply cf_seek_returns in Hs. destruct Hs as [Hp _].
  split; [exact Hp|apply fake_seek_discards_nonneg].
Qed.

(** C8, as amended.  Each of the two position counters follows its own
    object.  Along every sequence of [read] and [seek] calls that return,
    the counter of a [TransRead] grows by the bytes its [read] calls returned
    plus the bytes discarded by the forward seeks it emulated itself, and the
    counter of a [_CompressedFile] grows by the bytes its [read] calls
    returned plus the bytes its [seek] calls discarded; neither ever
    decreases.  Both counters start at zero. *)
Theorem position_counter_invariant :
  (forall (ops : list op) r log r',
     tr_run tar_seek (own_discards (T_FileObj := T_FileObj)) ops r =
       Return (log, r') ->
     _pos r' = _pos r + bytes_returned log + bytes_discarded log /\
     _pos r <= _pos r') /\
  (forall (ops : list op) c log c',
     cf_run ops c = Return (log, c') ->
     CompressedFile._pos c' =
       CompressedFile._pos c + bytes_returned log + bytes_discarded log /\
     CompressedFile._pos c <= CompressedFile._pos c') /\
  (forall name is_url force file_obj r tfm zl bz,
     _open_compressed_file (D := D) (T := T) tfm zl bz name is_url force
       file_obj = Return r -> _pos r = 0) /\
  (forall file_obj f chunk_size,
     CompressedFile._pos
       (CompressedFile.__init__ (D := D) file_obj f chunk_size) = 0).
Proof.
  split; [|split; [|split]].
  - intros ops r log r' Hrun.
    destruct (run_position (t D T) (@read D T T_FileObj) (seek tar_seek)
                own_discards (@_pos D T) tr_read_pos tr_seek_pos
                ops r log r' Hrun) as [Hp Hd].
    pose proof (bytes_returned_nonneg log). lia.
  - intros ops c log c' Hrun.
    destruct (run_position (CompressedFile.t D)
                (@CompressedFile.read D) (@CompressedFile.seek D)
                (@cf_discards D) (@CompressedFile._pos D)
                (@cf_read_returns D) cf_seek_pos ops c log c' Hrun)
      as [Hp Hd].
    pose proof (bytes_returned_nonneg log). lia.
  - intros name is_url force file_obj r tfm zl bz Ho.
    unfold _open_compressed_file in Ho.
    destruct (endswith name ".tar.gz" || endswith name ".tar.bz2"
              || endswith name ".tgz").
    + destruct (tfm file_obj) as [[m sz]|[]|]; cbn in Ho; try discriminate.
      injection Ho as <-. reflexivity.
    + destruct (endswith name ".gz"); [injection Ho as <-; reflexivity|].
      destruct (endswith name ".bz2"); injection Ho as <-; reflexivity.
  - reflexivity.
Qed.

End TransReadRuns.

(** C8, as stated, fails for a reader over a local compressed file, which
    hands its seeks to the [_CompressedFile]: [seek(3)] makes
    [_fake_seek_forward] discard three bytes and the [_CompressedFile] counts
    them, but the counter of the reader stays at zero. *)
Lemma reader_counter_misses_delegated_seek :
  sample_open "image.gz" false false encoded = Return gz_reader /\
  exists log r',
    tr_run (T_FileObj := no_member_read) no_member_seek
      (all_discards (T_FileObj := no_member_read))
      [Seek 3 SEEK_SET] gz_reader = Return (log, r') /\
    bytes_returned log = 0 /\
    bytes_discarded log = 3 /\
    TransRead._pos r' = 0 /\
    TransRead._pos r' <> bytes_returned log + bytes_discarded log /\
    sample_tell r' = 3.
Proof.
  split; [reflexivity|].
  do 2 eexists. split; [vm_compute; reflexivity|].
  repeat split; try reflexivity. vm_compute. discriminate.
Qed.

Lemma position_counter_invariant_witness :
  exists log r',
    tr_run (T_FileObj := no_member_read) no_member_seek
      (own_discards (T_FileObj := no_member_read))
      [Read 2; Seek 4 SEEK_SET; Read 1] ssh_gz_reader = Return (log, r') /\
    TransRead._pos r' =
      TransRead._pos ssh_gz_reader + bytes_returned log + bytes_discarded log
    /\ TransRead._pos ssh_gz_reader <= TransRead._pos r' /\
    bytes_returned log = 3 /\ bytes_discarded log = 2.
Proof.
  destruct (tr_run (T_FileObj := no_member_read) no_member_seek
              (own_discards (T_FileObj := no_member_read))
              [Read 2; Seek 4 SEEK_SET; Read 1] ssh_gz_reader)
    as [[log r']| |] eqn:Hrun; try (vm_compute in Hrun; discriminate).
  exists log, r'. split; [reflexivity|].
  destruct (position_counter_invariant (T_FileObj := no_member_read)
              (D := option nat) no_member_seek) as [Htr _].
  destruct (Htr _ _ _ _ Hrun) as [Hp Hm].
  split; [exact Hp|]. split; [exact Hm|].
  vm_compute in Hrun. injection Hrun as <- <-. split; reflexivity.
Defined.

(** ** End of stream *)

Section EndOfStream.
Import CompressedFile.
Context {D : Type}.
Implicit Types (c : t D).





(** The states of [cf_wf] are those a [_CompressedFile] goes through when
    it is read with sizes that are not negative, as [TransRead.read] and
    [_fake_seek_forward] do. *)
Lemma cf_run_wf (ops : list op) : forall c log c',
  cf_wf c ->
  Forall (fun o => match o with Read n => 0 <= n | Seek _ _ => True end) ops ->
  cf_run ops c = Return (log, c') -> cf_wf c'.
Proof.
  unfold cf_run.
  induction ops as [|[n|offset whence] ops IH]; intros c log c' Hwf Hops Hrun;
    cbn [run] in Hrun; inversion Hops as [|o ops' Ho Hops']; subst.
  - injection Hrun as <- <-. exact Hwf.
  - destruct (cf_read_spec c n Hwf Ho) as (c1 & Hr & Hwf1 & _).
    rewrite Hr in Hrun. cbn [bind] in Hrun.
    destruct (run _ _ _ ops c1) as [[log1 c2]| |] eqn:Hl;
      cbn [bind] in Hrun; try discriminate.
    injection Hrun as <- <-. eapply IH; eassumption.
  - destruct (seek c offset whence) as [c1| |] eqn:Hs; cbn [bind] in Hrun;
      try discriminate.
    destruct (run _ _ _ ops c1) as [[log1 c2]| |] eqn:Hl;
      cbn [bind] in Hrun; try discriminate.
    injection Hrun as <- <-. eapply IH; [|eassumption|exact Hl].
    pose proof Hs as Hs0. unfold seek in Hs0.
    destruct (_fake_seek_forward c (_pos c) offset whence)
      as [[p c3]| |] eqn:Hf; cbn [bind] in Hs0; try discriminate.
    apply fake_seek_returns in Hf. destruct Hf as (Hw & Hfwd & _).
    destruct (cf_seek_spec c offset whence Hwf Hw Hfwd)
      as (c4 & Hs4 & Hwf4 & _).
    rewrite Hs in Hs4. injection Hs4 as <-. exact Hwf4.
Qed.

(** [read] and the reads of [_fake_seek_forward] on a [_CompressedFile]
    return, with no more than was asked for. *)
Lemma cf_read_returns_bounded c (n : Z) :
  cf_wf c -> 0 < n ->
  exists b c', read c n = Return (b, c') /\ len b <= n /\ cf_wf c'.
Proof.
  intros Hwf Hn.
  exact (seq_read_returns cf_wf cf_logical cf_read_content c n Hwf Hn).
Qed.

End EndOfStream.

(** A negative size, which nothing in the module passes, leaves the buffer
    cursor at -1, and the next [read] fails its assertion. *)
Example negative_size_breaks_state :
  exists c1,
    CompressedFile.read (CompressedFile.__init__ encoded (Some rle) None) (-1)
      = Return ([], c1) /\
    CompressedFile._buffer_pos c1 = -1 /\
    CompressedFile.read c1 1 = Raise AssertionError.
Proof. eexists. repeat split; vm_compute; reflexivity. Qed.

Section TransReadEndOfStream.
Import TransRead.
Context {D T : Type} {T_FileObj : FileObj T}.
Variable tar_seek : T -> Z -> Z -> outcome T.
Implicit Types (r : t D T).

(** [read] with any size: a negative one stands for 2^64 - 1. *)
Lemma tr_read_any r (n : Z) :
  stream_wf (_transfile_obj r) ->
  let size := if n <? 0 then 0xFFFFFFFFFFFFFFFF else n in
  exists r',
    read r n = Return (ztake size (stream_content (_transfile_obj r)), r') /\
    stream_wf (_transfile_obj r') /\
    stream_content (_transfile_obj r') =
      zdrop size (stream_content (_transfile_obj r)).
Proof.
  intros Hwf size.
  assert (Hsz : 0 <= size) by (subst size; destruct (Z.ltb_spec n 0); lia).
  unfold read. fold size.
  destruct (stream_read_content _ size Hwf Hsz) as (s' & Hr & Hwf' & Hc).
  rewrite Hr. cbn [bind]. eexists. split; [reflexivity|].
  cbn [set_pos set_transfile_obj _transfile_obj]. auto.
Qed.





End TransReadEndOfStream.




(** ** [_open_compressed_file] *)

(** [endswith] decides whether a string is some prefix followed by the
    suffix, character for character. *)
Lemma endswith_spec (s suffix : string) :
  endswith s suffix = true <-> exists p, s = (p ++ suffix)%string.
Proof.
  split.
  - induction s as [|a s IH]; cbn [endswith].
    + destruct (String.eqb_spec ""%string suffix) as [<-|]; [|discriminate].
      intros _. exists ""%string. reflexivity.
    + destruct (String.eqb_spec (String a s) suffix) as [<-|].
      * intros _. exists ""%string. reflexivity.
      * intros H. destruct (IH H) as [p ->].
        exists (String a p). reflexivity.
  - intros [p ->]. induction p as [|a p IH]; cbn [String.append endswith].
    + destruct suffix; cbn [endswith]; now rewrite String.eqb_refl.
    + destruct (String.eqb (String a (p ++ suffix)) suffix);
        [reflexivity|exact IH].
Qed.

Lemma endswith_false (s suffix : string) :
  endswith s suffix = false <-> ~ exists p, s = (p ++ suffix)%string.
Proof.
  rewrite <- endswith_spec. destruct (endswith s suffix); split; intros;
    congruence.
Qed.

Section FormatDetection.
Import TransRead.
Context {D T : Type}.
Variable tarfile_first_member : pyfile -> outcome (T * Z).
Variable zlib_decompressobj : Z -> CompressedFile.decompress_func D.
Variable bz2_BZ2Decompressor : CompressedFile.decompress_func D.

Local Abbreviation open :=
  (_open_compressed_file tarfile_first_member zlib_decompressobj
     bz2_BZ2Decompressor).

(** C6.  The format is decided by the suffix of the name alone, compared
    character for character, in this order.  A name ending in [.tar.gz],
    [.tar.bz2] or [.tgz] gives the stream of the first member of the archive
    with the size of that member.  Otherwise a name ending in [.gz] gives a
    [_CompressedFile] with the gzip decompressor and the default chunk size
    of 128 KiB, and otherwise a name ending in [.bz2] gives one with the
    bzip2 decompressor and a chunk size of 128 bytes; the size is not known
    for either.  Any other name gives the file as it is, not compressed,
    with the size from the file system when the reader is not a URL and no
    size when it is. *)
Theorem format_by_suffix (name : string) (is_url force : bool)
    (file_obj : pyfile) :
  let ends suffix := exists p, name = (p ++ suffix)%string in
  let tar := ends ".tar.gz"%string \/ ends ".tar.bz2"%string
             \/ ends ".tgz"%string in
  (tar ->
   forall m member_size,
     tarfile_first_member file_obj = Return (m, member_size) ->
     open name is_url force file_obj =
       Return (mk name (Some member_size) true is_url (TarMember m) force 0))
  /\
  (~ tar -> ends ".gz"%string ->
   exists c,
     open name is_url force file_obj =
       Return (mk name None true is_url (Compressed c) force 0) /\
     c = CompressedFile.__init__ file_obj
           (Some (zlib_decompressobj (16 + MAX_WBITS))) None /\
     CompressedFile._chunk_size c = 128 * 1024) /\
  (~ tar -> ~ ends ".gz"%string -> ends ".bz2"%string ->
   exists c,
     open name is_url force file_obj =
       Return (mk name None true is_url (Compressed c) force 0) /\
     c = CompressedFile.__init__ file_obj (Some bz2_BZ2Decompressor)
           (Some 128) /\
     CompressedFile._chunk_size c = 128) /\
  (~ tar -> ~ ends ".gz"%string -> ~ ends ".bz2"%string ->
   open name is_url force file_obj =
     Return (mk name
               (if is_url then None else Some (len (f_data file_obj)))
               false is_url (Plain file_obj) force 0)).
Proof.
  intros ends tar.
  assert (Htar : endswith name ".tar.gz" || endswith name ".tar.bz2"
                 || endswith name ".tgz" = true <-> tar).
  { unfold tar, ends. rewrite !orb_true_iff, !endswith_spec. tauto. }
  unfold _open_compressed_file.
  destruct (endswith name ".tar.gz" || endswith name ".tar.bz2"
            || endswith name ".tgz") eqn:Et.
  - assert (Ht : tar) by now apply Htar.
    split; [|repeat split; intros Hn; contradiction].
    intros _ m member_size Hm. rewrite Hm. reflexivity.
  - assert (Hnt : ~ tar) by (intros Ht; apply Htar in Ht; discriminate).
    split; [intros Ht; contradiction|].
    destruct (endswith name ".gz") eqn:Eg.
    + assert (Hg : ends ".gz"%string) by now apply endswith_spec.
      split; [|split; intros; contradiction].
      intros _ _. eexists. split; [reflexivity|]. split; reflexivity.
    + assert (Hng : ~ ends ".gz"%string) by now apply endswith_false.
      split; [intros; contradiction|].
      destruct (endswith name ".bz2") eqn:Eb.
      * assert (Hb : ends ".bz2"%string) by now apply endswith_spec.
        split; [|intros; contradiction].
        intros _ _ _. eexists. split; [reflexivity|]. split; reflexivity.
      * assert (Hnb : ~ ends ".bz2"%string) by now apply endswith_false.
        split; [intros; contradiction|].
        intros _ _ _. cbn [except_IOError]. destruct is_url; reflexivity.
Qed.

(** What becomes of an exception of the tar library: only an [IOError] is
    turned into the module's [Error]. *)
Lemma open_tar_raises (name : string) (is_url force : bool)
    (file_obj : pyfile) (e : exn) :
  endswith name ".tar.gz" || endswith name ".tar.bz2"
  || endswith name ".tgz" = true ->
  tarfile_first_member file_obj = Raise e ->
  open name is_url force file_obj =
    match e with
    | IOError cause => Raise (Error (CannotOpenFile name cause))
    | _ => Raise e
    end.
Proof.
  intros Ht He. unfold _open_compressed_file. rewrite Ht, He.
  destruct e; reflexivity.
Qed.

End FormatDetection.

Lemma format_by_suffix_witness :
  exists c,
    sample_open "image.bz2" true true encoded =
      Return (TransRead.mk "image.bz2" None true true (TransRead.Compressed c)
                true 0) /\
    c = CompressedFile.__init__ encoded (Some rle) (Some 128) /\
    CompressedFile._chunk_size c = 128.
Proof.
  destruct (format_by_suffix
              (fun _ => Raise (OtherException "tarfile.ReadError"
                                 "file could not be opened successfully"))
              (fun _ => rle) rle "image.bz2" true true encoded
              (D := option nat) (T := Empty_set))
    as (_ & _ & Hbz2 & _).
  apply Hbz2.
  - intros [H|[H|H]]; apply endswith_spec in H; discriminate H.
  - intros H. apply endswith_spec in H. discriminate H.
  - exists "image"%string. reflexivity.
Defined.

(** The order of the tests and the exact comparison at work: a [.tar.gz]
    name also ends in [.gz] and is handed to the tar library, whose answer
    here is an exception; upper-case letters make a different suffix; [.gz]
    gets the default chunk size; the size of a plain file is recorded for a
    local file only. *)
Example format_samples :
  endswith "image.tar.gz" ".gz" = true /\
  sample_open "IMAGE.GZ" false false encoded =
    Return (TransRead.mk "IMAGE.GZ" (Some 8) false false
              (TransRead.Plain encoded) false 0) /\
  sample_open "image.gz" false false encoded = Return gz_reader /\
  match TransRead._transfile_obj gz_reader with
  | TransRead.Compressed c => CompressedFile._chunk_size c = 131072
  | _ => False
  end /\
  sample_open "image.raw" false false digits = Return raw_reader /\
  sample_open "http://host/image.raw" true false digits =
    Return (TransRead.mk "http://host/image.raw" None false true
              (TransRead.Plain digits) false 0).
Proof. repeat split. Qed.

(** C9.  Opening ["image.tar.gz"] when the tar library raises its own
    [tarfile.ReadError] over a malformed archive: the [except IOError]
    clause does not catch it, and the caller gets the library's exception,
    not the module's [Error]. *)
Theorem open_tar_read_error_escapes :
  sample_open "image.tar.gz" false false encoded =
    Raise (OtherException "tarfile.ReadError"
             "file could not be opened successfully") /\
  forall m, sample_open "image.tar.gz" false false encoded <> Raise (Error m).
Proof. split; [reflexivity|]. intros m H. discriminate H. Qed.

(** An [IOError] of the library, on the other hand, is wrapped. *)
Example open_tar_io_error_wrapped :
  TransRead._open_compressed_file (D := option nat) (T := Empty_set)
    (fun _ => Raise (IOError "read error")) (fun _ => rle) rle
    "image.tgz" false false encoded =
  Raise (Error (CannotOpenFile "image.tgz" "read error")).
Proof. reflexivity. Qed.

(** * Further properties of the module *)

(** ** [_decode_sshpass_exit_code] *)

(** X1.  The reasons tell the exit codes apart: two codes with the same
    reason, other than ["unknown"], are the same code, and the reason is
    ["unknown"] exactly for the codes outside 1..6 and 255. *)
Theorem decode_sshpass_exit_code_distinct (a b : Z) :
  (_decode_sshpass_exit_code a = _decode_sshpass_exit_code b ->
   _decode_sshpass_exit_code a <> "unknown"%string -> a = b) /\
  (_decode_sshpass_exit_code a = "unknown"%string <->
   ~ (1 <= a <= 6 \/ a = 255)).
Proof.
  unfold _decode_sshpass_exit_code.
  repeat match goal with
         | |- context [?x =? ?y] => destruct (Z.eqb_spec x y)
         end; subst;
    (split; [intros He Hu; try discriminate He; try lia; try congruence
            |split; intros Hx; try reflexivity; try discriminate Hx;
             try lia]).
Qed.

Lemma decode_sshpass_exit_code_distinct_witness :
  _decode_sshpass_exit_code 5 = _decode_sshpass_exit_code 5 /\
  _decode_sshpass_exit_code 5 <> "unknown"%string /\ 5 = 5.
Proof.
  split; [reflexivity|]. split; [discriminate|].
  apply (proj1 (decode_sshpass_exit_code_distinct 5 5));
    [reflexivity|discriminate].
Defined.

(** ** Reading a [_CompressedFile] in pieces *)

Section CompressedFilePieces.
Import CompressedFile.
Context {D : Type}.
Implicit Types (c : t D).

Lemma cf_run_of_reads (sizes : list Z) : forall c,
  cf_wf c -> Forall (fun n => 0 <= n) sizes ->
  exists log c',
    cf_run (map Read sizes) c = Return (log, c') /\
    received log = ztake (fold_right Z.add 0 sizes) (cf_logical c) /\
    0 <= fold_right Z.add 0 sizes.
Proof.
  unfold cf_run.
  induction sizes as [|n sizes IH]; intros c Hwf Hs; cbn [map run fold_right].
  - exists [], c. rewrite ztake_nonpos by lia. repeat split; lia.
  - inversion Hs as [|x l Hn Hs']; subst.
    destruct (cf_read_spec c n Hwf Hn) as (c1 & Hr & Hwf1 & Hl1 & _).
    rewrite Hr. cbn [bind].
    destruct (IH c1 Hwf1 Hs') as (log & c' & Hrun & Hrec & Hsum).
    rewrite Hrun. cbn [bind]. exists (Got (ztake n (cf_logical c)) :: log), c'.
    split; [reflexivity|]. split; [|lia].
    cbn [received fold_right]. fold (received log).
    rewrite Hrec, Hl1. symmetry. apply ztake_zdrop_split; lia.
Qed.

Lemma cf_logical_new (raw : pyfile) (f : option (decompress_func D))
    (chunk_size : option Z) :
  cf_logical (__init__ raw f chunk_size) =
  one_shot f (_chunk_size (__init__ raw f chunk_size)) (remaining raw).
Proof.
  unfold cf_logical, cf_rest.
  cbn [__init__ _buffer _buffer_pos _decompress_func _file_obj].
  now rewrite zdrop_nil.
Qed.

(** X2.  The sizes of the reads do not matter.  Whatever sizes (none of
    them negative) a new [_CompressedFile] is read with, the calls return,
    and what they return, put end to end, is the beginning of the one-shot
    decompression of the raw file, as long as the sizes add up to. *)
Theorem reads_in_pieces (raw : pyfile) (f : option (decompress_func D))
    (chunk_size : option Z) (sizes : list Z) :
  Forall (fun n => 0 <= n) sizes ->
  let c0 := __init__ raw f chunk_size in
  exists log c',
    cf_run (map Read sizes) c0 = Return (log, c') /\
    received log =
      ztake (fold_right Z.add 0 sizes)
        (one_shot f (_chunk_size c0) (remaining raw)).
Proof.
  intros Hs c0.
  destruct (cf_run_of_reads sizes c0 (cf_wf_init raw f chunk_size) Hs)
    as (log & c' & Hrun & Hrec & _).
  exists log, c'. split; [exact Hrun|].
  rewrite Hrec. unfold c0. now rewrite cf_logical_new.
Qed.

End CompressedFilePieces.

Lemma reads_in_pieces_witness :
  exists log c',
    cf_run (map Read [1; 0; 3; 4])
      (CompressedFile.__init__ encoded (Some rle) (Some 3)) =
      Return (log, c') /\
    received log =
      ztake (fold_right Z.add 0 [1; 0; 3; 4])
        (one_shot (Some rle) 3 (remaining encoded)).
Proof.
  apply (reads_in_pieces encoded (Some rle) (Some 3) [1; 0; 3; 4]).
  repeat constructor; lia.
Defined.

(** ** The size of the buffer *)

Section AnyFileObject.
Context {F : Type} `{FileObj F}.

(** What every read keeps, the loop of [_fake_seek_forward] keeps. *)
Lemma seek_loop_preserves (P : F -> Prop) :
  (forall f n b f', P f -> obj_read f n = Return (b, f') -> P f') ->
  forall (fuel : nat) (f : F) (k k' : Z) (f' : F),
    P f -> seek_loop fuel f k = Return (k', f') -> P f'.
Proof.
  intros Hread. induction fuel as [|fuel IH]; intros f k k' f' Hp Hl;
    cbn [seek_loop] in Hl; destruct (k >? 0); try discriminate;
    try (injection Hl as <- <-; exact Hp).
  destruct (obj_read f (Z.min k (1024 * 1024))) as [[buf f1]| |] eqn:Hr;
    cbn [bind] in Hl; try discriminate.
  pose proof (Hread _ _ _ _ Hp Hr) as Hp1.
  destruct (is_empty buf).
  - injection Hl as <- <-. exact Hp1.
  - eapply IH; eassumption.
Qed.

Lemma fake_seek_preserves (P : F -> Prop) :
  (forall f n b f', P f -> obj_read f n = Return (b, f') -> P f') ->
  forall (f : F) (cur_pos offset whence p : Z) (f' : F),
    P f -> _fake_seek_forward f cur_pos offset whence = Return (p, f') ->
    P f'.
Proof.
  intros Hread f cur_pos offset whence p f' Hp Hs.
  unfold _fake_seek_forward in Hs.
  destruct (if whence =? SEEK_SET then Return offset
            else if whence =? SEEK_CUR then Return (cur_pos + offset)
            else Raise (Error (BadWhence whence))) as [new_pos| |];
    cbn [bind] in Hs; try discriminate.
  destruct (new_pos <? cur_pos); [discriminate|].
  destruct (seek_loop _ f (new_pos - cur_pos)) as [[k' f1]| |] eqn:Hl;
    cbn [bind] in Hs; try discriminate.
  destruct (k' <? 0); [discriminate|]. injection Hs as <- <-.
  eapply seek_loop_preserves; eassumption.
Qed.

End AnyFileObject.

Section CompressedFileBuffer.
Import CompressedFile.
Context {D : Type}.
Implicit Types (c self : t D).

Lemma read_from_buffer_within (B : Z) self (n : Z) :
  buffer_within B self ->
  buffer_within B (snd (_read_from_buffer self n)).
Proof.
  intros (Hb & Hcs & Hout). unfold _read_from_buffer.
  destruct (_ >? _); cbn [snd]; unfold buffer_within;
    cbn [set_buffer_pos set_buffer _buffer _chunk_size _decompress_func].
  - auto.
  - pose proof (len_nonneg (_buffer self)). rewrite len_nil.
    repeat split; auto; lia.
Qed.

Lemma read_loop_within (B : Z) (fuel : nat) : forall self (data : bytes)
    (size : Z) (data' : bytes) self',
  buffer_within B self ->
  read_loop fuel self data size = Return (data', self') ->
  buffer_within B self'.
Proof.
  induction fuel as [|fuel IH]; intros self data size data' self' Hw Hl;
    cbn [read_loop] in Hl; destruct (size >? 0);
    try discriminate; try (injection Hl as <- <-; exact Hw).
  destruct (file_read_chunk (_file_obj self) (_chunk_size self))
    as (f1 & Hr & _).
  rewrite Hr in Hl. cbn [bind] in Hl.
  set (chunk := next_chunk (_chunk_size self) (remaining (_file_obj self)))
    in *.
  destruct Hw as (Hb & Hcs & Hout).
  assert (Hchunk : len chunk <= _chunk_size self).
  { unfold chunk. rewrite next_chunk_pos by lia. rewrite len_ztake. lia. }
  destruct (is_empty chunk); [injection Hl as <- <-; repeat split; auto|].
  assert (Hrest : forall self1 out,
    buffer_within B self1 -> len out <= B ->
    (_ <- assert (len (_buffer self1) =? 0) ;;
     _ <- assert (_buffer_pos self1 =? 0) ;;
     if len out >=? size then
       let self2 := set_buffer self1 out in
       let '(d, self3) := _read_from_buffer self2 size in
       read_loop fuel self3 (data ++ d) (size - len out)
     else read_loop fuel self1 (data ++ out) (size - len out)) =
    Return (data', self') -> buffer_within B self').
  { intros self1 out Hw1 Ho H1.
    destruct (assert (len (_buffer self1) =? 0)); cbn [bind] in H1;
      try discriminate.
    destruct (assert (_buffer_pos self1 =? 0)); cbn [bind] in H1;
      try discriminate.
    destruct (len out >=? size).
    - cbv zeta in H1.
      assert (Hw2 : buffer_within B (set_buffer self1 out)).
      { destruct Hw1 as (_ & Hc1 & Ho1). repeat split; auto. }
      pose proof (read_from_buffer_within B _ size Hw2) as Hw3.
      destruct (_read_from_buffer (set_buffer self1 out) size) as [d self3].
      eapply IH; [exact Hw3|exact H1].
    - eapply IH; [exact Hw1|exact H1]. }
  cbn [set_file_obj _decompress_func] in Hl.
  destruct (_decompress_func self) as [g|] eqn:Eg.
  - unfold call in Hl.
    pose proof (Hout (d_self g) chunk Hchunk) as Ho.
    destruct (d_decompress g (d_self g) chunk) as [out d'].
    cbn [fst] in Ho.
    match type of Hl with context [set_decompress_func ?s ?v] =>
      assert (Hw1 : buffer_within B (set_decompress_func s v))
        by (repeat split; auto) end.
    destruct (is_empty out).
    + eapply IH; [exact Hw1|exact Hl].
    + eapply Hrest; [exact Hw1|exact Ho|exact Hl].
  - eapply Hrest;
      [|apply Z.le_trans with (_chunk_size self); [exact Hchunk|exact Hout]
       |exact Hl].
    unfold buffer_within.
    cbn [set_file_obj _buffer _chunk_size _decompress_func].
    rewrite Eg. repeat split; auto.
Qed.

Lemma cf_read_within (B : Z) self (n : Z) (data : bytes) self' :
  buffer_within B self -> read self n = Return (data, self') ->
  buffer_within B self'.
Proof.
  unfold read. intros Hw Hr.
  destruct (assert (_pos self >=? 0)); cbn [bind] in Hr; try discriminate.
  destruct (assert (_buffer_pos self >=? 0)); cbn [bind] in Hr;
    try discriminate.
  destruct (assert (_buffer_pos self <=? len (_buffer self)));
    cbn [bind] in Hr; try discriminate.
  destruct (_eof self); [injection Hr as <- <-; exact Hw|].
  pose proof (read_from_buffer_within B self n Hw) as Hw1.
  destruct (_read_from_buffer self n) as [d self1]. cbn [snd] in Hw1.
  destruct (read_loop _ self1 d (n - len d)) as [[d2 self2]| |] eqn:Hl;
    cbn [bind] in Hr; try discriminate.
  injection Hr as <- <-.
  exact (read_loop_within B _ _ _ _ _ _ Hw1 Hl).
Qed.

Lemma cf_seek_within (B : Z) self (offset whence : Z) self' :
  buffer_within B self -> seek self offset whence = Return self' ->
  buffer_within B self'.
Proof.
  unfold seek. intros Hw Hs.
  destruct (_fake_seek_forward self (_pos self) offset whence)
    as [[p self1]| |] eqn:Hf; cbn [bind] in Hs; try discriminate.
  injection Hs as <-.
  change (buffer_within B self1).
  eapply (fake_seek_preserves (buffer_within B)); [|exact Hw|exact Hf].
  intros c n b c' Hc Hr. eapply cf_read_within; eassumption.
Qed.

Lemma cf_run_within (B : Z) (ops : list op) : forall c log c',
  buffer_within B c -> cf_run ops c = Return (log, c') ->
  buffer_within B c'.
Proof.
  unfold cf_run.
  induction ops as [|[n|offset whence] ops IH]; intros c log c' Hw Hrun;
    cbn [run] in Hrun.
  - injection Hrun as <- <-. exact Hw.
  - destruct (read c n) as [[buf c1]| |] eqn:Hr; cbn [bind] in Hrun;
      try discriminate.
    destruct (run _ _ _ ops c1) as [[log1 c2]| |] eqn:Hl;
      cbn [bind] in Hrun; try discriminate.
    injection Hrun as <- <-.
    eapply IH; [eapply cf_read_within; eassumption|exact Hl].
  - destruct (seek c offset whence) as [c1| |] eqn:Hs; cbn [bind] in Hrun;
      try discriminate.
    destruct (run _ _ _ ops c1) as [[log1 c2]| |] eqn:Hl;
      cbn [bind] in Hrun; try discriminate.
    injection Hrun as <- <-.
    eapply IH; [eapply cf_seek_within; eassumption|exact Hl].
Qed.

(** X3.  The buffer stays small.  If the decompress function never gives
    more than [B] bytes for a chunk of at most [chunk_size] bytes (or there
    is no function and [chunk_size <= B]), then after any [read] and [seek]
    calls on a new [_CompressedFile] the internal buffer holds at most [B]
    bytes, however much was asked for and whatever the raw file holds. *)
Theorem buffer_stays_within (raw : pyfile) (f : option (decompress_func D))
    (chunk_size : option Z) (B : Z) (ops : list op) (log : list event) c' :
  let c0 := __init__ raw f chunk_size in
  0 < _chunk_size c0 ->
  0 <= B ->
  output_bound f (_chunk_size c0) B ->
  cf_run ops c0 = Return (log, c') ->
  len (_buffer c') <= B.
Proof.
  intros c0 Hcs HB Hout Hrun.
  assert (Hw : buffer_within B c0) by (repeat split; auto).
  destruct (cf_run_within B ops c0 log c' Hw Hrun) as [Hb _]. exact Hb.
Qed.

End CompressedFileBuffer.

Lemma buffer_stays_within_witness :
  exists log c',
    cf_run [Read 2; Seek 5 SEEK_SET; Read 1]
      (CompressedFile.__init__ digits
         (@None (CompressedFile.decompress_func unit)) (Some 4)) =
      Return (log, c') /\
    len (CompressedFile._buffer c') <= 4.
Proof.
  destruct (cf_run [Read 2; Seek 5 SEEK_SET; Read 1]
              (CompressedFile.__init__ digits
                 (@None (CompressedFile.decompress_func unit)) (Some 4)))
    as [[log c']| |] eqn:Hrun; try (vm_compute in Hrun; discriminate).
  exists log, c'. split; [reflexivity|].
  apply (buffer_stays_within digits None (Some 4) 4
           [Read 2; Seek 5 SEEK_SET; Read 1] log c');
    [reflexivity|lia|cbn; lia|exact Hrun].
Defined.

(** ** [tell] *)

Lemma zdrop_advance (whole content : bytes) (t n : Z) :
  content = zdrop t whole -> 0 <= t -> 0 <= n ->
  zdrop n content = zdrop (t + Z.min n (len content)) whole.
Proof.
  intros -> Ht Hn. rewrite zdrop_zdrop by lia.
  destruct (Z.le_gt_cases n (len (zdrop t whole))) as [Hle|Hgt].
  - f_equal. lia.
  - rewrite len_zdrop in *. rewrite !zdrop_all; [reflexivity|lia|lia].
Qed.

Section TellProofs.
Import TransRead.
Context {D T : Type} {T_FileObj : FileObj T}.
Variable tar_seek : T -> Z -> Z -> outcome T.
Variable tar_tell : T -> Z.
Implicit Types (r : t D T) (s : stream D T).

Lemma stream_read_full s (n : Z) (h : bool) (whole : bytes) :
  same_kind h whole s -> 0 <= n ->
  exists s',
    obj_read s n = Return (ztake n (stream_content s), s') /\
    same_kind h whole s' /\
    stream_content s' = zdrop n (stream_content s) /\
    stream_tell tar_tell s' =
      stream_tell tar_tell s + len (ztake n (stream_content s)).
Proof.
  intros (Hwf & Hh & Hd) Hn.
  destruct s as [f|c|m]; cbn [stream_wf stream_content] in *.
  - destruct (file_read_content f n I Hn) as (f' & Hr & _ & Hc).
    exists (Plain f'). unfold obj_read, stream_FileObj, stream_read.
    rewrite Hr. cbn [bind]. split; [reflexivity|].
    rewrite (file_read_exact f n Hn) in Hr. injection Hr as <-.
    unfold same_kind. cbn [stream_wf hasattr_seek stream_tell f_data
                             f_has_seek f_off file_tell stream_content].
    repeat split; auto. unfold file_tell, len. cbn [f_off]. lia.
  - destruct (cf_read_spec c n Hwf Hn) as (c' & Hr & Hwf' & Hc & Hp & _).
    exists (Compressed c'). unfold obj_read, stream_FileObj, stream_read.
    change (obj_read c n) with (CompressedFile.read c n).
    rewrite Hr. cbn [bind]. split; [reflexivity|].
    unfold same_kind. cbn [stream_wf hasattr_seek stream_tell
                             stream_content] in *.
    unfold CompressedFile.tell.
    split; [split; [exact Hwf'|split; [exact Hh|exact I]]|].
    split; [exact Hc|exact Hp].
  - contradiction.
Qed.

Lemma tell_in_same_kind (whole : bytes) r :
  tell_in tar_tell whole r ->
  same_kind (hasattr_seek (_transfile_obj r)) whole (_transfile_obj r).
Proof. intros (Hwf & _ & _ & Hd). repeat split; auto. Qed.

Lemma tell_in_read (whole : bytes) r (n : Z) (buf : bytes) r' :
  tell_in tar_tell whole r -> read r n = Return (buf, r') ->
  tell_in tar_tell whole r'.
Proof.
  intros Hin Hr. pose proof (tell_in_same_kind whole r Hin) as Hk.
  destruct Hin as (Hwf & Ht & Hc & Hd).
  unfold read in Hr.
  set (size := if n <? 0 then 0xFFFFFFFFFFFFFFFF else n) in *.
  assert (Hsz : 0 <= size) by (subst size; destruct (Z.ltb_spec n 0); lia).
  destruct (stream_read_full _ size _ whole Hk Hsz)
    as (s' & Hrs & (Hwf' & Hh' & Hd') & Hc' & Htell').
  rewrite Hrs in Hr. cbn [bind] in Hr. injection Hr as <- <-.
  match goal with |- tell_in _ _ ?R => set (r1 := R) end.
  assert (Hs1 : _transfile_obj r1 = s') by reflexivity.
  assert (Hnew : tell tar_tell r1 =
                 tell tar_tell r +
                 len (ztake size (stream_content (_transfile_obj r)))).
  { unfold tell, hasattr_tell. rewrite Hs1, Hh'.
    change (_force_fake_seek r1) with (_force_fake_seek r).
    destruct (_force_fake_seek r || negb (hasattr_seek (_transfile_obj r)));
      [reflexivity|exact Htell']. }
  unfold tell_in. rewrite Hnew, Hs1.
  pose proof (len_nonneg (ztake size (stream_content (_transfile_obj r)))).
  split; [exact Hwf'|]. split; [lia|]. split; [|exact Hd'].
  rewrite Hc', len_ztake.
  rewrite (zdrop_advance whole _ (tell tar_tell r) size Hc Ht Hsz).
  f_equal. lia.
Qed.

Lemma tell_in_seek (whole : bytes) r (offset whence : Z) r' :
  tell_in tar_tell whole r -> seek tar_seek r offset whence = Return r' ->
  tell_in tar_tell whole r'.
Proof.
  intros Hin Hs. pose proof (tell_in_same_kind whole r Hin) as Hk.
  destruct Hin as (Hwf & Ht & Hc & Hd).
  unfold seek in Hs. unfold tell_in, tell, hasattr_tell in *.
  destruct (_force_fake_seek r || negb (hasattr_seek (_transfile_obj r)))
    eqn:Eown.
  - destruct (_fake_seek_forward (_transfile_obj r) (_pos r) offset whence)
      as [[p s1]| |] eqn:Hf; cbn [bind] in Hs; try discriminate.
    injection Hs as <-.
    pose proof (fake_seek_returns _ _ _ _ _ _ Hf) as (Hw & Hfwd & _).
    destruct (seq_fake_seek
                (same_kind (hasattr_seek (_transfile_obj r)) whole)
                stream_content
                (fun s n Hs Hn =>
                   match stream_read_full s n _ whole Hs Hn with
                   | ex_intro _ s' (conj A (conj B (conj C _))) =>
                       ex_intro _ s' (conj A (conj B C))
                   end)
                (_transfile_obj r) (_pos r) offset whence Hk Hw Hfwd)
      as (s2 & Hf2 & (Hwf2 & Hh2 & Hd2) & Hc2).
    rewrite Hf in Hf2. injection Hf2 as -> ->.
    cbn [set_pos set_transfile_obj _force_fake_seek _transfile_obj _pos].
    rewrite Hh2, Eown.
    set (new_pos := if whence =? SEEK_SET then offset else _pos r + offset)
      in *.
    pose proof (len_nonneg (stream_content (_transfile_obj r))).
    split; [exact Hwf2|]. split; [lia|]. split; [|exact Hd2].
    rewrite Hc2.
    rewrite (zdrop_advance whole _ (_pos r) (new_pos - _pos r) Hc Ht
               ltac:(lia)).
    f_equal. lia.
  - destruct (stream_seek tar_seek (_transfile_obj r) offset whence)
      as [s1| |] eqn:Hss; cbn [bind] in Hs; try discriminate.
    injection Hs as <-.
    cbn [set_transfile_obj _force_fake_seek _transfile_obj _pos].
    destruct (_transfile_obj r) as [f|c|m] eqn:Es;
      cbn [stream_wf stream_content stream_tell stream_seek hasattr_seek]
        in *; [| |contradiction].
    + unfold file_seek in Hss.
      destruct (if whence =? SEEK_SET then Return 0
                else if whence =? SEEK_CUR then Return (Z.of_nat (f_off f))
                else if whence =? SEEK_END then Return (len (f_data f))
                else Raise (IOError "Invalid argument")) as [base| |];
        cbn [bind] in Hss; try discriminate.
      destruct (Z.ltb_spec (base + offset) 0); cbn [bind] in Hss;
        [discriminate|].
      injection Hss as <-.
      cbn [hasattr_seek stream_wf stream_content stream_tell file_tell
             f_has_seek f_off f_data].
      rewrite Eown. unfold remaining, file_tell. cbn [f_off f_data].
      split; [exact I|]. split; [lia|]. split; [|exact Hd].
      rewrite Hd. unfold zdrop. f_equal. lia.
    + destruct (CompressedFile.seek c offset whence) as [c1| |] eqn:Hcs;
        cbn [bind] in Hss; try discriminate.
      injection Hss as <-.
      pose proof Hcs as Hcs0. unfold CompressedFile.seek in Hcs0.
      destruct (_fake_seek_forward c (CompressedFile._pos c) offset whence)
        as [[p c2]| |] eqn:Hf; cbn [bind] in Hcs0; try discriminate.
      pose proof (fake_seek_returns _ _ _ _ _ _ Hf) as (Hw & Hfwd & _).
      destruct (cf_seek_spec c offset whence Hwf Hw Hfwd)
        as (c3 & Hs3 & Hwf3 & Hl3 & Hp3 & _).
      rewrite Hcs in Hs3. injection Hs3 as <-.
      cbn [hasattr_seek stream_wf stream_content stream_tell].
      unfold CompressedFile.tell in *. cbn [negb orb] in *. rewrite Eown.
      set (new_pos := if whence =? SEEK_SET then offset
                      else CompressedFile._pos c + offset) in *.
      pose proof (len_nonneg (cf_logical c)).
      split; [exact Hwf3|]. split; [lia|]. split; [|exact I].
      rewrite Hl3, Hp3.
      rewrite (zdrop_advance whole _ (CompressedFile._pos c)
                 (new_pos - CompressedFile._pos c) Hc Ht ltac:(lia)).
      f_equal. lia.
Qed.

Lemma tell_in_run (whole : bytes) (discards : t D T -> Z -> Z -> Z)
    (ops : list op) : forall r log r',
  tell_in tar_tell whole r ->
  tr_run tar_seek discards ops r = Return (log, r') ->
  tell_in tar_tell whole r'.
Proof.
  unfold tr_run.
  induction ops as [|[n|offset whence] ops IH]; intros r log r' Hin Hrun;
    cbn [run] in Hrun.
  - injection Hrun as <- <-. exact Hin.
  - destruct (read r n) as [[buf r1]| |] eqn:Hr; cbn [bind] in Hrun;
      try discriminate.
    destruct (run _ _ _ ops r1) as [[log1 r2]| |] eqn:Hl;
      cbn [bind] in Hrun; try discriminate.
    injection Hrun as <- <-.
    eapply IH; [eapply tell_in_read; eassumption|exact Hl].
  - destruct (seek tar_seek r offset whence) as [r1| |] eqn:Hs;
      cbn [bind] in Hrun; try discriminate.
    destruct (run _ _ _ ops r1) as [[log1 r2]| |] eqn:Hl;
      cbn [bind] in Hrun; try discriminate.
    injection Hrun as <- <-.
    eapply IH; [eapply tell_in_seek; eassumption|exact Hl].
Qed.

Lemma at_start_tell_in r :
  at_start r -> tell_in tar_tell (stream_content (_transfile_obj r)) r.
Proof.
  unfold at_start, tell_in, tell, hasattr_tell.
  destruct r as [nm sz ic iu s ff p].
  cbn [_pos _transfile_obj _force_fake_seek].
  intros [Hp Hs].
  destruct s as [f|c|m]; cbn [stream_wf stream_content stream_tell
                                hasattr_seek] in *; [| |contradiction].
  - assert (Ht : (if ff || negb (f_has_seek f) then p else file_tell f) = 0)
      by (unfold file_tell; destruct (ff || negb (f_has_seek f)); lia).
    rewrite Ht. rewrite zdrop_nonpos by lia.
    repeat split; auto; try lia. unfold remaining. now rewrite Hs.
  - destruct Hs as [Hwf Hc0]. unfold CompressedFile.tell.
    assert (Ht : (if ff || negb true then p else CompressedFile._pos c) = 0)
      by (destruct (ff || negb true); lia).
    rewrite Ht. rewrite zdrop_nonpos by lia.
    split; [exact Hwf|]. split; [lia|]. split; [reflexivity|exact I].
Qed.

(** X4.  [tell()] is the offset in the content.  Take a reader nobody has
    used yet, over a file or a [_CompressedFile], with content [whole].
    After any [read] and [seek] calls that return, whichever way the seeks
    were carried out, [tell()] is not negative and what the next [read]
    returns is [whole] from the offset [tell()] on. *)
Theorem tell_is_offset_in_content r (discards : t D T -> Z -> Z -> Z)
    (ops : list op) (log : list event) r' :
  at_start r ->
  tr_run tar_seek discards ops r = Return (log, r') ->
  let whole := stream_content (_transfile_obj r) in
  0 <= tell tar_tell r' /\
  forall n, 0 <= n ->
    exists r'',
      read r' n = Return (ztake n (zdrop (tell tar_tell r') whole), r'').
Proof.
  intros Hstart Hrun whole.
  pose proof (tell_in_run whole discards ops r log r'
                (at_start_tell_in r Hstart) Hrun) as (Hwf & Ht & Hc & _).
  split; [exact Ht|]. intros n Hn.
  destruct (tr_read_content r' n Hwf Hn) as (r'' & Hr & _).
  exists r''. rewrite Hr, Hc. reflexivity.
Qed.

End TellProofs.

Lemma tell_is_offset_in_content_witness :
  exists log r',
    tr_run (T_FileObj := no_member_read) no_member_seek
      (own_discards (T_FileObj := no_member_read))
      [Read 1; Seek 2 SEEK_CUR; Read 1] gz_reader = Return (log, r') /\
    sample_tell r' = 4 /\
    exists r'',
      sample_read r' 5 = Return (list_byte_of_string "cd", r'').
Proof.
  destruct (tr_run (T_FileObj := no_member_read) no_member_seek
              (own_discards (T_FileObj := no_member_read))
              [Read 1; Seek 2 SEEK_CUR; Read 1] gz_reader)
    as [[log r']| |] eqn:Hrun; try (vm_compute in Hrun; discriminate).
  exists log, r'. split; [reflexivity|].
  assert (Ht : sample_tell r' = 4)
    by (vm_compute in Hrun; injection Hrun as <- <-; reflexivity).
  split; [exact Ht|].
  destruct (tell_is_offset_in_content (T_FileObj := no_member_read)
              no_member_seek no_member_tell gz_reader _ _ log r'
              ltac:(split; [reflexivity|split; [apply cf_wf_init|reflexivity]])
              Hrun) as [_ Hnext].
  destruct (Hnext 5 ltac:(lia)) as (r'' & Hr).
  exists r''. unfold sample_tell in Ht. rewrite Ht in Hr. exact Hr.
Defined.

(** ** More on [read] and [seek] *)

Section ReadAndSeekEdges.
Import TransRead.
Context {D T : Type} {T_FileObj : FileObj T}.
Variable tar_seek : T -> Z -> Z -> outcome T.
Implicit Types (r : t D T) (c : CompressedFile.t D).

(** X5.  [read()] with a negative size reads a [_CompressedFile] to the
    end: the size reaches the [_CompressedFile] as 2^64 - 1, and for a
    content of no more bytes than that the call returns all that is left;
    every [read] after it, of any size, returns the empty string. *)
Theorem read_negative_reads_all r c (n : Z) :
  _transfile_obj r = Compressed c -> cf_wf c -> n < 0 ->
  len (cf_logical c) <= 0xFFFFFFFFFFFFFFFF ->
  exists r1,
    read r n = Return (cf_logical c, r1) /\
    forall m, exists r2, read r1 m = Return ([], r2).
Proof.
  intros Hs Hc Hn Hlen.
  assert (Hwf : stream_wf (_transfile_obj r)) by (rewrite Hs; exact Hc).
  destruct (tr_read_any r n Hwf) as (r1 & Hr & Hwf1 & Hc1).
  rewrite Hs in Hr, Hc1. cbn [stream_content] in Hr, Hc1.
  destruct (Z.ltb_spec n 0); [|lia].
  rewrite ztake_all in Hr by exact Hlen.
  rewrite zdrop_all in Hc1 by exact Hlen.
  exists r1. split; [exact Hr|]. intros m.
  destruct (tr_read_any r1 m Hwf1) as (r2 & Hr2 & _).
  rewrite Hc1, ztake_nil in Hr2. exists r2. exact Hr2.
Qed.

(** X6.  Emulated seeks know two origins only.  When the seek of a reader
    goes through [_fake_seek_forward], any [whence] other than [SEEK_SET]
    and [SEEK_CUR] ([SEEK_END] too) is refused with the module's [Error],
    before anything is read. *)
Theorem emulated_seek_bad_whence r (offset whence : Z) :
  seek_is_emulated r -> whence <> SEEK_SET -> whence <> SEEK_CUR ->
  seek tar_seek r offset whence = Raise (Error (BadWhence whence)).
Proof.
  intros Hem H0 H1.
  assert (Hf : forall (F : Type) (I : FileObj F) (f : F) cur,
            _fake_seek_forward f cur offset whence =
            Raise (Error (BadWhence whence))).
  { intros F I f cur. unfold _fake_seek_forward.
    destruct (Z.eqb_spec whence SEEK_SET); [contradiction|].
    destruct (Z.eqb_spec whence SEEK_CUR); [contradiction|]. reflexivity. }
  unfold seek_is_emulated, seek in *.
  destruct (_force_fake_seek r || negb (hasattr_seek (_transfile_obj r))).
  - now rewrite Hf.
  - destruct Hem as [Habs|[c Hc]]; [discriminate|].
    rewrite Hc. unfold stream_seek, CompressedFile.seek. now rewrite Hf.
Qed.

(** X7.  Seeking a [_CompressedFile] past the end stops at the end.  On a
    new object whose decompressed content has [L] bytes, [seek] to any
    target from [L] on returns without an error, [tell()] is then [L] and not
    the target, and every [read] returns the empty string. *)
Theorem compressed_seek_past_end (raw : pyfile)
    (f : option (CompressedFile.decompress_func D)) (chunk_size : option Z)
    (target : Z) :
  let c0 := CompressedFile.__init__ raw f chunk_size in
  let L := len (one_shot f (CompressedFile._chunk_size c0) (remaining raw)) in
  L <= target ->
  exists c1,
    CompressedFile.seek c0 target SEEK_SET = Return c1 /\
    CompressedFile.tell c1 = L /\
    forall n, 0 <= n ->
      exists c2, CompressedFile.read c1 n = Return ([], c2).
Proof.
  intros c0 L Ht.
  pose proof (cf_logical_new raw f chunk_size) as Hlog. fold c0 in Hlog.
  pose proof (len_nonneg (cf_logical c0)) as Hnn.
  assert (HL : L = len (cf_logical c0)) by (unfold L; now rewrite Hlog).
  destruct (cf_seek_spec c0 target SEEK_SET (cf_wf_init raw f chunk_size)
              (or_introl eq_refl) ltac:(cbn; lia))
    as (c1 & Hs & Hwf1 & Hl1 & Hp1 & _).
  cbn [SEEK_SET Z.eqb] in Hl1, Hp1.
  change (CompressedFile._pos c0) with 0 in Hl1, Hp1.
  exists c1. split; [exact Hs|]. split.
  - unfold CompressedFile.tell. rewrite Hp1. lia.
  - intros n Hn.
    destruct (cf_read_spec c1 n Hwf1 Hn) as (c2 & Hr & _).
    rewrite Hl1, zdrop_all, ztake_nil in Hr by lia.
    exists c2. exact Hr.
Qed.

(** X8.  Relative seeks add up.  On a [_CompressedFile], seeking forward
    by [a] and then by [b] leaves the same position, and the same bytes to
    be read, as seeking forward by [a + b] at once. *)
Theorem compressed_seeks_add_up c (a b : Z) :
  cf_wf c -> 0 <= a -> 0 <= b ->
  exists c1 c2 c3,
    CompressedFile.seek c a SEEK_CUR = Return c1 /\
    CompressedFile.seek c1 b SEEK_CUR = Return c2 /\
    CompressedFile.seek c (a + b) SEEK_CUR = Return c3 /\
    CompressedFile.tell c2 = CompressedFile.tell c3 /\
    forall n, 0 <= n ->
      exists data x y,
        CompressedFile.read c2 n = Return (data, x) /\
        CompressedFile.read c3 n = Return (data, y).
Proof.
  intros Hwf Ha Hb.
  destruct (cf_seek_spec c a SEEK_CUR Hwf (or_intror eq_refl)
              ltac:(cbn; lia)) as (c1 & Hs1 & Hwf1 & Hl1 & Hp1 & _).
  destruct (cf_seek_spec c1 b SEEK_CUR Hwf1 (or_intror eq_refl)
              ltac:(cbn; lia)) as (c2 & Hs2 & Hwf2 & Hl2 & Hp2 & _).
  destruct (cf_seek_spec c (a + b) SEEK_CUR Hwf (or_intror eq_refl)
              ltac:(cbn; lia)) as (c3 & Hs3 & Hwf3 & Hl3 & Hp3 & _).
  cbn [SEEK_SET SEEK_CUR Z.eqb] in *.
  assert (Hsame : cf_logical c2 = cf_logical c3).
  { rewrite Hl2, Hl3, Hl1, zdrop_zdrop by lia. f_equal. lia. }
  exists c1, c2, c3. repeat split; try assumption.
  - unfold CompressedFile.tell. rewrite Hp2, Hp3, Hl1, Hp1, len_zdrop.
    pose proof (len_nonneg (cf_logical c)). lia.
  - intros n Hn.
    destruct (cf_read_spec c2 n Hwf2 Hn) as (x & Hr2 & _).
    destruct (cf_read_spec c3 n Hwf3 Hn) as (y & Hr3 & _).
    exists (ztake n (cf_logical c2)), x, y. split; [exact Hr2|].
    rewrite Hsame. exact Hr3.
Qed.

End ReadAndSeekEdges.

Lemma read_negative_reads_all_witness :
  exists r1,
    sample_read gz_reader (-1) = Return (list_byte_of_string "aaaccd", r1) /\
    forall m, exists r2, sample_read r1 m = Return ([], r2).
Proof.
  apply (read_negative_reads_all (T_FileObj := no_member_read) gz_reader
           (CompressedFile.__init__ encoded (Some rle) None) (-1)).
  - reflexivity.
  - apply cf_wf_init.
  - lia.
  - vm_compute. discriminate.
Defined.

Lemma emulated_seek_bad_whence_witness :
  sample_seek gz_reader 0 SEEK_END = Raise (Error (BadWhence SEEK_END)).
Proof.
  apply (emulated_seek_bad_whence (T_FileObj := no_member_read)
           no_member_seek gz_reader 0 SEEK_END).
  - right. eexists. reflexivity.
  - discriminate.
  - discriminate.
Defined.

Lemma compressed_seek_past_end_witness :
  exists c1,
    CompressedFile.seek
      (CompressedFile.__init__ encoded (Some rle) None) 50 SEEK_SET =
      Return c1 /\
    CompressedFile.tell c1 = 6 /\
    forall n, 0 <= n ->
      exists c2, CompressedFile.read c1 n = Return ([], c2).
Proof.
  apply (compressed_seek_past_end encoded (Some rle) None 50).
  vm_compute. discriminate.
Defined.

Lemma compressed_seeks_add_up_witness :
  exists c1 c2 c3,
    CompressedFile.seek
      (CompressedFile.__init__ encoded (Some rle) (Some 3)) 1 SEEK_CUR =
      Return c1 /\
    CompressedFile.seek c1 3 SEEK_CUR = Return c2 /\
    CompressedFile.seek
      (CompressedFile.__init__ encoded (Some rle) (Some 3)) (1 + 3) SEEK_CUR =
      Return c3 /\
    CompressedFile.tell c2 = CompressedFile.tell c3 /\
    forall n, 0 <= n ->
      exists data x y,
        CompressedFile.read c2 n = Return (data, x) /\
        CompressedFile.read c3 n = Return (data, y).
Proof.
  apply (compressed_seeks_add_up
           (CompressedFile.__init__ encoded (Some rle) (Some 3)) 1 3).
  - apply cf_wf_init.
  - lia.
  - lia.
Defined.

(** ** Opening, and the local copy *)

Section OpeningAndCopy.
Import TransRead.
Context {D T : Type} {T_FileObj : FileObj T}.
Variable tar_seek : T -> Z -> Z -> outcome T.
Variable tar_tell : T -> Z.
Variable tarfile_first_member : pyfile -> outcome (T * Z).
Variable zlib_decompressobj : Z -> CompressedFile.decompress_func D.
Variable bz2_BZ2Decompressor : CompressedFile.decompress_func D.
Implicit Types (r : t D T).

Local Abbreviation open :=
  (_open_compressed_file tarfile_first_member zlib_decompressobj
     bz2_BZ2Decompressor).

(** X9.  Opening reads nothing unless the name says tar.  For a name that
    does not end in [.tar.gz], [.tar.bz2] or [.tgz], [_open_compressed_file]
    always returns: it keeps the name and the transport flags, starts at
    position zero and leaves the raw file where it was, whatever bytes the
    file holds; data that is not gzip or bzip2 can only show when it is
    read.  A raw file opened at its start gives a reader at its start. *)
Theorem open_reads_nothing (name : string) (is_url force : bool)
    (file_obj : pyfile) :
  endswith name ".tar.gz" || endswith name ".tar.bz2"
  || endswith name ".tgz" = false ->
  exists r,
    open name is_url force file_obj = Return r /\
    TransRead.name r = name /\ TransRead.is_url r = is_url /\
    _force_fake_seek r = force /\ _pos r = 0 /\
    match _transfile_obj r with
    | Plain f => f = file_obj
    | Compressed c =>
        CompressedFile._file_obj c = file_obj /\
        CompressedFile._buffer c = [] /\ CompressedFile._eof c = false
    | TarMember _ => False
    end /\
    (f_off file_obj = O -> at_start r).
Proof.
  intros Ht. unfold _open_compressed_file. rewrite Ht.
  destruct (endswith name ".gz"); [|destruct (endswith name ".bz2")];
    cbn [except_IOError]; eexists; (split; [reflexivity|]);
    cbn [TransRead.name TransRead.is_url _force_fake_seek _pos
           _transfile_obj];
    do 4 (split; [reflexivity|]).
  - split; [repeat split|].
    intros _. split; [reflexivity|]. split; [apply cf_wf_init|reflexivity].
  - split; [repeat split|].
    intros _. split; [reflexivity|]. split; [apply cf_wf_init|reflexivity].
  - split; [reflexivity|]. intros H0. split; [reflexivity|exact H0].
Qed.

(** One [read] of a reader, with all it leaves behind. *)
Lemma tr_read_fields r (n : Z) :
  stream_wf (_transfile_obj r) -> 0 <= n ->
  exists s',
    read r n =
      Return (ztake n (stream_content (_transfile_obj r)),
              mk (name r) (size r) (is_compressed r) (is_url r) s'
                (_force_fake_seek r)
                (_pos r + len (ztake n (stream_content (_transfile_obj r)))))
    /\ stream_wf s' /\
    stream_content s' = zdrop n (stream_content (_transfile_obj r)).
Proof.
  intros Hwf Hn. unfold read. destruct (Z.ltb_spec n 0); [lia|].
  destruct (stream_read_content _ n Hwf Hn) as (s' & Hr & Hwf' & Hc).
  rewrite Hr. cbn [bind]. exists s'. split; [reflexivity|auto].
Qed.

(** What [_create_local_copy] does when the temporary file can be made. *)
Lemma create_local_copy_spec (tmp_name : string) (fuel : nat) r :
  stream_wf (_transfile_obj r) ->
  (length (stream_content (_transfile_obj r)) < fuel)%nat ->
  TransReadLocal._create_local_copy tmp_name None None fuel r =
  TransReadLocal.Done
    (mk (name r) (size r) false false
       (Plain (mk_pyfile (stream_content (_transfile_obj r)) 0 true))
       (_force_fake_seek r)
       (_pos r + len (stream_content (_transfile_obj r)))).
Proof.
  intros Hwf Hfuel. unfold TransReadLocal._create_local_copy.
  set (Inv := fun x : t D T =>
         stream_wf (_transfile_obj x) /\ name x = name r /\
         size x = size r /\ _force_fake_seek x = _force_fake_seek r /\
         _pos x + len (stream_content (_transfile_obj x)) =
         _pos r + len (stream_content (_transfile_obj r))).
  assert (Hread : forall (x : t D T) (n : Z), Inv x -> 0 <= n ->
            exists x',
              @obj_read (t D T) (@read D T T_FileObj) x n =
                Return (ztake n (stream_content (_transfile_obj x)), x') /\
              Inv x' /\
              stream_content (_transfile_obj x') =
                zdrop n (stream_content (_transfile_obj x))).
  { intros x n (Hx & Hn1 & Hn2 & Hn3 & Hn4) Hn.
    destruct (tr_read_fields x n Hx Hn) as (s' & Hr & Hwf' & Hc').
    eexists. split; [exact Hr|].
    unfold Inv. cbn [_transfile_obj name size _force_fake_seek _pos].
    split; [|exact Hc'].
    split; [exact Hwf'|]. do 3 (split; [assumption|]).
    rewrite Hc', len_ztake, len_zdrop.
    pose proof (len_nonneg (stream_content (_transfile_obj x))). lia. }
  assert (Hinv : Inv r) by (unfold Inv; auto).
  destruct (@seq_read_until_empty (t D T) (@read D T T_FileObj) Inv
              (fun x => stream_content (_transfile_obj x)) Hread fuel r
              (1024 * 1024) Hinv ltac:(lia) Hfuel)
    as (r1 & Hdrain & (Hw1 & Hn1 & Hn2 & Hn3 & Hn4) & Hc1).
  rewrite Hdrain. unfold set_transfile_obj.
  cbn [name size is_compressed is_url _force_fake_seek _pos].
  rewrite Hc1, len_nil in Hn4.
  rewrite Hn1, Hn2, Hn3. do 2 f_equal. lia.
Qed.

Lemma create_local_copy_done (tmp_name : string)
    (tmp_create_error tmp_open_error : option string) (fuel : nat) r r' :
  stream_wf (_transfile_obj r) ->
  (length (stream_content (_transfile_obj r)) < fuel)%nat ->
  TransReadLocal._create_local_copy tmp_name tmp_create_error tmp_open_error
    fuel r = TransReadLocal.Done r' ->
  r' = mk (name r) (size r) false false
         (Plain (mk_pyfile (stream_content (_transfile_obj r)) 0 true))
         (_force_fake_seek r)
         (_pos r + len (stream_content (_transfile_obj r))).
Proof.
  intros Hwf Hfuel Hc.
  destruct tmp_create_error as [e|]; [discriminate Hc|].
  destruct tmp_open_error as [e|].
  - unfold TransReadLocal._create_local_copy in Hc.
    destruct (read_until_empty _ _ _) as [[w x]| |]; discriminate Hc.
  - rewrite (create_local_copy_spec tmp_name fuel r Hwf Hfuel) in Hc.
    now injection Hc as <-.
Qed.

(** X10.  The local copy holds the content.  When the temporary file can
    be created and opened, [_create_local_copy] on a reader over a file or a
    [_CompressedFile] returns (any bound on the reads of its loop above the
    length of the content is enough), and the reader it leaves is over a
    local file opened at offset zero that holds, byte for byte, what was
    left of the logical content.  Both flags are cleared; the name, the size
    attribute, the seek flag and the position counter, which now counts the
    bytes copied, are not reset. *)
Theorem local_copy_holds_content (tmp_name : string) (fuel : nat) r :
  stream_wf (_transfile_obj r) ->
  (length (stream_content (_transfile_obj r)) < fuel)%nat ->
  TransReadLocal._create_local_copy tmp_name None None fuel r =
  TransReadLocal.Done
    (mk (name r) (size r) false false
       (Plain (mk_pyfile (stream_content (_transfile_obj r)) 0 true))
       (_force_fake_seek r)
       (_pos r + len (stream_content (_transfile_obj r)))).
Proof.
  intros Hwf Hfuel. now apply create_local_copy_spec.
Qed.

(** X11.  A reader whose seeks are not forced to be emulated can go
    anywhere in its local copy.  After [_create_local_copy], [seek] to any
    offset and then to any other, before or after the first, returns;
    [tell()] is the last offset and [read] gives the content from there. *)
Theorem local_copy_seeks_anywhere (tmp_name : string)
    (tmp_create_error tmp_open_error : option string) (fuel : nat) r r'
    (j k n : Z) :
  stream_wf (_transfile_obj r) ->
  (length (stream_content (_transfile_obj r)) < fuel)%nat ->
  _force_fake_seek r = false ->
  TransReadLocal._create_local_copy tmp_name tmp_create_error tmp_open_error
    fuel r = TransReadLocal.Done r' ->
  0 <= j -> 0 <= k -> 0 <= n ->
  exists r1 r2 r3,
    seek tar_seek r' j SEEK_SET = Return r1 /\
    seek tar_seek r1 k SEEK_SET = Return r2 /\
    tell tar_tell r2 = k /\
    read r2 n =
      Return (ztake n (zdrop k (stream_content (_transfile_obj r))), r3).
Proof.
  intros Hwf Hfuel Hforce Hc Hj Hk Hn.
  rewrite (create_local_copy_done _ _ _ _ _ _ Hwf Hfuel Hc), Hforce.
  set (content := stream_content (_transfile_obj r)).
  set (at_ := fun i : Z =>
         mk (name r) (size r) false false
           (Plain (mk_pyfile content (Z.to_nat i) true) : stream D T) false
           (_pos r + len content)).
  assert (Hs : forall (off : nat) i, 0 <= i ->
            seek tar_seek
              (mk (name r) (size r) false false
                 (Plain (mk_pyfile content off true)) false
                 (_pos r + len content)) i SEEK_SET = Return (at_ i)).
  { intros off i Hi. unfold seek.
    cbn [_force_fake_seek _transfile_obj hasattr_seek f_has_seek negb orb
           stream_seek].
    unfold file_seek. cbn [SEEK_SET Z.eqb bind Z.add].
    destruct (Z.ltb_spec i 0); [lia|]. reflexivity. }
  destruct (tr_read_content (at_ k) n I Hn) as (r3 & Hr & _).
  exists (at_ j), (at_ k), r3.
  split; [apply Hs; exact Hj|]. split; [apply Hs; exact Hk|].
  split.
  - unfold tell, hasattr_tell, at_.
    cbn [_force_fake_seek _transfile_obj hasattr_seek f_has_seek negb orb
           stream_tell]. unfold file_tell. cbn [f_off]. lia.
  - rewrite Hr. unfold at_.
    cbn [_transfile_obj stream_content remaining f_data f_off].
    unfold zdrop. reflexivity.
Qed.

(** X12.  A reader whose seeks are forced to be emulated (an [ssh://]
    source) cannot go back in its local copy.  [_create_local_copy] leaves
    the position counter at the number of bytes it has read while the copy is
    opened at offset zero: [tell()] reports that number, a [seek] to any
    offset below it is refused as a backward seek, and [read] gives the
    content from its first byte. *)
Theorem local_copy_of_forced_reader (tmp_name : string)
    (tmp_create_error tmp_open_error : option string) (fuel : nat) r r' :
  stream_wf (_transfile_obj r) ->
  (length (stream_content (_transfile_obj r)) < fuel)%nat ->
  _force_fake_seek r = true ->
  TransReadLocal._create_local_copy tmp_name tmp_create_error tmp_open_error
    fuel r = TransReadLocal.Done r' ->
  let content := stream_content (_transfile_obj r) in
  tell tar_tell r' = _pos r + len content /\
  (forall k, k < _pos r + len content ->
     seek tar_seek r' k SEEK_SET =
       Raise (Error (BackwardSeek (_pos r + len content) k))) /\
  (forall n, 0 <= n ->
     exists r1, read r' n = Return (ztake n content, r1)).
Proof.
  intros Hwf Hfuel Hforce Hc content.
  rewrite (create_local_copy_done _ _ _ _ _ _ Hwf Hfuel Hc), Hforce.
  fold content. split; [reflexivity|]. split.
  - intros k Hk. unfold seek. cbn [_force_fake_seek orb _pos _transfile_obj].
    rewrite fake_seek_backward; [reflexivity|now left|exact Hk].
  - intros n Hn.
    match goal with |- exists r1, read ?x n = _ =>
      destruct (tr_read_content x n I Hn) as (r1 & Hr & _) end.
    exists r1. exact Hr.
Qed.

Variable open_rb : string -> TransReadLocal.local_open.
Variable _open_url : string -> TransReadLocal.url_open.

(** X13.  The constructor with [local = True], from end to end.  For a
    local file whose name does not end in a tar suffix, when the temporary
    file can be created and opened, the constructor returns a reader over a
    local file at offset zero that holds the gzip decompression (in chunks of
    128 KiB) of the file for a [.gz] name, the bzip2 decompression (in chunks
    of 128 bytes) for a [.bz2] name, and the file itself for any other name,
    which is copied all the same.  The reader is marked neither compressed
    nor remote, and its position counter is at the length of the copy. *)
Theorem init_local_holds_content (tmp_name : string) (fuel : nat)
    (filepath : string) (file_obj : pyfile) :
  open_rb filepath = TransReadLocal.OpenedFile file_obj ->
  f_off file_obj = O ->
  endswith filepath ".tar.gz" || endswith filepath ".tar.bz2"
  || endswith filepath ".tgz" = false ->
  let content :=
    if endswith filepath ".gz" then
      one_shot (Some (zlib_decompressobj (16 + MAX_WBITS))) (128 * 1024)
        (f_data file_obj)
    else if endswith filepath ".bz2" then
      one_shot (Some bz2_BZ2Decompressor) 128 (f_data file_obj)
    else f_data file_obj in
  (length content < fuel)%nat ->
  TransReadLocal.__init__ tarfile_first_member zlib_decompressobj
    bz2_BZ2Decompressor open_rb _open_url tmp_name None None fuel filepath
    true =
  TransReadLocal.Done
    (mk filepath
       (if endswith filepath ".gz" || endswith filepath ".bz2" then None
        else Some (st_size file_obj))
       false false (Plain (mk_pyfile content 0 true)) false (len content)).
Proof.
  intros Hopen Hoff Htar content Hfuel.
  assert (Hrem : remaining file_obj = f_data file_obj)
    by (unfold remaining; now rewrite Hoff).
  unfold TransReadLocal.__init__. rewrite Hopen.
  unfold _open_compressed_file. rewrite Htar. subst content.
  destruct (endswith filepath ".gz"); [|destruct (endswith filepath ".bz2")];
    cbn [except_IOError negb orb];
    match goal with
    | |- TransReadLocal._create_local_copy _ _ _ _ ?x = _ =>
        pose proof (create_local_copy_spec tmp_name fuel x) as Hspec
    end;
    cbn [_transfile_obj stream_wf stream_content name size _force_fake_seek
           _pos negb] in Hspec;
    rewrite Z.add_0_l in Hspec;
    try rewrite cf_logical_new in Hspec;
    cbn [CompressedFile.__init__ CompressedFile._chunk_size Z.eqb] in Hspec;
    rewrite Hrem in Hspec;
    (rewrite Hspec; [reflexivity|try apply cf_wf_init; exact I|exact Hfuel]).
Qed.

Variable A : Type.
Variable getattr : stream D T -> string -> outcome A.

(** X14.  Attributes fall through to the file of a plain local reader
    only.  For a reader just opened under a name without a tar suffix,
    [__getattr__] hands the lookup to the raw file when the name ends in
    neither [.gz] nor [.bz2] and the source is not a URL, and raises
    [AttributeError] otherwise; after [_create_local_copy] it always hands
    the lookup to the local copy. *)
Theorem getattr_falls_through (attr : string) :
  (forall (name : string) (is_url force : bool) (file_obj : pyfile) r,
     endswith name ".tar.gz" || endswith name ".tar.bz2"
     || endswith name ".tgz" = false ->
     open name is_url force file_obj = Return r ->
     TransReadLocal.__getattr__ getattr r attr =
       if negb (endswith name ".gz" || endswith name ".bz2") && negb is_url
       then getattr (Plain file_obj) attr
       else Raise (OtherException "AttributeError" "")) /\
  (forall (tmp_name : string)
          (tmp_create_error tmp_open_error : option string) (fuel : nat)
          r r',
     stream_wf (_transfile_obj r) ->
     (length (stream_content (_transfile_obj r)) < fuel)%nat ->
     TransReadLocal._create_local_copy tmp_name tmp_create_error
       tmp_open_error fuel r = TransReadLocal.Done r' ->
     TransReadLocal.__getattr__ getattr r' attr =
       getattr
         (Plain (mk_pyfile (stream_content (_transfile_obj r)) 0 true))
         attr).
Proof.
  split.
  - intros name is_url force file_obj r Ht Ho.
    unfold _open_compressed_file in Ho. rewrite Ht in Ho.
    destruct (endswith name ".gz");
      [|destruct (endswith name ".bz2")]; cbn [except_IOError] in Ho;
      injection Ho as <-; unfold TransReadLocal.__getattr__;
      cbn [is_compressed TransRead.is_url _transfile_obj negb andb orb];
      try reflexivity.
  - intros tmp_name ce oe fuel r r' Hwf Hfuel Hc.
    rewrite (create_local_copy_done _ _ _ _ _ _ Hwf Hfuel Hc).
    reflexivity.
Qed.

(** X15.  The constructor with [local = True] on a URL.  When the path is
    not a local file and [_open_url] opens it, for a name without a tar
    suffix the constructor returns a reader over a local copy of the decoded
    content that is no longer marked remote and has no size; the seek flag
    that [_open_url] has set ([True] for [ssh://]) is kept. *)
Theorem init_local_copy_of_url (tmp_name : string) (fuel : nat)
    (filepath : string) (file_obj : pyfile) (force : bool) :
  open_rb filepath = TransReadLocal.NoSuchFile ->
  _open_url filepath = TransReadLocal.UrlOpened file_obj force ->
  f_off file_obj = O ->
  endswith filepath ".tar.gz" || endswith filepath ".tar.bz2"
  || endswith filepath ".tgz" = false ->
  let content :=
    if endswith filepath ".gz" then
      one_shot (Some (zlib_decompressobj (16 + MAX_WBITS))) (128 * 1024)
        (f_data file_obj)
    else if endswith filepath ".bz2" then
      one_shot (Some bz2_BZ2Decompressor) 128 (f_data file_obj)
    else f_data file_obj in
  (length content < fuel)%nat ->
  TransReadLocal.__init__ tarfile_first_member zlib_decompressobj
    bz2_BZ2Decompressor open_rb _open_url tmp_name None None fuel filepath
    true =
  TransReadLocal.Done
    (mk filepath None false false (Plain (mk_pyfile content 0 true)) force
       (len content)).
Proof.
  intros Hopen Hurl Hoff Htar content Hfuel.
  assert (Hrem : remaining file_obj = f_data file_obj)
    by (unfold remaining; now rewrite Hoff).
  unfold TransReadLocal.__init__. rewrite Hopen, Hurl.
  unfold _open_compressed_file. rewrite Htar. subst content.
  destruct (endswith filepath ".gz"); [|destruct (endswith filepath ".bz2")];
    cbn [except_IOError negb orb];
    match goal with
    | |- TransReadLocal._create_local_copy _ _ _ _ ?x = _ =>
        pose proof (create_local_copy_spec tmp_name fuel x) as Hspec
    end;
    cbn [_transfile_obj stream_wf stream_content name size _force_fake_seek
           _pos negb] in Hspec;
    rewrite Z.add_0_l in Hspec;
    try rewrite cf_logical_new in Hspec;
    cbn [CompressedFile.__init__ CompressedFile._chunk_size Z.eqb] in Hspec;
    rewrite Hrem in Hspec;
    (rewrite Hspec; [reflexivity|try apply cf_wf_init; exact I|exact Hfuel]).
Qed.

(** X16.  The constructor without a local copy.  For a local file, or a
    URL that [_open_url] opens, under a name without a tar suffix, the
    constructor returns (it reads nothing, so no bound on reads matters) a
    reader at position zero, marked remote exactly for a URL and compressed
    exactly for a [.gz] or [.bz2] name, whose [read(n)] gives the first [n]
    bytes of the decoded content. *)
Theorem init_reads_decoded (tmp_name : string)
    (tmp_create_error tmp_open_error : option string) (fuel : nat)
    (filepath : string) (file_obj : pyfile) (url force : bool) :
  (open_rb filepath = TransReadLocal.OpenedFile file_obj /\
   url = false /\ force = false) \/
  (open_rb filepath = TransReadLocal.NoSuchFile /\
   _open_url filepath = TransReadLocal.UrlOpened file_obj force /\
   url = true) ->
  f_off file_obj = O ->
  endswith filepath ".tar.gz" || endswith filepath ".tar.bz2"
  || endswith filepath ".tgz" = false ->
  let content :=
    if endswith filepath ".gz" then
      one_shot (Some (zlib_decompressobj (16 + MAX_WBITS))) (128 * 1024)
        (f_data file_obj)
    else if endswith filepath ".bz2" then
      one_shot (Some bz2_BZ2Decompressor) 128 (f_data file_obj)
    else f_data file_obj in
  exists r,
    TransReadLocal.__init__ tarfile_first_member zlib_decompressobj
      bz2_BZ2Decompressor open_rb _open_url tmp_name tmp_create_error
      tmp_open_error fuel filepath false = TransReadLocal.Done r /\
    is_url r = url /\
    _force_fake_seek r = force /\
    is_compressed r = (endswith filepath ".gz" || endswith filepath ".bz2") /\
    tell tar_tell r = 0 /\
    forall n, 0 <= n ->
      exists r1, read r n = Return (ztake n content, r1).
Proof.
  intros Hopen Hoff Htar content.
  assert (Hrem : remaining file_obj = f_data file_obj)
    by (unfold remaining; now rewrite Hoff).
  assert (Hinit :
    TransReadLocal.__init__ tarfile_first_member zlib_decompressobj
      bz2_BZ2Decompressor open_rb _open_url tmp_name tmp_create_error
      tmp_open_error fuel filepath false =
    match open filepath url force file_obj with
    | Return self => TransReadLocal.Done self
    | Raise e => TransReadLocal.Raised e
    | OutOfFuel => TransReadLocal.NoResult
    end).
  { unfold TransReadLocal.__init__.
    destruct Hopen as [(-> & -> & ->) | (-> & -> & ->)]; reflexivity. }
  rewrite Hinit. clear Hinit Hopen.
  unfold _open_compressed_file. rewrite Htar. subst content.
  destruct (endswith filepath ".gz"); [|destruct (endswith filepath ".bz2")];
    cbn [except_IOError negb orb];
    (eexists; split; [reflexivity|]);
    cbn [is_url _force_fake_seek is_compressed];
    (split; [reflexivity|]); (split; [reflexivity|]);
    (split; [reflexivity|]).
  - split.
    + unfold tell, hasattr_tell. cbn [_force_fake_seek _transfile_obj _pos
        hasattr_seek stream_tell orb negb]. now destruct force.
    + intros n Hn.
      match goal with |- exists r1, read ?x n = _ =>
        destruct (tr_read_content x n (cf_wf_init _ _ _) Hn) as (r1 & Hr & _)
      end.
      exists r1. rewrite Hr.
      cbn [_transfile_obj stream_content]. rewrite cf_logical_new.
      cbn [CompressedFile.__init__ CompressedFile._chunk_size Z.eqb].
      now rewrite Hrem.
  - split.
    + unfold tell, hasattr_tell. cbn [_force_fake_seek _transfile_obj _pos
        hasattr_seek stream_tell orb negb]. now destruct force.
    + intros n Hn.
      match goal with |- exists r1, read ?x n = _ =>
        destruct (tr_read_content x n (cf_wf_init _ _ _) Hn) as (r1 & Hr & _)
      end.
      exists r1. rewrite Hr.
      cbn [_transfile_obj stream_content]. rewrite cf_logical_new.
      cbn [CompressedFile.__init__ CompressedFile._chunk_size Z.eqb].
      now rewrite Hrem.
  - split.
    + unfold tell, hasattr_tell. cbn [_force_fake_seek _transfile_obj _pos
        hasattr_seek stream_tell orb negb].
      unfold file_tell. rewrite Hoff.
      now destruct force, (f_has_seek file_obj).
    + intros n Hn.
      match goal with |- exists r1, read ?x n = _ =>
        destruct (tr_read_content x n I Hn) as (r1 & Hr & _)
      end.
      exists r1. rewrite Hr.
      cbn [_transfile_obj stream_content]. now rewrite Hrem.
Qed.

End OpeningAndCopy.

Lemma open_reads_nothing_witness :
  exists r,
    sample_open "image.gz" true true encoded = Return r /\
    TransRead.name r = "image.gz"%string /\
    TransRead.is_url r = true /\
    TransRead._force_fake_seek r = true /\
    TransRead._pos r = 0 /\
    match TransRead._transfile_obj r with
    | TransRead.Plain f => f = encoded
    | TransRead.Compressed c =>
        CompressedFile._file_obj c = encoded /\
        CompressedFile._buffer c = [] /\ CompressedFile._eof c = false
    | TransRead.TarMember _ => False
    end /\
    (f_off encoded = O -> at_start r).
Proof.
  apply (open_reads_nothing
           (fun _ : pyfile =>
              Raise
                (OtherException "tarfile.ReadError"%string
                   "file could not be opened successfully"%string))
           (fun _ : Z => rle) rle "image.gz"%string true true encoded).
  reflexivity.
Defined.

Lemma local_copy_holds_content_witness :
  sample_copy None None 7 gz_reader = TransReadLocal.Done gz_local_copy.
Proof.
  apply (local_copy_holds_content (T_FileObj := no_member_read)
           "/tmp/tmpimage"%string 7 gz_reader).
  - apply cf_wf_init.
  - vm_compute. lia.
Defined.

Lemma local_copy_seeks_anywhere_witness :
  exists r1 r2 r3,
    sample_seek gz_local_copy 5 SEEK_SET = Return r1 /\
    sample_seek r1 2 SEEK_SET = Return r2 /\
    sample_tell r2 = 2 /\
    sample_read r2 3 = Return (list_byte_of_string "acc", r3).
Proof.
  apply (local_copy_seeks_anywhere (T_FileObj := no_member_read)
           no_member_seek no_member_tell "/tmp/tmpimage"%string None None 7
           gz_reader gz_local_copy 5 2 3).
  - apply cf_wf_init.
  - vm_compute. lia.
  - reflexivity.
  - vm_compute. reflexivity.
  - lia.
  - lia.
  - lia.
Defined.

Lemma local_copy_of_forced_reader_witness :
  sample_tell ssh_gz_local_copy = 6 /\
  (forall k, k < 6 ->
     sample_seek ssh_gz_local_copy k SEEK_SET =
       Raise (Error (BackwardSeek 6 k))) /\
  (forall n, 0 <= n ->
     exists r1,
       sample_read ssh_gz_local_copy n =
         Return (ztake n (list_byte_of_string "aaaccd"), r1)).
Proof.
  apply (local_copy_of_forced_reader (T_FileObj := no_member_read)
           no_member_seek no_member_tell "/tmp/tmpimage"%string None None 7
           ssh_gz_reader ssh_gz_local_copy).
  - apply cf_wf_init.
  - vm_compute. lia.
  - reflexivity.
  - vm_compute. reflexivity.
Defined.

Lemma init_local_holds_content_witness :
  sample_init 7 "image.gz" true = TransReadLocal.Done gz_local_copy.
Proof.
  apply (init_local_holds_content (T_FileObj := no_member_read)
           (fun _ : pyfile =>
              Raise
                (OtherException "tarfile.ReadError"%string
                   "file could not be opened successfully"%string))
           (fun _ : Z => rle) rle sample_open_rb sample_open_url
           "/tmp/tmpimage"%string 7 "image.gz"%string encoded).
  - reflexivity.
  - reflexivity.
  - reflexivity.
  - vm_compute. lia.
Defined.

Lemma getattr_falls_through_witness :
  TransReadLocal.__getattr__ sample_getattr raw_reader "seekable" =
    Return true /\
  TransReadLocal.__getattr__ sample_getattr gz_reader "seekable" =
    Raise (OtherException "AttributeError" "") /\
  TransReadLocal.__getattr__ sample_getattr gz_local_copy "seekable" =
    Return true.
Proof.
  destruct (getattr_falls_through (T_FileObj := no_member_read)
              (fun _ : pyfile =>
                 Raise
                   (OtherException "tarfile.ReadError"%string
                      "file could not be opened successfully"%string))
              (fun _ : Z => rle) rle bool sample_getattr "seekable"%string)
    as [Hopen Hcopy].
  split; [|split].
  - apply (Hopen "image.raw"%string false false digits raw_reader); reflexivity.
  - apply (Hopen "image.gz"%string false false encoded gz_reader); reflexivity.
  - apply (Hcopy "/tmp/tmpimage"%string None None 7%nat gz_reader gz_local_copy).
    + apply cf_wf_init.
    + vm_compute. lia.
    + vm_compute. reflexivity.
Defined.

Lemma init_local_copy_of_url_witness :
  sample_init_remote 7 "ssh://host/image.gz" true =
    TransReadLocal.Done ssh_gz_local_copy.
Proof.
  apply (init_local_copy_of_url (T_FileObj := no_member_read)
           (fun _ : pyfile =>
              Raise
                (OtherException "tarfile.ReadError"
                   "file could not be opened successfully"))
           (fun _ : Z => rle) rle sample_open_rb sample_open_ssh
           "/tmp/tmpimage"%string 7 "ssh://host/image.gz"%string ssh_pipe
           true).
  - reflexivity.
  - reflexivity.
  - reflexivity.
  - reflexivity.
  - vm_compute. lia.
Defined.

Lemma init_reads_decoded_witness :
  exists r,
    sample_init_remote 0 "ssh://host/image.gz" false =
      TransReadLocal.Done r /\
    TransRead.is_url r = true /\
    TransRead._force_fake_seek r = true /\
    TransRead.is_compressed r = true /\
    sample_tell r = 0 /\
    forall n, 0 <= n ->
      exists r1,
        sample_read r n =
          Return (ztake n (list_byte_of_string "aaaccd"), r1).
Proof.
  apply (init_reads_decoded (T_FileObj := no_member_read) no_member_tell
           (fun _ : pyfile =>
              Raise
                (OtherException "tarfile.ReadError"
                   "file could not be opened successfully"))
           (fun _ : Z => rle) rle sample_open_rb sample_open_ssh
           "/tmp/tmpimage"%string None None 0%nat
           "ssh://host/image.gz"%string ssh_pipe true true).
  - right. split; [reflexivity|]. split; reflexivity.
  - reflexivity.
  - reflexivity.
Defined.
